(** * Neon Racer: the simulation loop of [RacingGame.tsx] and the session
      handlers of [App.tsx]

    One call of [gameLoop] is one animation frame: it reads the clock,
    updates the object held by [stateRef] when the phase is PLAYING, and
    draws.  The frame is a function of the state, of the props of the
    component ([gameState], [controlState]), of the canvas size, of the time
    stamp and of the values [Math.random()] returns during the frame; it
    gives back the new state, the calls made to [playSound] and
    [onGameOver], the display list, and whether the frame came to ask for
    the next one.

    JavaScript numbers are modelled as exact rationals ([Q]): [Math.max],
    [Math.min], [Math.abs] and [Math.floor] are [Qmax], [Qmin], [Qabs] and
    [Qfloor], and the comparisons are decided by [Qle_bool].  Equal numbers
    are [==], not [=].  The integer valued [score] and [entityIdCounter] are
    kept in [Z].  What only IEEE binary64 can show (a [NaN] going through
    the clamps, a product that overflows) is modelled a second time, on
    primitive floats, in [Module Binary64].

    The rationals stand for the doubles of the code up to rounding, and
    within limits.  A sum or a product is exact here and rounded in the
    code, so a test against a threshold ([speed > 0.05], the drain of the
    boost reaching 0, [Math.floor], the hit test) can come out differently
    when the value is within rounding of the threshold: the properties
    that depend on such a test are stated with a margin around it.  A
    rational neither overflows nor is a [NaN], and [x / 0] is 0 in [Q]:
    the properties that depend on it are stated for control values and
    rows of magnitude up to 1e300 and for canvases at least one pixel
    high.

    The control values come from the gesture service ([calculateSteering],
    [calculateThrottle]) by way of [renderLoop] of [WebcamController.tsx],
    which builds the message [handleControlUpdate] receives; both are
    modelled too, over [Math.atan2], [Math.PI] and [Math.sqrt] taken as
    given. *)

From Stdlib Require Import QArith Qminmax Qabs Qround ZArith List Bool String.
From Stdlib Require Import Lqa Lia PrimFloat.
From Stdlib Require Import Sorted.
Import ListNotations.
Open Scope Q_scope.

(** Decimal constants of the source are read as the nearest double. *)
Set Warnings "-inexact-float".

(** ** Comparisons of numbers *)

(** [a < b] as the test of an [if]. *)
Definition Qltb (a b : Q) : bool := negb (Qle_bool b a).

(** ** Types ([types.ts] and the interfaces of [RacingGame.tsx]) *)

Inductive GameState : Set := MENU | PLAYING | GAME_OVER.

Definition GameState_eqb (a b : GameState) : bool :=
  match a, b with
  | MENU, MENU | PLAYING, PLAYING | GAME_OVER, GAME_OVER => true
  | _, _ => false
  end.

(** The two scalars of [ControlState] the game reads, and [isTracking], which
    only the menu reads. *)
Record ControlState : Set := mkControl {
  steering : Q;
  throttle : Q;
  isTracking : bool
}.

Inductive EntityType : Set := rock | oil | orb.

Module Entity.
Record t : Set := mk {
  id : Z;
  x : Q;
  y : Q;
  type : EntityType;
  active : bool
}.
Definition set_y (v : Q) (e : t) : t := mk (id e) (x e) v (type e) (active e).
Definition set_active (v : bool) (e : t) : t := mk (id e) (x e) (y e) (type e) v.
End Entity.

Module Particle.
Record t : Set := mk {
  x : Q;
  y : Q;
  vx : Q;
  vy : Q;
  life : Q;
  maxLife : Q;
  color : string;
  size : Q
}.
End Particle.

(** The object held by [stateRef]. *)
Record State : Set := mkState {
  playerX : Q;
  speed : Q;
  roadOffset : Q;
  score : Z;
  distance : Q;
  boost : Q;
  isBoosting : bool;
  entities : list Entity.t;
  particles : list Particle.t;
  lastTime : Q;
  entityIdCounter : Z;
  bgOffset : Q
}.

(** [useRef({...})]: the value [stateRef.current] has when the component
    mounts. *)
Definition initialState : State :=
  mkState 0 0 0 0%Z 0 0 false [] [] 0 0%Z 0.

(** Assignments to one field of the state. *)
Definition set_playerX (v : Q) (s : State) : State :=
  mkState v (speed s) (roadOffset s) (score s) (distance s) (boost s)
    (isBoosting s) (entities s) (particles s) (lastTime s) (entityIdCounter s)
    (bgOffset s).
Definition set_speed (v : Q) (s : State) : State :=
  mkState (playerX s) v (roadOffset s) (score s) (distance s) (boost s)
    (isBoosting s) (entities s) (particles s) (lastTime s) (entityIdCounter s)
    (bgOffset s).
Definition set_roadOffset (v : Q) (s : State) : State :=
  mkState (playerX s) (speed s) v (score s) (distance s) (boost s)
    (isBoosting s) (entities s) (particles s) (lastTime s) (entityIdCounter s)
    (bgOffset s).
Definition set_score (v : Z) (s : State) : State :=
  mkState (playerX s) (speed s) (roadOffset s) v (distance s) (boost s)
    (isBoosting s) (entities s) (particles s) (lastTime s) (entityIdCounter s)
    (bgOffset s).
Definition set_distance (v : Q) (s : State) : State :=
  mkState (playerX s) (speed s) (roadOffset s) (score s) v (boost s)
    (isBoosting s) (entities s) (particles s) (lastTime s) (entityIdCounter s)
    (bgOffset s).
Definition set_boost (v : Q) (s : State) : State :=
  mkState (playerX s) (speed s) (roadOffset s) (score s) (distance s) v
    (isBoosting s) (entities s) (particles s) (lastTime s) (entityIdCounter s)
    (bgOffset s).
Definition set_isBoosting (v : bool) (s : State) : State :=
  mkState (playerX s) (speed s) (roadOffset s) (score s) (distance s) (boost s)
    v (entities s) (particles s) (lastTime s) (entityIdCounter s)
    (bgOffset s).
Definition set_entities (v : list Entity.t) (s : State) : State :=
  mkState (playerX s) (speed s) (roadOffset s) (score s) (distance s) (boost s)
    (isBoosting s) v (particles s) (lastTime s) (entityIdCounter s)
    (bgOffset s).
Definition set_particles (v : list Particle.t) (s : State) : State :=
  mkState (playerX s) (speed s) (roadOffset s) (score s) (distance s) (boost s)
    (isBoosting s) (entities s) v (lastTime s) (entityIdCounter s)
    (bgOffset s).
Definition set_lastTime (v : Q) (s : State) : State :=
  mkState (playerX s) (speed s) (roadOffset s) (score s) (distance s) (boost s)
    (isBoosting s) (entities s) (particles s) v (entityIdCounter s)
    (bgOffset s).
Definition set_entityIdCounter (v : Z) (s : State) : State :=
  mkState (playerX s) (speed s) (roadOffset s) (score s) (distance s) (boost s)
    (isBoosting s) (entities s) (particles s) (lastTime s) v
    (bgOffset s).
Definition set_bgOffset (v : Q) (s : State) : State :=
  mkState (playerX s) (speed s) (roadOffset s) (score s) (distance s) (boost s)
    (isBoosting s) (entities s) (particles s) (lastTime s) (entityIdCounter s)
    v.

(** ** Effects of a frame *)

Module Sound.
Inductive t : Set := collect | crash | boost | start.
End Sound.

(** What a frame does to the outside: the calls of [playSound] and of the
    [onGameOver] prop, in the order they are made. *)
Inductive Event : Set :=
| PlaySound (s : Sound.t)
| GameOver (finalScore : Z).

(** The state a frame threads: the game state, the number of [Math.random()]
    calls made so far in this frame, and the calls made to the outside
    (latest first). *)
Record World : Set := mkWorld {
  st : State;
  rand : nat;
  log : list Event
}.

Definition with_st (f : State -> State) (wd : World) : World :=
  mkWorld (f (st wd)) (rand wd) (log wd).

Definition emit (e : Event) (wd : World) : World :=
  mkWorld (st wd) (rand wd) (e :: log wd).

(** The canvas the frame draws on: [canvas.width] and [canvas.height]. *)
Record Canvas : Set := mkCanvas { width : Q; height : Q }.

(** ** Constants of the effect body *)

Definition ROAD_WIDTH_PCT : Q := 0.5.
Definition CAR_WIDTH : Q := 50.
Definition CAR_HEIGHT : Q := 80.

Section Geometry.
Variable cv : Canvas.

Let w := width cv.
Let h := height cv.

Definition centerX : Q := w / 2.
Definition horizonY : Q := h * 0.35.
Definition roadBottomW : Q := w * 0.9.
Definition roadTopW : Q := w * 0.1.

(** [progress] of a screen row, as both the entity loop and the entity
    drawing compute it.  On a canvas of height 0 the code divides by zero
    and gets a [NaN] or an infinity where [Q] gives 0: what is proved by
    way of [progressOf] is stated for canvases at least one pixel high. *)
Definition progressOf (ey : Q) : Q := (ey - horizonY) / (h - horizonY).

(** *** Collision testing (lines 240-244) *)

Definition roadWAtPlayer : Q := w * ROAD_WIDTH_PCT.
(** [entScreenX] and [playerScreenX] of the collision test: both are
    [centerX + lateral * (roadWAtPlayer / 2)]. *)
Definition entScreenX (lateral : Q) : Q := centerX + lateral * (roadWAtPlayer / 2).
Definition hitDist : Q := CAR_WIDTH * 0.8.

(** *** Drawing (lines 431-434 and 471-473) *)

Definition roadW (progress : Q) : Q :=
  roadTopW * 2 + (roadBottomW * 0.6 * 2 - roadTopW * 2) * progress.
Definition screenX (lateral progress : Q) : Q :=
  centerX + lateral * (roadW progress / 2).
Definition drawScale (progress : Q) : Q := 0.5 + progress * 2.5.
Definition playerScreenY : Q := h - 100.
Definition playerRoadW : Q := roadW (progressOf playerScreenY).
Definition drawnPlayerScreenX (lateral : Q) : Q :=
  centerX + lateral * (playerRoadW / 2).
End Geometry.

(** ** One frame: [gameLoop] *)

Section Frame.

(** [random k] is what the [k]-th call of [Math.random()] in this frame
    returns (counting from 0). *)
Variable random : nat -> Q.
Variable cv : Canvas.

Let w := width cv.
Let h := height cv.

Definition Math_random (wd : World) : Q * World :=
  (random (rand wd), mkWorld (st wd) (S (rand wd)) (log wd)).

Definition playSound (t : Sound.t) (wd : World) : World := emit (PlaySound t) wd.

Definition onGameOver (sc : Z) (wd : World) : World := emit (GameOver sc) wd.

Definition push_particle (p : Particle.t) (s : State) : State :=
  set_particles (particles s ++ [p]) s.

Definition push_entity (e : Entity.t) (s : State) : State :=
  set_entities (entities s ++ [e]) s.

(** [createExplosion]: [n] more turns of its [for] loop (it is entered with
    [n = 20]); each turn draws [vx], [vy] and [size] in this order. *)
Fixpoint explosionLoop (n : nat) (ex ey : Q) (col : string) (wd : World) : World :=
  match n with
  | O => wd
  | S n' =>
      let (r1, wd1) := Math_random wd in
      let (r2, wd2) := Math_random wd1 in
      let (r3, wd3) := Math_random wd2 in
      let p := Particle.mk ex ey ((r1 - 0.5) * 400) ((r2 - 0.5) * 400)
                 1.0 1.0 col (r3 * 5 + 2) in
      explosionLoop n' ex ey col (with_st (push_particle p) wd3)
  end.

Definition createExplosion (ex ey : Q) (col : string) (wd : World) : World :=
  explosionLoop 20 ex ey col wd.

(** *** Time step (lines 118-120) *)

Definition stampFirst (timestamp : Q) (s : State) : State :=
  if Qeq_bool (lastTime s) 0 then set_lastTime timestamp s else s.

Definition frameDt (timestamp : Q) (s : State) : Q :=
  Qmin ((timestamp - lastTime (stampFirst timestamp s)) / 1000) 0.1.

(** *** Physics constants (lines 138-141) *)

Definition steeringSensitivity : Q := 1.8.
Definition acceleration : Q := 0.8.
Definition friction : Q := 0.3.

(** *** Boost logic (lines 141-165); returns [maxSpeed] *)

Definition boostLogic (dt : Q) (wd : World) : Q * World :=
  if isBoosting (st wd) then
    let wd1 := with_st (fun s => set_boost (boost s - 20 * dt) s) wd in
    let wd2 :=
      if Qle_bool (boost (st wd1)) 0
      then with_st (fun s => set_isBoosting false (set_boost 0 s)) wd1
      else wd1 in
    let (r, wd3) := Math_random wd2 in
    let wd4 :=
      if Qltb 0.5 r then
        let px := centerX cv + playerX (st wd3) * (w * ROAD_WIDTH_PCT / 2) in
        let (r1, wd31) := Math_random wd3 in
        let (r2, wd32) := Math_random wd31 in
        with_st (push_particle
                   (Particle.mk (px + (r1 - 0.5) * 30) (h - 20)
                      ((r2 - 0.5) * 50) 200 0.5 0.5 "#00ffff" 3)) wd32
      else wd3 in
    (2.5, wd4)
  else (1.5, wd).

(** *** Speed update (lines 167-174)

    The sum is exact here and rounded to the nearest double in the code,
    which can hold 0.05000000000000002 where the sum is 0.05 here. *)

Definition speedUpdate (thr dt maxSpeed : Q) (s : State) : State :=
  let s1 :=
    if Qltb 0.1 thr || isBoosting s then
      let targetThrottle := if isBoosting s then 1.0 else thr in
      set_speed (speed s + targetThrottle * acceleration * dt) s
    else set_speed (speed s - friction * dt) s in
  set_speed (Qmax 0 (Qmin maxSpeed (speed s1))) s1.

(** *** Player X update (lines 176-180)

    For a speed within rounding of 0.05 the test can come out differently
    in the code, and a steering value close to the largest double makes
    the product overflow in the code ([Binary64.playerXUpdate]), which no
    rational does: what is proved of [playerX] is stated with a margin
    around 0.05 and for control values of magnitude up to 1e300. *)

Definition playerXUpdate (steer dt : Q) (s : State) : State :=
  if Qltb 0.05 (speed s) then
    let s1 := set_playerX (playerX s + steer * steeringSensitivity * dt) s in
    set_playerX (Qmax (-1.2) (Qmin 1.2 (playerX s1))) s1
  else s.

(** *** World movement (lines 182-187)

    [Math.floor] is taken of a rounded product in the code and of the exact
    one here: the two differ by 1 when the product is within rounding of a
    whole number, so what is proved of the score a frame adds bounds it on
    both sides of the product. *)

Definition speedMultiplierOf (s : State) : Q :=
  if isBoosting s then 1500 else 1000.

Definition worldMovement (steer dt : Q) (s : State) : State :=
  let speedMultiplier := speedMultiplierOf s in
  let s1 := set_roadOffset (roadOffset s + speed s * speedMultiplier * dt) s in
  let s2 := set_bgOffset (bgOffset s1 + steer * speed s1 * 50 * dt) s1 in
  let s3 := set_distance (distance s2 + speed s2 * dt) s2 in
  set_score
    (score s3 + Qfloor (speed s3 * 10 * (if isBoosting s3 then 2 else 1)))%Z s3.

(** *** Spawning (lines 189-210) *)

Definition spawnObstacle (wd : World) : World :=
  let difficultyMultiplier := 1 + distance (st wd) / 500 in
  let (r, wd1) := Math_random wd in
  if Qltb r (0.02 * speed (st wd1) * difficultyMultiplier) then
    let i := entityIdCounter (st wd1) in
    let wd2 := with_st (set_entityIdCounter (i + 1)%Z) wd1 in
    let (rx, wd3) := Math_random wd2 in
    let (rt, wd4) := Math_random wd3 in
    with_st (push_entity
               (Entity.mk i ((rx * 2 - 1) * 0.9) (horizonY cv)
                  (if Qltb 0.7 rt then oil else rock) true)) wd4
  else wd1.

Definition spawnOrb (wd : World) : World :=
  let (r, wd1) := Math_random wd in
  if Qltb r 0.008 then
    let i := entityIdCounter (st wd1) in
    let wd2 := with_st (set_entityIdCounter (i + 1)%Z) wd1 in
    let (rx, wd3) := Math_random wd2 in
    with_st (push_entity
               (Entity.mk i ((rx * 2 - 1) * 0.9) (horizonY cv) orb true)) wd3
  else wd1.

(** *** Collision logic (lines 246-272), for an entity in the depth band

    The entity object is mutated in place, so the entity comes back with the
    world. *)

Definition collide (ent : Entity.t) (wd : World) : World * Entity.t :=
  let eX := entScreenX cv (Entity.x ent) in
  let pX := entScreenX cv (playerX (st wd)) in
  if Qltb (Qabs (eX - pX)) hitDist then
    match Entity.type ent with
    | orb =>
        let ent1 := Entity.set_active false ent in
        let wd1 := with_st (fun s => set_boost (Qmin 100 (boost s + 25)) s) wd in
        let wd2 := with_st (fun s => set_score (score s + 500)%Z s) wd1 in
        let wd3 := playSound Sound.collect wd2 in
        let wd4 := createExplosion eX (Entity.y ent1) "#00ffff" wd3 in
        let wd5 :=
          if Qle_bool 100 (boost (st wd4)) && negb (isBoosting (st wd4)) then
            playSound Sound.boost
              (with_st (fun s => set_boost 100 (set_isBoosting true s)) wd4)
          else wd4 in
        (wd5, ent1)
    | _ =>
        if negb (isBoosting (st wd)) then
          let wd1 := playSound Sound.crash wd in
          let wd2 := createExplosion pX (h - 100) "#ffaa00" wd1 in
          (onGameOver (score (st wd2)) wd2, ent)
        else
          let ent1 := Entity.set_active false ent in
          let wd1 := with_st (fun s => set_score (score s + 100)%Z s) wd in
          let wd2 := createExplosion eX (Entity.y ent1) "#ffffff" wd1 in
          (playSound Sound.collect wd2, ent1)
    end
  else (wd, ent).

(** *** One turn of the entity loop (lines 224-277)

    [None] when the turn ends in [splice(i, 1)]. *)

Definition entityStep (dt speedMultiplier : Q) (ent : Entity.t) (wd : World)
  : World * option Entity.t :=
  let progress := progressOf cv (Entity.y ent) in
  let moveSpeed := speed (st wd) * speedMultiplier * dt * (0.1 + progress * 2) in
  let ent1 := Entity.set_y (Entity.y ent + moveSpeed) ent in
  let (wd1, ent2) :=
    if Qltb (h - 150) (Entity.y ent1) && Qltb (Entity.y ent1) (h + 50)
       && Entity.active ent1
    then collide ent1 wd
    else (wd, ent1) in
  if Qltb (h + 100) (Entity.y ent2) || negb (Entity.active ent2)
  then (wd1, None)
  else (wd1, Some ent2).

(** The loop runs from the last index down to 0, and removing index [i]
    leaves the lower indices in place: the last entity is handled first and
    the survivors keep their order. *)
Fixpoint entityLoop (dt speedMultiplier : Q) (ents : list Entity.t) (wd : World)
  : World * list Entity.t :=
  match ents with
  | [] => (wd, [])
  | ent :: rest =>
      let (wd1, rest') := entityLoop dt speedMultiplier rest wd in
      let (wd2, r) := entityStep dt speedMultiplier ent wd1 in
      (wd2, match r with Some e => e :: rest' | None => rest' end)
  end.

Definition entityUpdates (dt speedMultiplier : Q) (wd : World) : World :=
  let (wd1, ents) := entityLoop dt speedMultiplier (entities (st wd)) wd in
  with_st (set_entities ents) wd1.

(** *** Particle updates (lines 280-287) *)

Definition ageParticle (dt : Q) (p : Particle.t) : Particle.t :=
  Particle.mk (Particle.x p + Particle.vx p * dt)
    (Particle.y p + Particle.vy p * dt)
    (Particle.vx p) (Particle.vy p) (Particle.life p - dt)
    (Particle.maxLife p) (Particle.color p) (Particle.size p).

Definition expired (p : Particle.t) : bool := Qle_bool (Particle.life p) 0.

Definition particleUpdates (dt : Q) (s : State) : State :=
  set_particles
    (filter (fun p => negb (expired p)) (map (ageParticle dt) (particles s))) s.

(** *** The update block, entered only when [gameState === PLAYING] *)

Definition update (controlState : ControlState) (dt : Q) (wd : World) : World :=
  let steer := steering controlState in
  let thr := throttle controlState in
  let (maxSpeed, wd1) := boostLogic dt wd in
  let wd2 := with_st (speedUpdate thr dt maxSpeed) wd1 in
  let wd3 := with_st (playerXUpdate steer dt) wd2 in
  let speedMultiplier := speedMultiplierOf (st wd3) in
  let wd4 := with_st (worldMovement steer dt) wd3 in
  let wd5 := spawnObstacle wd4 in
  let wd6 := spawnOrb wd5 in
  let wd7 := entityUpdates dt speedMultiplier wd6 in
  with_st (particleUpdates dt) wd7.

End Frame.

(** ** The render pass (lines 290-559)

    The drawing calls are recorded as a display list.  The sky, the sun, the
    grid and the road (steps 1-4) read only [bgOffset], [roadOffset] and
    [isBoosting] of the state and are recorded as one item.

    The canvas calls [arc] and [ellipse] throw an [IndexSizeError] when a
    radius is negative.  The radii of the sun and of the car are constants;
    those of an entity are multiples of its [scale], which is negative for
    an entity far enough above the horizon row, as a smaller canvas leaves
    it.  The exception leaves [gameLoop]: what follows in the render pass is
    not drawn and [requestAnimationFrame(gameLoop)] of line 561 is not
    reached. *)

Inductive Draw : Set :=
| DrawBackdrop (bgOff roadOff : Q) (boosting : bool)
| DrawEntity (t : EntityType) (sx sy scale : Q)
| DrawPlayer (sx sy rotation : Q) (boosting : bool)
| DrawParticle (px py psize alpha : Q) (col : string)
| DrawHud (boosting : bool) (fillW : Q) (sc : Z) (displaySpeed : Z).

Section Render.
Variable cv : Canvas.

(** What the drawing of an entity records when none of its calls throws
    (see [drawingThrows] below). *)
Definition drawEntity (ent : Entity.t) : Draw :=
  let progress := progressOf cv (Entity.y ent) in
  DrawEntity (Entity.type ent) (screenX cv (Entity.x ent) progress)
    (Entity.y ent) (drawScale progress).

Definition drawParticle (p : Particle.t) : Draw :=
  DrawParticle (Particle.x p) (Particle.y p) (Particle.size p)
    (Particle.life p / Particle.maxLife p) (Particle.color p).

Definition drawHud (s : State) : Draw :=
  let barW := 200 in
  DrawHud (isBoosting s) (boost s / 100 * barW) (score s)
    (Qfloor (speed s * 180)).

(** The radius of the first [arc] or [ellipse] call made for an entity
    (lines 441, 452 and 460): [10 * scale] for an orb, [15 * scale] for a
    rock, [20 * scale] for an oil slick. *)
Definition firstRadius (ent : Entity.t) : Q :=
  (match Entity.type ent with orb => 10 | rock => 15 | oil => 20 end)
  * drawScale (progressOf cv (Entity.y ent)).

(** The call throws when its radius is negative. *)
Definition drawingThrows (ent : Entity.t) : bool := Qltb (firstRadius ent) 0.

(** [state.entities.forEach] of step 5: the entities drawn, and whether the
    loop came to its end.  The loop stops at the first entity whose drawing
    throws. *)
Fixpoint drawEntities (ents : list Entity.t) : list Draw * bool :=
  match ents with
  | [] => ([], true)
  | ent :: rest =>
      if drawingThrows ent then ([], false)
      else let (ds, ok) := drawEntities rest in (drawEntity ent :: ds, ok)
  end.

(** What follows the entities when they are all drawn: the player, the
    particles and, in the PLAYING phase, the HUD. *)
Definition drawRest (gameState : GameState) (controlState : ControlState)
  (s : State) : list Draw :=
  [DrawPlayer (drawnPlayerScreenX cv (playerX s)) (playerScreenY cv)
     (steering controlState * 0.3) (isBoosting s)]
  ++ map drawParticle (particles s)
  ++ (if GameState_eqb gameState PLAYING then [drawHud s] else []).

(** The render pass: what was drawn, and whether the pass came to its
    end. *)
Definition render (gameState : GameState) (controlState : ControlState)
  (s : State) : list Draw * bool :=
  let (ds, ok) := drawEntities (entities s) in
  ([DrawBackdrop (bgOffset s) (roadOffset s) (isBoosting s)]
   ++ ds
   ++ (if ok then drawRest gameState controlState s else []),
   ok).

End Render.

(** ** [gameLoop]: one animation frame *)

(** What a frame leaves behind: the state, the calls made to the outside in
    the order they were made, the display list, and whether the frame came
    to [requestAnimationFrame(gameLoop)], which asks for the next one. *)
Record FrameResult : Set := mkFrame {
  state_of : State;
  events_of : list Event;
  drawn_of : list Draw;
  requested_of : bool
}.

Definition gameLoop (random : nat -> Q) (cv : Canvas) (gameState : GameState)
  (controlState : ControlState) (timestamp : Q) (s : State) : FrameResult :=
  let s1 := stampFirst timestamp s in
  let dt := Qmin ((timestamp - lastTime s1) / 1000) 0.1 in
  let s2 := set_lastTime timestamp s1 in
  let wd0 := mkWorld s2 O [] in
  let wd :=
    if GameState_eqb gameState PLAYING
    then update random cv controlState dt wd0
    else wd0 in
  let pass := render cv gameState controlState (st wd) in
  mkFrame (st wd) (rev (log wd)) (fst pass) (snd pass).

(** ** The session handlers of [App.tsx] *)

Module App.
Record t : Set := mk {
  gameState : GameState;
  lastScore : Z;
  controlState : ControlState
}.

Definition initial : t := mk MENU 0%Z (mkControl 0 0 false).

Definition handleControlUpdate (newControl : ControlState) (a : t) : t :=
  mk (gameState a) (lastScore a) newControl.

Definition handleGameOver (sc : Z) (a : t) : t :=
  mk GAME_OVER sc (controlState a).

Definition startGame (a : t) : t :=
  mk PLAYING (lastScore a) (controlState a).
End App.

(** The mounted page: the state of [App] and the [stateRef] of the
    [RacingGame] it renders.  [RacingGame] is rendered in every phase, so its
    ref lives as long as the page. *)
Record Page : Set := mkPage {
  app : App.t;
  stateRef : State
}.

Definition mount : Page := mkPage App.initial initialState.

(** A click on START RACE or TRY AGAIN. *)
Definition clickStart (p : Page) : Page :=
  mkPage (App.startGame (app p)) (stateRef p).

(** The calls of [onGameOver] a frame made reach [handleGameOver] in order. *)
Fixpoint deliver (evs : list Event) (a : App.t) : App.t :=
  match evs with
  | [] => a
  | GameOver sc :: rest => deliver rest (App.handleGameOver sc a)
  | PlaySound _ :: rest => deliver rest a
  end.

(** One animation frame of the page: [gameLoop] runs to its end with the
    props of the last render (the closure of the effect holds them), then
    the state updates it asked for are applied, before the next frame. *)
Definition pageFrame (random : nat -> Q) (cv : Canvas) (timestamp : Q)
  (p : Page) : Page :=
  let r := gameLoop random cv (App.gameState (app p))
             (App.controlState (app p)) timestamp (stateRef p) in
  mkPage (deliver (events_of r) (app p)) (state_of r).

(** ** Binary64: the kinematics on IEEE doubles

    The speed update (lines 167-174) and the player X update (lines 176-180)
    once more, on JavaScript's own numbers, to follow values that no
    rational stands for.  The state is passed field by field. *)

Module Binary64.
Local Open Scope float_scope.

Definition isNaN (a : float) : bool := negb (PrimFloat.eqb a a).

Definition isNegZero (a : float) : bool :=
  PrimFloat.eqb a 0 && PrimFloat.ltb (1 / a) 0.

(** [Math.max] and [Math.min]: [NaN] when an argument is [NaN]; [+0] counts
    as larger than [-0]. *)
Definition Math_max (a b : float) : float :=
  if isNaN a || isNaN b then nan
  else if PrimFloat.ltb a b then b
  else if PrimFloat.ltb b a then a
  else if isNegZero a then b else a.

Definition Math_min (a b : float) : float :=
  if isNaN a || isNaN b then nan
  else if PrimFloat.ltb b a then b
  else if PrimFloat.ltb a b then a
  else if isNegZero a then a else b.

Definition speedUpdate (thr dt maxSpeed : float) (boosting : bool)
  (speed0 : float) : float :=
  let speed1 :=
    if PrimFloat.ltb 0.1 thr || boosting then
      let targetThrottle := if boosting then 1 else thr in
      speed0 + targetThrottle * 0.8 * dt
    else speed0 - 0.3 * dt in
  Math_max 0 (Math_min maxSpeed speed1).

Definition playerXUpdate (steer dt speed0 playerX0 : float) : float :=
  if PrimFloat.ltb 0.05 speed0 then
    let playerX1 := playerX0 + steer * 1.8 * dt in
    Math_max (-1.2) (Math_min 1.2 playerX1)
  else playerX0.
End Binary64.

(** ** The producers of the control values

    The last steps of [calculateSteering] and [calculateThrottle], after the
    calls of [Math.atan2] and [Math.sqrt]: from the angle between the hands,
    in degrees, and from the distance between the tips of thumb and index. *)

Definition steeringFromDegrees (degrees : Q) : Q :=
  let maxAngle := 45 in
  let clamped := Qmax (- maxAngle) (Qmin maxAngle degrees) in
  clamped / maxAngle.

Definition throttleFromDist (dist : Q) : Q :=
  let minPinch := 0.03 in
  let maxPinch := 0.15 in
  let thr := 1 - ((dist - minPinch) / (maxPinch - minPinch)) in
  Qmax 0 (Qmin 1 thr).

(** ** The gesture service and the control message of [WebcamController]

    [calculateSteering] and [calculateThrottle] in full, and the part of
    [renderLoop] that builds the argument of [onControlUpdate] from the
    result of [processVideoFrame]. *)

(** A [NormalizedLandmark]; its [z] is not read. *)
Module Landmark.
Record t : Set := mk { x : Q; y : Q }.
End Landmark.

(** A hand as the landmarker reports it: its landmarks, by index. *)
Definition Hand : Set := list Landmark.t.

(** The argument of [onControlUpdate]: the [ControlState] of [types.ts],
    with the two fields only the page shows. *)
Record ControlUpdate : Set := mkUpdate {
  control : ControlState;
  handsDetected : nat;
  debugMessage : string
}.

(** The drawing of the speedometer, as far as it depends on the
    throttle. *)
Record Speedometer : Set := mkSpeedometer {
  startAngle : Q;
  endAngle : Q;
  hue : Q;
  percent : Z
}.

Section Gesture.

(** [Math.atan2], [Math.PI] and [Math.sqrt] have no rational values: the
    model is given them. *)
Variable Math_atan2 : Q -> Q -> Q.
Variable Math_PI : Q.
Variable Math_sqrt : Q -> Q.

Definition calculateSteering (leftHand rightHand : Hand) : Q :=
  match nth_error leftHand 9, nth_error rightHand 9 with
  | Some leftPoint, Some rightPoint =>
      let dy := Landmark.y rightPoint - Landmark.y leftPoint in
      let dx := Landmark.x rightPoint - Landmark.x leftPoint in
      let angle := Math_atan2 dy dx in
      let degrees := angle * (180 / Math_PI) in
      steeringFromDegrees degrees
  | _, _ => 0
  end.

Definition calculateThrottle (hand : Hand) : Q :=
  match nth_error hand 4, nth_error hand 8 with
  | Some thumbTip, Some indexTip =>
      let dist :=
        Math_sqrt ((Landmark.x thumbTip - Landmark.x indexTip) ^ 2
                   + (Landmark.y thumbTip - Landmark.y indexTip) ^ 2) in
      throttleFromDist dist
  | _, _ => 0
  end.

(** [[...results.landmarks].sort((a, b) => a[9].x - b[9].x)] on two hands:
    the hand with the lower [x] at landmark 9 comes first, and two hands
    with the same [x] keep their order.  [None] when a hand has no landmark
    9, where the comparator throws. *)
Definition sortedHands (a b : Hand) : option (Hand * Hand) :=
  match nth_error a 9, nth_error b 9 with
  | Some pa, Some pb =>
      if Qltb 0 (Landmark.x pa - Landmark.x pb) then Some (b, a)
      else Some (a, b)
  | _, _ => None
  end.

(** What [renderLoop] passes to [onControlUpdate] for one video frame;
    [results] is [None] when [processVideoFrame] returns [null]. *)
Definition renderLoop (results : option (list Hand)) : option ControlUpdate :=
  let found :=
    match results with
    | Some landmarks =>
        match landmarks with
        | [a; b] =>
            match sortedHands a b with
            | Some (rightHandRaw, leftHandRaw) =>
                Some (calculateSteering leftHandRaw rightHandRaw,
                      calculateThrottle rightHandRaw,
                      2%nat, "Drive Mode"%string)
            | None => None
            end
        | [_] => Some (0, 0, 1%nat, "Need 2 Hands"%string)
        | _ => Some (0, 0, List.length landmarks, "Show Hands"%string)
        end
    | None => Some (0, 0, O, "Show Hands"%string)
    end in
  match found with
  | Some (steer, thr, hands, debugMsg) =>
      Some (mkUpdate (mkControl steer thr (Nat.eqb hands 2)) hands debugMsg)
  | None => None
  end.

(** What [drawSpeedometer] (of the later of the two versions of the
    component) draws from the throttle: the gauge arc, from [startAngle] to
    [endAngle]; the hue of its colour; and the number in front of the
    percent sign. *)
Definition drawSpeedometer (thr : Q) : Speedometer :=
  let startAngle := Math_PI * 0.75 in
  let totalAngle := Math_PI * 1.5 in
  let endAngle := startAngle + totalAngle * thr in
  mkSpeedometer startAngle endAngle (180 - thr * 180) (Qfloor (thr * 100)).

(** The speedometer [renderLoop] draws for one video frame: none unless two
    hands were found. *)
Definition renderLoopSpeedometer (results : option (list Hand))
  : option Speedometer :=
  match renderLoop results with
  | Some u =>
      if Nat.eqb (handsDetected u) 2
      then Some (drawSpeedometer (throttle (control u)))
      else None
  | None => None
  end.

End Gesture.

(** ** What the page shows of the controls ([App.tsx])

    The [left] of the steering marker and the [width] of the throttle bar,
    in percent; the direction indicator, when it is rendered; and the
    [disabled] attribute of START RACE. *)

Definition steeringMarkerLeft (a : App.t) : Q :=
  (steering (App.controlState a) + 1) * 50.

Definition throttleBarWidth (a : App.t) : Q :=
  throttle (App.controlState a) * 100.

Definition directionIndicator (a : App.t) : option string :=
  if GameState_eqb (App.gameState a) PLAYING
     && Qltb 0.3 (Qabs (steering (App.controlState a)))
  then Some (if Qltb (steering (App.controlState a)) 0
             then "<< LEFT" else "RIGHT >>")%string
  else None.

Definition startDisabled (a : App.t) : bool :=
  negb (isTracking (App.controlState a)).

(** ** Vocabulary of the properties *)

(** The projection as section 4.1 of the specification words it: the half
    width of the road is [0.9 * 0.6] of the viewport width at the near plane
    and [0.1] of it at the horizon, it is interpolated linearly by
    [depthProgress], and [screenX] is the centre plus [lateral] times half
    the width at that depth. *)
Definition project_spec_halfWidth (cv : Canvas) (depthProgress : Q) : Q :=
  let atHorizon := 0.1 * width cv in
  let atNearPlane := 0.9 * 0.6 * width cv in
  atHorizon + (atNearPlane - atHorizon) * depthProgress.

Definition project_spec_screenX (cv : Canvas) (lateral depthProgress : Q) : Q :=
  width cv / 2 + lateral * (2 * project_spec_halfWidth cv depthProgress / 2).

(** The horizontal test of the collision logic.  At the edge of the reach,
    for a distance within rounding of the 40 pixels, the comparison can
    come out differently on the doubles of the code. *)
Definition hits (cv : Canvas) (ent : Entity.t) (s : State) : bool :=
  Qltb (Qabs (entScreenX cv (Entity.x ent) - entScreenX cv (playerX s))) hitDist.

(** [maxSpeed] as the boost logic leaves it: decided by [isBoosting] as it
    is when the block is entered. *)
Definition maxSpeedOf (s : State) : Q := if isBoosting s then 2.5 else 1.5.

(** The state part of the boost logic: the drain and the end of the boost. *)
Definition drained (dt : Q) (s : State) : State :=
  if isBoosting s then
    if Qle_bool (boost s - 20 * dt) 0
    then set_isBoosting false (set_boost 0 (set_boost (boost s - 20 * dt) s))
    else set_boost (boost s - 20 * dt) s
  else s.

(** The three pure steps between the boost logic and the spawning. *)
Definition kinematics (ctl : ControlState) (dt maxSpeed : Q) (s : State)
  : State :=
  worldMovement (steering ctl) dt
    (playerXUpdate (steering ctl) dt
       (speedUpdate (throttle ctl) dt maxSpeed s)).

(** A particle the particle loop keeps. *)
Definition alive (p : Particle.t) : bool := negb (expired p).

(** The state a frame works on once the clock is read. *)
Definition stamped (timestamp : Q) (s : State) : State :=
  set_lastTime timestamp (stampFirst timestamp s).

(** [grown s s']: [s'] is [s] with particles pushed at the end of
    [particles]. *)
Definition grown (s s' : State) : Prop :=
  exists ps, s' = set_particles (particles s ++ ps) s.

(** What the entity loop may change: only [score] (upwards), [boost]
    (inside its range), [isBoosting] and [particles] (at the end). *)
Definition steady (s s' : State) : Prop :=
  playerX s' = playerX s /\ speed s' = speed s /\
  roadOffset s' = roadOffset s /\ distance s' = distance s /\
  lastTime s' = lastTime s /\ bgOffset s' = bgOffset s /\
  entityIdCounter s' = entityIdCounter s /\ entities s' = entities s /\
  (score s <= score s')%Z /\
  (0 <= boost s <= 100 -> 0 <= boost s' <= 100) /\
  (exists ps, particles s' = particles s ++ ps).

(** The three ranges, with a bound [m] on the speed. *)
Definition within (m : Q) (s : State) : Prop :=
  0 <= speed s <= m /\ 0 <= boost s <= 100 /\ -1.2 <= playerX s <= 1.2.

(** The clamps as the specification words them: the speed bound is read off
    [isBoosting] of the state itself. *)
Definition clamps (s : State) : Prop := within (maxSpeedOf s) s.

(** The states a mounted game goes through: frame after frame, the clock
    never running backwards, with any phase, controls, canvas and random
    draws. *)
Inductive reachable : State -> Prop :=
| reach_mount : reachable initialState
| reach_frame (random : nat -> Q) (cv : Canvas) (gs : GameState)
    (ctl : ControlState) (timestamp : Q) (s : State) :
    reachable s -> lastTime s <= timestamp ->
    reachable (state_of (gameLoop random cv gs ctl timestamp s)).

(** What the outside supplies to one frame. *)
Record FrameInput : Type := mkInput {
  in_random : nat -> Q;
  in_canvas : Canvas;
  in_phase : GameState;
  in_control : ControlState;
  in_time : Q
}.

(** The state a frame leaves. *)
Definition frame (i : FrameInput) (s : State) : State :=
  state_of (gameLoop (in_random i) (in_canvas i) (in_phase i) (in_control i)
              (in_time i) s).

(** The frames of a list, first to last. *)
Fixpoint play (frames : list FrameInput) (s : State) : State :=
  match frames with
  | [] => s
  | i :: rest => play rest (frame i s)
  end.

(** The clock of a run never goes back. *)
Fixpoint clock_ok (frames : list FrameInput) (s : State) : bool :=
  match frames with
  | [] => true
  | i :: rest => Qle_bool (lastTime s) (in_time i) && clock_ok rest (frame i s)
  end.

(** Numbers of magnitude up to [huge] are far from the largest double
    (about 1.8e308): the sums and products the update forms of such control
    values are finite doubles. *)
Definition huge : Q := 1e300.

(** Control values of any size up to [huge], inside or outside the
    documented domains [-1, 1] and [0, 1]. *)
Definition boundedControl (ctl : ControlState) : Prop :=
  Qabs (steering ctl) <= huge /\ Qabs (throttle ctl) <= huge.

Definition boundedControlb (ctl : ControlState) : bool :=
  Qle_bool (Qabs (steering ctl)) huge && Qle_bool (Qabs (throttle ctl)) huge.

(** The states a mounted game goes through when every frame is given such
    control values. *)
Inductive driven : State -> Prop :=
| driven_mount : driven initialState
| driven_frame (random : nat -> Q) (cv : Canvas) (gs : GameState)
    (ctl : ControlState) (timestamp : Q) (s : State) :
    driven s -> boundedControl ctl -> lastTime s <= timestamp ->
    driven (state_of (gameLoop random cv gs ctl timestamp s)).

(** The control values of a run are of magnitude up to [huge]. *)
Definition controls_ok (frames : list FrameInput) : bool :=
  forallb (fun i => boundedControlb (in_control i)) frames.

(** A canvas of ordinary size: at least one pixel high, and at most 100000
    pixels high and wide. *)
Definition ordinaryCanvas (cv : Canvas) : Prop :=
  1 <= height cv <= 100000 /\ 0 <= width cv <= 100000.

(** An entity of ordinary size: on such a canvas what the drawing computes
    of it are finite doubles. *)
Definition ordinary (ent : Entity.t) : Prop :=
  Qabs (Entity.x ent) <= 2 /\ Qabs (Entity.y ent) <= 1000000.

(** An entity so far above the horizon row that its [progress] is -0.21 or
    less, and its [scale] -0.025 or less. *)
Definition aboveTheRoad (cv : Canvas) (ent : Entity.t) : Prop :=
  Entity.y ent <= horizonY cv - 0.21 * (height cv - horizonY cv).

(** The rows an entity of the list is on after a frame on a canvas that
    keeps its size: from the horizon row to 100 pixels below the bottom
    row. *)
Definition onScreen (cv : Canvas) (ent : Entity.t) : Prop :=
  horizonY cv <= Entity.y ent <= height cv + 100.

Definition onScreenb (cv : Canvas) (ent : Entity.t) : bool :=
  Qle_bool (horizonY cv) (Entity.y ent)
  && Qle_bool (Entity.y ent) (height cv + 100).

(** What is asked of a run that ends in a boost about to run out, and of the
    frame [i] after it, decided in one evaluation. *)
Definition boostEndChecks (frames : list FrameInput) (i : FrameInput) : bool :=
  let s := play frames initialState in
  let s' := frame i s in
  clock_ok frames initialState
  && isBoosting s && Qeq_bool (speed s) 2.5 && Qeq_bool (boost s) 2
  && Qle_bool (lastTime s) (in_time i)
  && negb (isBoosting s') && Qeq_bool (speed s') 2.5.

(** Every score [onGameOver] was called with lies between [lo] and the score
    of the moment. *)
Definition reportedFrom (lo : Z) (wd : World) : Prop :=
  (lo <= score (st wd))%Z /\
  forall sc, In (GameOver sc) (log wd) -> (lo <= sc <= score (st wd))%Z.

(** The scores [onGameOver] was called with, in call order. *)
Fixpoint gameOvers (evs : list Event) : list Z :=
  match evs with
  | [] => []
  | GameOver sc :: rest => sc :: gameOvers rest
  | PlaySound _ :: rest => gameOvers rest
  end.

(** The frames of a page, first to last, each with its draws and its time
    stamp, on one canvas. *)
Fixpoint pagePlay (cv : Canvas) (frames : list ((nat -> Q) * Q)) (p : Page)
  : Page :=
  match frames with
  | [] => p
  | (rnd, t) :: rest => pagePlay cv rest (pageFrame rnd cv t p)
  end.

(** An entity is an orb or an obstacle. *)
Definition EntityType_orb_dec (t : EntityType) : {t = orb} + {t <> orb}.
Proof. destruct t; [right | right | left]; congruence. Defined.

(** ** Vocabulary of the further properties *)

(** An entity after the move of one turn of the entity loop, with the car
    at speed [v]. *)
Definition moved (cv : Canvas) (v sm dt : Q) (e : Entity.t) : Entity.t :=
  Entity.set_y
    (Entity.y e + v * sm * dt * (0.1 + progressOf cv (Entity.y e) * 2)) e.

(** [kept f l l']: [l'] is [map f l] with some elements taken out. *)
Inductive kept (f : Entity.t -> Entity.t)
  : list Entity.t -> list Entity.t -> Prop :=
| kept_nil : kept f [] []
| kept_keep (e : Entity.t) (l l' : list Entity.t) :
    kept f l l' -> kept f (e :: l) (f e :: l')
| kept_drop (e : Entity.t) (l l' : list Entity.t) :
    kept f l l' -> kept f (e :: l) l'.

(** What a spawning step pushes: nothing, or one active entity on the
    horizon that takes the next identifier and whose lateral position is a
    draw [r], scaled to [(r * 2 - 1) * 0.9]. *)
Definition spawnedAt (random : nat -> Q) (cv : Canvas) (c : Z)
  (es : list Entity.t) : Prop :=
  es = [] \/
  exists k ty, es = [Entity.mk c ((random k * 2 - 1) * 0.9) (horizonY cv) ty true].

(** Whether a boost that is on when the frame begins is still on after the
    drain of the frame. *)
Definition boostLasts (dt : Q) (s : State) : bool :=
  isBoosting s && Qltb 0 (boost s - 20 * dt).

(** Whole numbers of magnitude up to 10^15 are doubles, and so are the
    whole numbers next to them: the code counts with them as [Z] does. *)
Definition counted (n : Z) : Prop := (Z.abs n <= 10 ^ 15)%Z.

(** The rows of the entities are of magnitude up to [huge]: the move of the
    entity loop keeps them among the finite doubles. *)
Definition plainRows (s : State) : Prop :=
  Forall (fun e => Qabs (Entity.y e) <= huge) (entities s).

Definition plainRowsb (s : State) : bool :=
  forallb (fun e => Qle_bool (Qabs (Entity.y e)) huge) (entities s).

(** The identifiers of a state are in order: the counter has not been
    handed out yet, and the entities carry smaller identifiers, each larger
    than the ones before it in the list. *)
Definition idsOK (s : State) : Prop :=
  (0 <= entityIdCounter s)%Z /\
  StronglySorted Z.lt (map Entity.id (entities s)) /\
  Forall (fun e => (0 <= Entity.id e < entityIdCounter s)%Z) (entities s).

(** The lateral positions the spawning steps hand out when the draws lie in
    [0, 1]. *)
Definition onRoad (e : Entity.t) : Prop := -0.9 <= Entity.x e <= 0.9.

(** Every draw of the frame lies in [0, 1], as those of [Math.random()]
    do. *)
Definition unitDraws (i : FrameInput) : Prop :=
  forall k, 0 <= in_random i k <= 1.

(** The gauge of the boost: during a boost it is above 0 and at most 100;
    outside a boost it stands at 0, 25, 50 or 75. *)
Definition boostOK (s : State) : Prop :=
  if isBoosting s then 0 < boost s <= 100
  else boost s == 0 \/ boost s == 25 \/ boost s == 50 \/ boost s == 75.

(** A particle that has some of its life left, and not more than it was
    made with. *)
Definition okParticle (p : Particle.t) : Prop :=
  0 < Particle.life p <= Particle.maxLife p.

(** Two worlds that agree on the gauge, on the boost flag and on the calls
    made to the outside. *)
Definition sameBoost (wd wd' : World) : Prop :=
  boost (st wd') = boost (st wd) /\
  isBoosting (st wd') = isBoosting (st wd) /\
  log wd' = log wd.



(** The score stands at [base] plus a number of hundreds, and when that
    number is not 0 the collect sound was called. *)
Definition bonusFrom (base : Z) (wd : World) : Prop :=
  exists k, (0 <= k)%Z /\ score (st wd) = (base + 100 * k)%Z /\
            (k <> 0%Z -> In (PlaySound Sound.collect) (log wd)).



(** ** Canvases, controls, random draws and states of the examples *)

(** A window of 1000 x 800 pixels: horizon on row 280, collision band from
    row 650 to row 850. *)
Definition sampleCanvas : Canvas := mkCanvas 1000 800.

(** A window 200 pixels high: the horizon (row 70) lies inside the collision
    band (rows 50 to 250), so an entity is tested in the frame that spawns
    it. *)
Definition lowCanvas : Canvas := mkCanvas 400 200.

(** Both hands tracked, wheel level, throttle pinched. *)
Definition fullThrottle : ControlState := mkControl 0 1 true.

(** Every draw of [Math.random()] is 0.5: no trail particle, and no spawn
    while [0.02 * speed * difficultyMultiplier <= 0.5]. *)
Definition half : nat -> Q := fun _ => 0.5.

(** The second draw of the frame is 0, the others 0.5: outside a boost, an
    orb is spawned on the centre line. *)
Definition orbDraw : nat -> Q := fun k => if Nat.eqb k 1 then 0 else 0.5.

(** The second draw of the frame is 0 and the third 7/9: outside a boost, an
    orb is spawned at lateral 0.5, out of reach of a car on the centre line
    of [lowCanvas]. *)
Definition sideOrbDraw : nat -> Q :=
  fun k => match k with 1%nat => 0 | 2%nat => 7 # 9 | _ => 0.5 end.

(** The first draw of the frame is 0 and the second 0.6: with the car
    moving, a rock is spawned at lateral 0.18. *)
Definition rockDraw : nat -> Q :=
  fun k => match k with 0%nat => 0 | 1%nat => 0.6 | _ => 0.5 end.

(** The first draw of the frame is 0, the others 0.5: with the car moving,
    a rock is spawned on the centre line. *)
Definition centreRockDraw : nat -> Q :=
  fun k => match k with 0%nat => 0 | _ => 0.5 end.

(** A PLAYING frame on [lowCanvas] at full throttle. *)
Definition timed (rnd : nat -> Q) (t : Q) : FrameInput :=
  mkInput rnd lowCanvas PLAYING fullThrottle t.

(** Frames 200 ms apart from [t] on, [n] of them. *)
Fixpoint every200 (rnd : nat -> Q) (n : nat) (t : Q) : list FrameInput :=
  match n with
  | O => []
  | S n' => timed rnd t :: every200 rnd n' (Qred (t + 200))
  end.

(** A rock near the right road edge, inside the collision band of
    [sampleCanvas] (650 < y < 850). *)
Definition edgeRock : Entity.t := Entity.mk 7 0.9 700 rock true.

(** An orb and a rock straight ahead of a car on the centre line. *)
Definition orbAhead : Entity.t := Entity.mk 4 0 700 orb true.

Definition rockAhead : Entity.t := Entity.mk 4 0 700 rock true.

(** A car on the centre line with a score of 100 and a boost charge of
    [b], at the start of a frame's effects. *)
Definition charged (b : Q) (boosting : bool) : World :=
  mkWorld (mkState 0 1 0 100%Z 5 b boosting [] [] 1000 5%Z 0) O [].

(** A boost about to run out: one unit of charge left, at full speed. *)
Definition boostEnding : State :=
  mkState 0 2.5 0 0%Z 0 1 true [] [] 1000 0%Z 0.

(** Twenty frames of full throttle, which bring the car to its top speed of
    1.5; four frames that each spawn and collect an orb, the last of which
    starts the boost; then 49 frames of boost, which leave 2 units of
    charge. *)
Definition boostRun : list FrameInput :=
  every200 half 20 200 ++ every200 orbDraw 4 4200 ++ every200 half 49 5000.

(** The last spark of an explosion, 50 ms from its end, in a game that is
    over. *)
Definition lastSpark : Particle.t :=
  Particle.mk 480 700 100 (-50) 0.05 1.0 "#ffaa00" 4.


(** Three entities in the collision band, straight ahead of a car that is
    not boosting: a rock, an orb and another rock behind it in the list. *)
Definition threeAhead : State :=
  mkState 0 1 0 100%Z 5 0 false
    [Entity.mk 1 0 700 rock true; Entity.mk 2 0 700 orb true;
     Entity.mk 3 0 700 rock true]
    [] 1000 4%Z 0.

(** A frame 16 ms later. *)
Definition frame16 : FrameResult :=
  gameLoop half sampleCanvas PLAYING fullThrottle 1016 threeAhead.

(** A game from the mount state: an orb is spawned to the right of the car,
    out of reach; the car starts moving; in the third frame the driver
    steers right, which brings the orb into reach, and a rock is spawned on
    the car's new line. *)
Definition crashRun : list FrameInput :=
  [mkInput sideOrbDraw lowCanvas PLAYING fullThrottle 200;
   mkInput half lowCanvas PLAYING fullThrottle 400].

Definition crashFrame : FrameResult :=
  gameLoop rockDraw lowCanvas PLAYING (mkControl 1 1 true) 600
    (play crashRun initialState).

(** A first game: both hands are tracked with the throttle pinched, START
    RACE is clicked, the car gathers speed for four frames and hits a rock
    in the fifth. *)
Definition firstGame : Page :=
  pagePlay lowCanvas
    [(half, 200); (half, 400); (half, 600); (half, 800);
     (centreRockDraw, 1000)]
    (clickStart
       (mkPage (App.handleControlUpdate fullThrottle (app mount))
          (stateRef mount))).

(** The car of [threeAhead] in the middle of a boost. *)
Definition boostedAhead : State :=
  set_isBoosting true (set_boost 50 threeAhead).


(** The first frame of a game in which an orb is spawned on the centre
    line: on [lowCanvas] it is collected at once, in an explosion. *)
Definition firstOrb : State := play [timed orbDraw 200] initialState.

(** Both hands tracked, wheel hard to the right, throttle pinched. *)
Definition hardRight : ControlState := mkControl 1 1 true.

(** Seven frames 200 ms apart with the wheel hard to the right and nothing
    spawned: the first stamps the clock, each of the others moves the car
    0.18 to the right, to 1.08. *)
Definition steerRun : list FrameInput :=
  map (mkInput half lowCanvas PLAYING hardRight)
    [200; 400; 600; 800; 1000; 1200; 1400].

(** Control values fifty times the largest of their domains. *)
Definition wildControl : ControlState := mkControl 50 50 true.

(** A window twice as high as [sampleCanvas]: the horizon is on row 560. *)
Definition tallCanvas : Canvas := mkCanvas 1000 1600.

(** A game at rest with an orb on the horizon row of [sampleCanvas]. *)
Definition orbOnHorizon : State :=
  mkState 0 0 0 0%Z 0 0 false [Entity.mk 0 0 280 orb true] [] 1000 1%Z 0.


(** Both hands tracked, wheel hard to the right, throttle released. *)
Definition handsOff : ControlState := mkControl 1 0 true.

(** A car that crawls at a speed of 0.04. *)
Definition crawling : State :=
  mkState 0 0.04 0 0%Z 0 0 false [] [] 1000 0%Z 0.

(** The state the frame in which the boost of [boostEnding] runs out
    leaves: the speed is 2.5 and the boost is off. *)
Definition boostEnded : State :=
  frame (mkInput half sampleCanvas PLAYING fullThrottle 1200) boostEnding.

(** The first and the fourth draw of the frame are 0, the others 0.5: with
    the car moving and outside a boost, a rock and then an orb are spawned
    on the centre line. *)
Definition bothDraw : nat -> Q :=
  fun k => match k with 0%nat | 3%nat => 0 | _ => 0.5 end.

(** A hand whose 21 landmarks all lie on one point. *)
Definition handAt (px py : Q) : Hand := repeat (Landmark.mk px py) 21.

(** A stand-in for [Math.atan2] that knows the quadrants only: 2 radians
    for a point left of the origin and not below it, -2 for a point
    left of the origin and below it, and 0 elsewhere; with it goes 3 as a
    stand-in for [Math.PI], and the identity for [Math.sqrt]. *)
Definition coarseAtan2 (dy dx : Q) : Q :=
  if Qltb dx 0 then (if Qltb dy 0 then -2 else 2) else 0.

(** ** Properties *)

Lemma Qltb_lt (a b : Q) : Qltb a b = true <-> a < b.
Proof.
  unfold Qltb. rewrite negb_true_iff.
  split; intro H.
  - apply Qnot_le_lt. intro Hle. apply Qle_bool_iff in Hle. congruence.
  - destruct (Qle_bool b a) eqn:E; [|reflexivity].
    apply Qle_bool_iff in E. exfalso. apply (Qlt_not_le a b); assumption.
Qed.

Lemma Qltb_ge (a b : Q) : Qltb a b = false <-> b <= a.
Proof.
  unfold Qltb. rewrite negb_false_iff. apply Qle_bool_iff.
Qed.

(** How far the drawn X is from the tested X. *)
Lemma screenX_gap (cv : Canvas) (lateral progress : Q) :
  screenX cv lateral progress - entScreenX cv lateral
  == lateral * width cv * (0.44 * progress - 0.15).
Proof.
  unfold screenX, entScreenX, roadW, roadWAtPlayer, roadTopW, roadBottomW,
    centerX, ROAD_WIDTH_PCT.
  field.
Qed.

(** *** What the stages of a frame change and what they leave alone *)

Lemma grown_refl (s : State) : grown s s.
Proof.
  exists []. destruct s; unfold set_particles; simpl.
  now rewrite app_nil_r.
Qed.

Lemma grown_push (s s' : State) (p : Particle.t) :
  grown s s' -> grown s (push_particle p s').
Proof.
  intros [ps ->]. exists (ps ++ [p]).
  unfold push_particle, set_particles; simpl. now rewrite app_assoc.
Qed.

Lemma grown_trans (a b c : State) : grown a b -> grown b c -> grown a c.
Proof.
  intros [ps ->] [qs ->]. exists (ps ++ qs).
  unfold set_particles; simpl. now rewrite app_assoc.
Qed.

(** An explosion pushes particles and does nothing else. *)
Lemma explosionLoop_spec (random : nat -> Q) (n : nat) (ex ey : Q)
  (col : string) (wd : World) :
  grown (st wd) (st (explosionLoop random n ex ey col wd))
  /\ log (explosionLoop random n ex ey col wd) = log wd.
Proof.
  revert wd. induction n as [|n IH]; intro wd.
  - split; [apply grown_refl | reflexivity].
  - cbn [explosionLoop Math_random].
    match goal with
    | |- context [explosionLoop random n ex ey col ?w] =>
        destruct (IH w) as [G L]
    end.
    split.
    + eapply grown_trans; [|exact G]. cbn [with_st st].
      apply grown_push, grown_refl.
    + rewrite L. reflexivity.
Qed.

Lemma createExplosion_spec (random : nat -> Q) (ex ey : Q) (col : string)
  (wd : World) :
  grown (st wd) (st (createExplosion random ex ey col wd))
  /\ log (createExplosion random ex ey col wd) = log wd.
Proof. unfold createExplosion. apply explosionLoop_spec. Qed.

(** The particles of an explosion, one by one: [n] turns push [n] particles
    at the centre of the explosion, with a life of 1.0 out of 1.0, and take
    three draws each. *)
Lemma explosionLoop_pushes (random : nat -> Q) (P : Particle.t -> Prop)
  (n : nat) (ex ey : Q) (col : string) (wd : World) :
  (forall k,
     P (Particle.mk ex ey ((random k - 0.5) * 400)
          ((random (S k) - 0.5) * 400) 1.0 1.0 col
          (random (S (S k)) * 5 + 2))) ->
  exists ps,
    List.length ps = n /\ Forall P ps /\
    explosionLoop random n ex ey col wd
    = mkWorld (set_particles (particles (st wd) ++ ps) (st wd))
        (rand wd + 3 * n) (log wd).
Proof.
  intro H. revert wd. induction n as [|n IH]; intro wd.
  - exists []. split; [reflexivity|]. split; [constructor|].
    cbn [explosionLoop]. rewrite app_nil_r, Nat.add_0_r.
    destruct wd as [s r l]; destruct s; reflexivity.
  - cbn [explosionLoop Math_random].
    match goal with
    | |- context [explosionLoop random n ex ey col ?w] =>
        destruct (IH w) as (ps & L & F & ->)
    end.
    cbn [st rand log with_st push_particle particles set_particles].
    exists (Particle.mk ex ey ((random (rand wd) - 0.5) * 400)
              ((random (S (rand wd)) - 0.5) * 400) 1.0 1.0 col
              (random (S (S (rand wd))) * 5 + 2) :: ps).
    split; [cbn [List.length]; now rewrite L|].
    split; [constructor; [apply H | exact F]|].
    rewrite <- app_assoc. cbn [app].
    f_equal. lia.
Qed.

Lemma createExplosion_pushes (random : nat -> Q) (P : Particle.t -> Prop)
  (ex ey : Q) (col : string) (wd : World) :
  (forall k,
     P (Particle.mk ex ey ((random k - 0.5) * 400)
          ((random (S k) - 0.5) * 400) 1.0 1.0 col
          (random (S (S k)) * 5 + 2))) ->
  exists ps,
    List.length ps = 20%nat /\ Forall P ps /\
    createExplosion random ex ey col wd
    = mkWorld (set_particles (particles (st wd) ++ ps) (st wd))
        (rand wd + 60) (log wd).
Proof.
  intro H. unfold createExplosion.
  destruct (explosionLoop_pushes random P 20 ex ey col wd H)
    as (ps & L & F & E).
  exists ps. split; [exact L|]. split; [exact F|]. exact E.
Qed.

(** The twenty turns of [createExplosion] are never unfolded in the proofs
    below: the two facts above are all they use. *)
Opaque createExplosion.

(** Projections of worlds, states and entities, and nothing else. *)
Ltac proj :=
  cbn [st rand log with_st emit playSound onGameOver push_particle push_entity
       playerX speed roadOffset score distance boost isBoosting entities
       particles lastTime entityIdCounter bgOffset
       set_playerX set_speed set_roadOffset set_score set_distance set_boost
       set_isBoosting set_entities set_particles set_lastTime
       set_entityIdCounter set_bgOffset
       Entity.id Entity.x Entity.y Entity.type Entity.active
       Entity.set_y Entity.set_active fst snd] in *.

(** Split a conjunction into its parts, without introducing anything. *)
Ltac conj := repeat match goal with |- _ /\ _ => split end.

Section Collide.
Variable random : nat -> Q.
Variable cv : Canvas.

(** The four outcomes of the collision logic, up to the particles pushed. *)
Lemma collide_miss (ent : Entity.t) (wd : World) :
  hits cv ent (st wd) = false -> collide random cv ent wd = (wd, ent).
Proof. unfold hits, collide. intros ->. reflexivity. Qed.

Lemma collide_orb (ent : Entity.t) (wd : World) :
  hits cv ent (st wd) = true -> Entity.type ent = orb ->
  let s := st wd in
  let b := Qmin 100 (boost s + 25) in
  let trigger := Qle_bool 100 b && negb (isBoosting s) in
  exists ps,
    st (fst (collide random cv ent wd))
    = set_particles (particles s ++ ps)
        (set_isBoosting (isBoosting s || trigger)
           (set_boost (if trigger then 100 else b)
              (set_score (score s + 500)%Z s)))
    /\ log (fst (collide random cv ent wd))
       = (if trigger then [PlaySound Sound.boost] else [])
         ++ PlaySound Sound.collect :: log wd
    /\ snd (collide random cv ent wd) = Entity.set_active false ent.
Proof.
  intros H T. unfold hits in H. unfold collide. rewrite H, T.
  cbv zeta.
  match goal with
  | |- context [createExplosion random ?a ?b ?c ?w] =>
      destruct (createExplosion_spec random a b c w) as [[ps E] L];
      generalize dependent (createExplosion random a b c w)
  end.
  intros wd4 E L.
  exists ps. rewrite E. proj.
  destruct (Qle_bool 100 (Qmin 100 (boost (st wd) + 25))
            && negb (isBoosting (st wd))) eqn:Tr; proj.
  - apply andb_prop in Tr. destruct Tr as [_ Tr].
    apply negb_true_iff in Tr. rewrite E, Tr, L. proj. repeat split.
  - rewrite L, E, orb_false_r. split; [|split; reflexivity].
    destruct (st wd); reflexivity.
Qed.

Lemma collide_crash (ent : Entity.t) (wd : World) :
  hits cv ent (st wd) = true -> Entity.type ent <> orb ->
  isBoosting (st wd) = false ->
  exists ps,
    st (fst (collide random cv ent wd))
    = set_particles (particles (st wd) ++ ps) (st wd)
    /\ log (fst (collide random cv ent wd))
       = GameOver (score (st wd)) :: PlaySound Sound.crash :: log wd
    /\ snd (collide random cv ent wd) = ent.
Proof.
  intros H T B. unfold hits in H. unfold collide. rewrite H, B.
  cbv zeta. cbn [negb].
  destruct (Entity.type ent); try congruence;
    match goal with
    | |- context [createExplosion random ?a ?b ?c ?w] =>
        destruct (createExplosion_spec random a b c w) as [[ps E] L];
        generalize dependent (createExplosion random a b c w)
    end;
    intros wd2 E L; exists ps; proj; rewrite E, L; proj; repeat split.
Qed.

Lemma collide_smash (ent : Entity.t) (wd : World) :
  hits cv ent (st wd) = true -> Entity.type ent <> orb ->
  isBoosting (st wd) = true ->
  exists ps,
    st (fst (collide random cv ent wd))
    = set_particles (particles (st wd) ++ ps)
        (set_score (score (st wd) + 100)%Z (st wd))
    /\ log (fst (collide random cv ent wd)) = PlaySound Sound.collect :: log wd
    /\ snd (collide random cv ent wd) = Entity.set_active false ent.
Proof.
  intros H T B. unfold hits in H. unfold collide. rewrite H, B.
  cbv zeta. cbn [negb].
  destruct (Entity.type ent); try congruence;
    match goal with
    | |- context [createExplosion random ?a ?b ?c ?w] =>
        destruct (createExplosion_spec random a b c w) as [[ps E] L];
        generalize dependent (createExplosion random a b c w)
    end;
    intros wd2 E L; exists ps; proj; rewrite E, L; proj; repeat split.
Qed.

Lemma steady_refl (s : State) : steady s s.
Proof.
  unfold steady. repeat split; try reflexivity; try tauto; try lia.
  exists []. now rewrite app_nil_r.
Qed.

Lemma steady_trans (a b c : State) : steady a b -> steady b c -> steady a c.
Proof.
  unfold steady.
  intros (A1 & A2 & A3 & A4 & A5 & A6 & A7 & A8 & A9 & A10 & ps & A11)
         (B1 & B2 & B3 & B4 & B5 & B6 & B7 & B8 & B9 & B10 & qs & B11).
  repeat split; try congruence; try lia; try tauto.
  exists (ps ++ qs). rewrite B11, A11. now rewrite app_assoc.
Qed.

Lemma boost_refill_range (b : Q) :
  0 <= b <= 100 -> 0 <= Qmin 100 (b + 25) <= 100.
Proof.
  intros [L U]. split.
  - apply Q.min_glb; lra.
  - apply Q.le_min_l.
Qed.

Lemma collide_steady (ent : Entity.t) (wd : World) :
  steady (st wd) (st (fst (collide random cv ent wd))).
Proof.
  destruct (hits cv ent (st wd)) eqn:H.
  2:{ rewrite (collide_miss _ _ H). apply steady_refl. }
  destruct (EntityType_orb_dec (Entity.type ent)) as [T|T].
  - destruct (collide_orb ent wd H T) as (ps & E & _). rewrite E.
    unfold steady; proj. conj; try reflexivity; try lia.
    + intro R. destruct (_ && _); [lra | now apply boost_refill_range].
    + now exists ps.
  - destruct (isBoosting (st wd)) eqn:B.
    + destruct (collide_smash ent wd H T B) as (ps & E & _). rewrite E.
      unfold steady; proj. conj; try reflexivity; try lia; try tauto.
      now exists ps.
    + destruct (collide_crash ent wd H T B) as (ps & E & _). rewrite E.
      unfold steady; proj. conj; try reflexivity; try lia; try tauto.
      now exists ps.
Qed.

Lemma entityStep_steady (dt sm : Q) (ent : Entity.t) (wd : World) :
  steady (st wd) (st (fst (entityStep random cv dt sm ent wd))).
Proof.
  unfold entityStep. cbv zeta.
  match goal with
  | |- context [if ?c then collide random cv ?e wd else _] =>
      destruct c;
      [ pose proof (collide_steady e wd) as S;
        destruct (collide random cv e wd) as [wd1 ent2]
      | ]
  end.
  - proj. destruct (_ || _); exact S.
  - destruct (_ || _); apply steady_refl.
Qed.

Lemma entityLoop_steady (dt sm : Q) (ents : list Entity.t) (wd : World) :
  steady (st wd) (st (fst (entityLoop random cv dt sm ents wd))).
Proof.
  induction ents as [|ent rest IH]; cbn [entityLoop].
  - apply steady_refl.
  - destruct (entityLoop random cv dt sm rest wd) as [wd1 rest'].
    pose proof (entityStep_steady dt sm ent wd1) as S.
    destruct (entityStep random cv dt sm ent wd1) as [wd2 r].
    proj. eapply steady_trans; eassumption.
Qed.

End Collide.

Section Stages.
Variable random : nat -> Q.
Variable cv : Canvas.

(** The stages that draw random numbers, up to what they push. *)
Lemma boostLogic_spec (dt : Q) (wd : World) :
  exists ps n,
    boostLogic random cv dt wd
    = (maxSpeedOf (st wd),
       mkWorld (set_particles (particles (st wd) ++ ps) (drained dt (st wd)))
         n (log wd)).
Proof.
  unfold boostLogic, maxSpeedOf, drained. destruct wd as [s r l]. proj.
  destruct (isBoosting s) eqn:B.
  - cbv zeta. unfold Math_random. proj.
    destruct (Qle_bool (boost s - 20 * dt) 0); proj;
      destruct (Qltb 0.5 (random r)); proj;
      (eexists; eexists; f_equal; f_equal;
       first [ reflexivity
             | instantiate (1 := []); rewrite app_nil_r;
               destruct s; reflexivity ]).
  - exists [], r. rewrite app_nil_r. destruct s; reflexivity.
Qed.

Lemma spawnObstacle_spec (wd : World) :
  exists es c n,
    spawnObstacle random cv wd
    = mkWorld (set_entities (entities (st wd) ++ es)
                 (set_entityIdCounter c (st wd))) n (log wd).
Proof.
  unfold spawnObstacle. destruct wd as [s r l]. unfold Math_random. proj.
  cbv zeta. proj.
  destruct (Qltb (random r) _); proj.
  - eexists; eexists; eexists. reflexivity.
  - exists [], (entityIdCounter s), (S r). rewrite app_nil_r.
    destruct s; reflexivity.
Qed.

Lemma spawnOrb_spec (wd : World) :
  exists es c n,
    spawnOrb random cv wd
    = mkWorld (set_entities (entities (st wd) ++ es)
                 (set_entityIdCounter c (st wd))) n (log wd).
Proof.
  unfold spawnOrb. destruct wd as [s r l]. unfold Math_random. proj.
  cbv zeta. proj.
  destruct (Qltb (random r) _); proj.
  - eexists; eexists; eexists. reflexivity.
  - exists [], (entityIdCounter s), (S r). rewrite app_nil_r.
    destruct s; reflexivity.
Qed.

Lemma drained_range (dt : Q) (s : State) :
  0 <= dt -> 0 <= boost s <= 100 -> 0 <= boost (drained dt s) <= 100.
Proof.
  intros D R. unfold drained.
  destruct (isBoosting s); [|exact R].
  destruct (Qle_bool (boost s - 20 * dt) 0) eqn:E; proj.
  - lra.
  - assert (~ boost s - 20 * dt <= 0)
      by (intro H; apply Qle_bool_iff in H; congruence).
    lra.
Qed.

Lemma trickle_nonneg (v : Q) (b : bool) :
  (0 <= Qfloor (Qmax 0 v * 10 * (if b then 2 else 1)))%Z.
Proof.
  apply (Qfloor_resp_le 0).
  pose proof (Q.le_max_l 0 v) as M.
  generalize dependent (Qmax 0 v). intros m M.
  destruct b; lra.
Qed.

Lemma entityUpdates_steady (dt sm : Q) (wd : World) :
  exists es s1,
    steady (st wd) s1 /\
    st (entityUpdates random cv dt sm wd) = set_entities es s1.
Proof.
  unfold entityUpdates.
  pose proof (entityLoop_steady random cv dt sm (entities (st wd)) wd) as S.
  destruct (entityLoop random cv dt sm (entities (st wd)) wd) as [wd1 ents].
  exists ents, (st wd1). split; [exact S | reflexivity].
Qed.

Lemma drained_same (dt : Q) (s : State) :
  playerX (drained dt s) = playerX s /\ speed (drained dt s) = speed s /\
  score (drained dt s) = score s /\ distance (drained dt s) = distance s /\
  lastTime (drained dt s) = lastTime s /\
  particles (drained dt s) = particles s.
Proof.
  unfold drained. destruct (isBoosting s); [|tauto].
  destruct (Qle_bool _ 0); proj; tauto.
Qed.

(** The pure stages. *)
Lemma speedUpdate_spec (thr dt m : Q) (s : State) :
  exists v, speedUpdate thr dt m s = set_speed (Qmax 0 (Qmin m v)) s.
Proof.
  unfold speedUpdate. cbv zeta.
  destruct (Qltb 0.1 thr || isBoosting s); proj;
    (eexists; destruct s; reflexivity).
Qed.

Lemma playerXUpdate_spec (steer dt : Q) (s : State) :
  playerXUpdate steer dt s = s \/
  exists v, playerXUpdate steer dt s = set_playerX (Qmax (-1.2) (Qmin 1.2 v)) s.
Proof.
  unfold playerXUpdate. cbv zeta.
  destruct (Qltb 0.05 (speed s)); proj; [right | left; reflexivity].
  eexists; destruct s; reflexivity.
Qed.

Lemma worldMovement_spec (steer dt : Q) (s : State) :
  exists ro bg,
    worldMovement steer dt s
    = set_score
        (score s + Qfloor (speed s * 10 * (if isBoosting s then 2 else 1)))%Z
        (set_distance (distance s + speed s * dt)
           (set_bgOffset bg (set_roadOffset ro s))).
Proof.
  unfold worldMovement. cbv zeta. proj.
  eexists; eexists; reflexivity.
Qed.

Lemma kinematics_facts (ctl : ControlState) (dt m : Q) (s : State) :
  let k := kinematics ctl dt m s in
  (exists v, speed k = Qmax 0 (Qmin m v)) /\
  (playerX k = playerX s \/
   exists v, playerX k = Qmax (-1.2) (Qmin 1.2 v)) /\
  boost k = boost s /\ isBoosting k = isBoosting s /\
  (score s <= score k)%Z /\
  distance k = distance s + speed k * dt /\
  lastTime k = lastTime s /\
  particles k = particles s /\
  entities k = entities s.
Proof.
  cbv zeta. unfold kinematics.
  destruct (speedUpdate_spec (throttle ctl) dt m s) as [v ->].
  destruct (worldMovement_spec (steering ctl) dt
              (playerXUpdate (steering ctl) dt
                 (set_speed (Qmax 0 (Qmin m v)) s))) as (ro & bg & ->).
  destruct (playerXUpdate_spec (steering ctl) dt
              (set_speed (Qmax 0 (Qmin m v)) s)) as [-> | [u ->]]; proj;
    conj; try reflexivity;
    try (exists v; reflexivity);
    try (pose proof (trickle_nonneg (Qmin m v) (isBoosting s)); lia).
  - left; reflexivity.
  - right; exists u; reflexivity.
Qed.

(** The update block, with its three pure steps taken together. *)
Lemma update_unfold (ctl : ControlState) (dt : Q) (wd : World) :
  update random cv ctl dt wd
  = let bl := boostLogic random cv dt wd in
    let sm := speedMultiplierOf
                (playerXUpdate (steering ctl) dt
                   (speedUpdate (throttle ctl) dt (fst bl) (st (snd bl)))) in
    with_st (particleUpdates dt)
      (entityUpdates random cv dt sm
         (spawnOrb random cv
            (spawnObstacle random cv
               (mkWorld (kinematics ctl dt (fst bl) (st (snd bl)))
                  (rand (snd bl)) (log (snd bl)))))).
Proof.
  unfold update. destruct (boostLogic random cv dt wd) as [m wd1].
  reflexivity.
Qed.

(** What one pass through the update block does to the numbers of the
    state. *)
Lemma update_facts (ctl : ControlState) (dt : Q) (wd : World) :
  let s := st wd in
  let s' := st (update random cv ctl dt wd) in
  (exists v, speed s' = Qmax 0 (Qmin (maxSpeedOf s) v)) /\
  (playerX s' = playerX s \/
   exists v, playerX s' = Qmax (-1.2) (Qmin 1.2 v)) /\
  (0 <= dt -> 0 <= boost s <= 100 -> 0 <= boost s' <= 100) /\
  (score s <= score s')%Z /\
  distance s' = distance s + speed s' * dt /\
  lastTime s' = lastTime s /\
  (exists fresh,
     particles s'
     = filter alive (map (ageParticle dt) (particles s ++ fresh))).
Proof.
  cbv zeta. rewrite update_unfold.
  destruct (boostLogic_spec dt wd) as (ps & n & ->).
  cbv zeta. cbn [fst snd st rand log].
  generalize (st wd). intro s0.
  generalize (speedMultiplierOf
     (playerXUpdate (steering ctl) dt
        (speedUpdate (throttle ctl) dt (maxSpeedOf s0)
           (set_particles (particles s0 ++ ps) (drained dt s0))))).
  intro sm.
  destruct (kinematics_facts ctl dt (maxSpeedOf s0)
              (set_particles (particles s0 ++ ps) (drained dt s0)))
    as (K1 & K2 & K3 & K4 & K5 & K6 & K7 & K8 & K9).
  generalize dependent
    (kinematics ctl dt (maxSpeedOf s0)
       (set_particles (particles s0 ++ ps) (drained dt s0))).
  intros k K1 K2 K3 K4 K5 K6 K7 K8 K9.
  destruct (spawnObstacle_spec (mkWorld k n (log wd)))
    as (es1 & c1 & n1 & ->).
  cbn [st rand log].
  match goal with
  | |- context [spawnOrb random cv ?w] =>
      destruct (spawnOrb_spec w) as (es2 & c2 & n2 & ->)
  end.
  cbn [st rand log].
  match goal with
  | |- context [entityUpdates random cv dt sm ?w] =>
      destruct (entityUpdates_steady dt sm w) as (es & s1 & S & E)
  end.
  unfold with_st. rewrite E. clear E.
  destruct S as (A1 & A2 & A3 & A4 & A5 & A6 & A7 & A8 & A9 & A10 & qs & A11).
  unfold particleUpdates. proj.
  destruct (drained_same dt s0) as (D1 & D2 & D3 & D4 & D5 & D6).
  rewrite A1, A2, A4, A5, A11, K6, K7, K8, D4, D5.
  conj.
  - exact K1.
  - rewrite <- D1. exact K2.
  - intros D R. apply A10. rewrite K3. now apply drained_range.
  - rewrite <- D3. lia.
  - reflexivity.
  - reflexivity.
  - exists (ps ++ qs). rewrite app_assoc. reflexivity.
Qed.

End Stages.

(** *** The time step *)

Lemma frameDt_nonneg (timestamp : Q) (s : State) :
  lastTime s <= timestamp -> 0 <= frameDt timestamp s.
Proof.
  intro H. unfold frameDt, stampFirst.
  apply Q.min_glb; [|lra].
  destruct (Qeq_bool (lastTime s) 0); proj.
  - setoid_replace ((timestamp - timestamp) / 1000) with 0 by field. lra.
  - apply Qle_shift_div_l; lra.
Qed.

Lemma frameDt_le (timestamp : Q) (s : State) : frameDt timestamp s <= 0.1.
Proof. unfold frameDt. apply Q.le_min_r. Qed.

Lemma stamped_same (timestamp : Q) (s : State) :
  playerX (stamped timestamp s) = playerX s /\
  speed (stamped timestamp s) = speed s /\
  score (stamped timestamp s) = score s /\
  distance (stamped timestamp s) = distance s /\
  boost (stamped timestamp s) = boost s /\
  isBoosting (stamped timestamp s) = isBoosting s /\
  entities (stamped timestamp s) = entities s /\
  particles (stamped timestamp s) = particles s /\
  lastTime (stamped timestamp s) = timestamp.
Proof.
  unfold stamped, stampFirst.
  destruct (Qeq_bool (lastTime s) 0); proj; conj; reflexivity.
Qed.

Lemma gameLoop_playing (random : nat -> Q) (cv : Canvas)
  (ctl : ControlState) (timestamp : Q) (s : State) :
  state_of (gameLoop random cv PLAYING ctl timestamp s)
  = st (update random cv ctl (frameDt timestamp s)
          (mkWorld (stamped timestamp s) O [])).
Proof. reflexivity. Qed.

Lemma gameLoop_idle (random : nat -> Q) (cv : Canvas) (gs : GameState)
  (ctl : ControlState) (timestamp : Q) (s : State) :
  gs <> PLAYING ->
  gameLoop random cv gs ctl timestamp s
  = mkFrame (stamped timestamp s) []
      (fst (render cv gs ctl (stamped timestamp s)))
      (snd (render cv gs ctl (stamped timestamp s))).
Proof. destruct gs; intro H; [reflexivity | congruence | reflexivity]. Qed.


(** *** The clamps *)

Lemma clamped_speed (m v : Q) : 0 <= m -> 0 <= Qmax 0 (Qmin m v) <= m.
Proof.
  intro M. split.
  - apply Q.le_max_l.
  - apply Q.max_lub; [exact M | apply Q.le_min_l].
Qed.

Lemma clamped_playerX (v : Q) : -1.2 <= Qmax (-1.2) (Qmin 1.2 v) <= 1.2.
Proof.
  split.
  - apply Q.le_max_l.
  - apply Q.max_lub; [lra | apply Q.le_min_l].
Qed.

Lemma maxSpeedOf_range (s : State) : 1.5 <= maxSpeedOf s <= 2.5.
Proof. unfold maxSpeedOf. destruct (isBoosting s); lra. Qed.

Lemma frame_within (random : nat -> Q) (cv : Canvas) (gs : GameState)
  (ctl : ControlState) (timestamp : Q) (s : State) :
  lastTime s <= timestamp -> within 2.5 s ->
  let s' := state_of (gameLoop random cv gs ctl timestamp s) in
  within 2.5 s' /\ (gs = PLAYING -> speed s' <= maxSpeedOf s).
Proof.
  intros T (S & B & P). cbv zeta.
  destruct (stamped_same timestamp s)
    as (E1 & E2 & E3 & E4 & E5 & E6 & E7 & E8 & E9).
  destruct gs.
  1,3: rewrite gameLoop_idle by congruence; cbn [state_of]; unfold within;
       rewrite E1, E2, E5; split; [tauto | congruence].
  rewrite gameLoop_playing.
  destruct (update_facts random cv ctl (frameDt timestamp s)
              (mkWorld (stamped timestamp s) O []))
    as ((v & U1) & U2 & U3 & _).
  cbn [st] in *.
  pose proof (maxSpeedOf_range s) as M.
  assert (maxSpeedOf (stamped timestamp s) = maxSpeedOf s) as EM
    by (unfold maxSpeedOf; now rewrite E6).
  rewrite EM in U1.
  pose proof (clamped_speed (maxSpeedOf s) v) as C.
  unfold within. rewrite U1. split; [split; [lra | split] | intros _; lra].
  - apply U3; [now apply frameDt_nonneg | now rewrite E5].
  - destruct U2 as [-> | [u ->]]; [rewrite E1; tauto | apply clamped_playerX].
Qed.

Lemma reachable_within (s : State) : reachable s -> within 2.5 s.
Proof.
  induction 1 as [|random cv gs ctl timestamp s R IH T].
  - unfold within; cbn. lra.
  - now apply frame_within.
Qed.

(** *** Runs of frames *)

Lemma play_reachable (frames : list FrameInput) (s : State) :
  clock_ok frames s = true -> reachable s -> reachable (play frames s).
Proof.
  revert s. induction frames as [|i rest IH]; intros s C R; cbn [play].
  - exact R.
  - cbn [clock_ok] in C. apply andb_prop in C. destruct C as [C1 C2].
    apply IH; [exact C2|].
    apply reach_frame; [exact R | now apply Qle_bool_iff].
Qed.

Lemma boundedControlb_sound (ctl : ControlState) :
  boundedControlb ctl = true -> boundedControl ctl.
Proof.
  unfold boundedControlb, boundedControl. intro H.
  apply andb_prop in H. destruct H as [H1 H2].
  split; now apply Qle_bool_iff.
Qed.

Lemma driven_reachable (s : State) : driven s -> reachable s.
Proof.
  induction 1 as [|random cv gs ctl timestamp s D IH B T].
  - apply reach_mount.
  - now apply reach_frame.
Qed.

Lemma play_driven (frames : list FrameInput) (s : State) :
  clock_ok frames s = true -> controls_ok frames = true -> driven s ->
  driven (play frames s).
Proof.
  revert s. induction frames as [|i rest IH]; intros s C B D; cbn [play].
  - exact D.
  - cbn [clock_ok] in C. apply andb_prop in C. destruct C as [C1 C2].
    unfold controls_ok in B. cbn [forallb] in B.
    apply andb_prop in B. destruct B as [B1 B2].
    apply IH; [exact C2 | exact B2 |].
    apply driven_frame;
      [exact D | now apply boundedControlb_sound | now apply Qle_bool_iff].
Qed.

Lemma boostEndChecks_sound (frames : list FrameInput) (i : FrameInput) :
  boostEndChecks frames i = true ->
  reachable (play frames initialState) /\
  isBoosting (play frames initialState) = true /\
  speed (play frames initialState) == 2.5 /\
  boost (play frames initialState) == 2 /\
  lastTime (play frames initialState) <= in_time i /\
  isBoosting (frame i (play frames initialState)) = false /\
  speed (frame i (play frames initialState)) == 2.5 /\
  ~ clamps (frame i (play frames initialState)).
Proof.
  unfold boostEndChecks. cbv zeta.
  generalize (play_reachable frames initialState).
  generalize (clock_ok frames initialState).
  generalize (play frames initialState). intros s b.
  generalize (frame i s). intros s' R C.
  apply andb_prop in C; destruct C as [C H7].
  apply andb_prop in C; destruct C as [C H6].
  apply andb_prop in C; destruct C as [C H5].
  apply andb_prop in C; destruct C as [C H4].
  apply andb_prop in C; destruct C as [C H3].
  apply andb_prop in C; destruct C as [H1 H2].
  apply negb_true_iff in H6.
  apply Qeq_bool_iff in H3, H4, H7. apply Qle_bool_iff in H5.
  split; [exact (R H1 reach_mount)|]. split; [exact H2|]. split; [exact H3|].
  split; [exact H4|]. split; [exact H5|]. split; [exact H6|].
  split; [exact H7|].
  intros [[_ H] _]. unfold maxSpeedOf in H. rewrite H6, H7 in H.
  revert H. clear. vm_compute. intro H; apply H; reflexivity.
Qed.

(** *** The scores a frame reports *)

Section Reports.
Variable random : nat -> Q.
Variable cv : Canvas.

Lemma collide_reported (lo : Z) (ent : Entity.t) (wd : World) :
  reportedFrom lo wd -> reportedFrom lo (fst (collide random cv ent wd)).
Proof.
  intros [L R]. unfold reportedFrom.
  destruct (hits cv ent (st wd)) eqn:H.
  2:{ rewrite (collide_miss _ _ _ _ H). split; assumption. }
  destruct (EntityType_orb_dec (Entity.type ent)) as [T|T].
  - destruct (collide_orb random cv ent wd H T) as (ps & E & G & _).
    cbv zeta in E, G. rewrite E, G. proj. split; [lia|].
    intros sc I. apply in_app_or in I. destruct I as [I|[I|I]].
    + destruct (_ && _); [destruct I as [I|[]]; discriminate I | destruct I].
    + discriminate I.
    + specialize (R sc I). lia.
  - destruct (isBoosting (st wd)) eqn:B.
    + destruct (collide_smash random cv ent wd H T B) as (ps & E & G & _).
      rewrite E, G. proj. split; [lia|].
      intros sc [I|I]; [discriminate I | specialize (R sc I); lia].
    + destruct (collide_crash random cv ent wd H T B) as (ps & E & G & _).
      rewrite E, G. proj. split; [lia|].
      intros sc [I|[I|I]].
      * injection I as <-. lia.
      * discriminate I.
      * exact (R sc I).
Qed.

Lemma entityStep_reported (lo : Z) (dt sm : Q) (ent : Entity.t) (wd : World) :
  reportedFrom lo wd ->
  reportedFrom lo (fst (entityStep random cv dt sm ent wd)).
Proof.
  intro R. unfold entityStep. cbv zeta.
  match goal with
  | |- context [if ?c then collide random cv ?e wd else _] =>
      destruct c;
      [ pose proof (collide_reported lo e wd R) as S;
        destruct (collide random cv e wd) as [wd1 ent2]
      | ]
  end.
  - proj. destruct (_ || _); exact S.
  - destruct (_ || _); exact R.
Qed.

Lemma entityLoop_reported (lo : Z) (dt sm : Q) (ents : list Entity.t)
  (wd : World) :
  reportedFrom lo wd ->
  reportedFrom lo (fst (entityLoop random cv dt sm ents wd)).
Proof.
  intro R. induction ents as [|ent rest IH]; cbn [entityLoop].
  - exact R.
  - destruct (entityLoop random cv dt sm rest wd) as [wd1 rest'].
    pose proof (entityStep_reported lo dt sm ent wd1 IH) as S.
    destruct (entityStep random cv dt sm ent wd1) as [wd2 r].
    exact S.
Qed.

Lemma entityUpdates_reported (lo : Z) (dt sm : Q) (wd : World) :
  reportedFrom lo wd -> reportedFrom lo (entityUpdates random cv dt sm wd).
Proof.
  intro R. unfold entityUpdates.
  pose proof (entityLoop_reported lo dt sm (entities (st wd)) wd R) as S.
  destruct (entityLoop random cv dt sm (entities (st wd)) wd) as [wd1 ents].
  exact S.
Qed.

(** In the update block every call of [onGameOver] reports a score that is
    at least the score the block started from and at most the score it
    leaves. *)
Lemma update_reported (ctl : ControlState) (dt : Q) (s : State) :
  reportedFrom (score s) (update random cv ctl dt (mkWorld s O [])).
Proof.
  rewrite update_unfold.
  destruct (boostLogic_spec random cv dt (mkWorld s O [])) as (ps & n & ->).
  cbv zeta. cbn [fst snd st rand log].
  generalize (speedMultiplierOf
     (playerXUpdate (steering ctl) dt
        (speedUpdate (throttle ctl) dt (maxSpeedOf s)
           (set_particles (particles s ++ ps) (drained dt s))))).
  intro sm.
  destruct (kinematics_facts ctl dt (maxSpeedOf s)
              (set_particles (particles s ++ ps) (drained dt s)))
    as (_ & _ & _ & _ & K5 & _).
  generalize dependent
    (kinematics ctl dt (maxSpeedOf s)
       (set_particles (particles s ++ ps) (drained dt s))).
  intros k K5. proj.
  destruct (drained_same dt s) as (_ & _ & D3 & _). rewrite D3 in K5.
  destruct (spawnObstacle_spec random cv (mkWorld k n []))
    as (es1 & c1 & n1 & ->).
  cbn [st rand log].
  match goal with
  | |- context [spawnOrb random cv ?w] =>
      destruct (spawnOrb_spec random cv w) as (es2 & c2 & n2 & ->)
  end.
  cbn [st rand log].
  match goal with
  | |- context [entityUpdates random cv dt sm ?w] =>
      assert (R0 : reportedFrom (score s) w)
        by (split; [proj; exact K5 | intros sc []]);
      pose proof (entityUpdates_reported (score s) dt sm w R0) as R;
      generalize dependent (entityUpdates random cv dt sm w)
  end.
  intros wd7 [R1 R2]. unfold reportedFrom, particleUpdates. proj.
  split; [exact R1 | exact R2].
Qed.

End Reports.

Lemma gameOvers_In (evs : list Event) (sc : Z) :
  In sc (gameOvers evs) <-> In (GameOver sc) evs.
Proof.
  induction evs as [|[t|z] rest IH]; cbn [gameOvers In].
  - tauto.
  - rewrite IH. split; [tauto | intros [D|I]; [discriminate D | exact I]].
  - rewrite IH. split; intros [D|I]; try tauto.
    + left; now f_equal.
    + left; now injection D.
Qed.

(** Every score a frame reports lies between the score the frame started
    from and the score it leaves. *)
Lemma frame_reports (random : nat -> Q) (cv : Canvas) (gs : GameState)
  (ctl : ControlState) (timestamp : Q) (s : State) (sc : Z) :
  In sc (gameOvers (events_of (gameLoop random cv gs ctl timestamp s))) ->
  (score s <= sc <= score (state_of (gameLoop random cv gs ctl timestamp s)))%Z.
Proof.
  intro I. apply gameOvers_In in I.
  destruct gs.
  1,3: rewrite gameLoop_idle in I by congruence; destruct I.
  unfold gameLoop in *. cbn [GameState_eqb events_of state_of] in *.
  apply in_rev in I.
  destruct (update_reported random cv ctl (frameDt timestamp s)
              (stamped timestamp s)) as [_ R].
  destruct (stamped_same timestamp s) as (_ & _ & E & _).
  rewrite E in R. exact (R sc I).
Qed.

(** *** Score and distance over one frame *)

Lemma frame_monotone (i : FrameInput) (s : State) :
  lastTime s <= in_time i ->
  (score s <= score (frame i s))%Z /\ distance s <= distance (frame i s).
Proof.
  intro T. destruct i as [random cv gs ctl timestamp]. unfold frame.
  cbn [in_random in_canvas in_phase in_control in_time] in *.
  destruct (stamped_same timestamp s)
    as (E1 & E2 & E3 & E4 & E5 & E6 & E7 & E8 & E9).
  destruct gs.
  1,3: rewrite gameLoop_idle by congruence; cbn [state_of];
       rewrite E3, E4; split; [lia | lra].
  rewrite gameLoop_playing.
  destruct (update_facts random cv ctl (frameDt timestamp s)
              (mkWorld (stamped timestamp s) O []))
    as ((v & U1) & _ & _ & U4 & U5 & _).
  cbn [st] in *. rewrite E3 in U4. rewrite E4 in U5.
  split; [exact U4|]. rewrite U5, U1.
  pose proof (frameDt_nonneg timestamp s T) as D.
  pose proof (Q.le_max_l 0 (Qmin (maxSpeedOf (stamped timestamp s)) v)) as M.
  nra.
Qed.

(** *** The producers of the control values *)

Lemma steeringFromDegrees_range (degrees : Q) :
  -1 <= steeringFromDegrees degrees <= 1.
Proof.
  unfold steeringFromDegrees. cbv zeta.
  assert (C : - (45) <= Qmax (- (45)) (Qmin 45 degrees) <= 45).
  { split; [apply Q.le_max_l | apply Q.max_lub; [lra | apply Q.le_min_l]]. }
  generalize dependent (Qmax (- (45)) (Qmin 45 degrees)). intros c C.
  split.
  - apply Qle_shift_div_l; lra.
  - apply Qle_shift_div_r; lra.
Qed.

Lemma throttleFromDist_range (dist : Q) : 0 <= throttleFromDist dist <= 1.
Proof.
  unfold throttleFromDist. cbv zeta. split.
  - apply Q.le_max_l.
  - apply Q.max_lub; [lra | apply Q.le_min_l].
Qed.

(** *** The render pass *)

Lemma onScreenb_sound (cv : Canvas) (ents : list Entity.t) :
  forallb (onScreenb cv) ents = true -> Forall (onScreen cv) ents.
Proof.
  intro H. apply Forall_forall. intros e I.
  apply (proj1 (forallb_forall _ _) H) in I.
  unfold onScreenb in I. apply andb_prop in I. destruct I as [I1 I2].
  split; now apply Qle_bool_iff.
Qed.

Lemma onScreen_draws (cv : Canvas) (ent : Entity.t) :
  1 <= height cv -> onScreen cv ent -> drawingThrows cv ent = false.
Proof.
  intros H [L _]. unfold drawingThrows. apply Qltb_ge.
  unfold firstRadius, drawScale.
  assert (P : 0 <= progressOf cv (Entity.y ent)).
  { unfold progressOf. unfold horizonY in *.
    apply Qle_shift_div_l; lra. }
  generalize dependent (progressOf cv (Entity.y ent)). intros p P.
  destruct (Entity.type ent); nra.
Qed.


Lemma drawEntities_all (cv : Canvas) (ents : list Entity.t) :
  Forall (fun e => drawingThrows cv e = false) ents ->
  drawEntities cv ents = (map (drawEntity cv) ents, true).
Proof.
  induction 1 as [|e rest E F IH]; cbn [drawEntities map].
  - reflexivity.
  - now rewrite E, IH.
Qed.


Lemma drawEntities_drawn (cv : Canvas) (ents : list Entity.t) (d : Draw) :
  In d (fst (drawEntities cv ents)) ->
  exists e, In e ents /\ d = drawEntity cv e.
Proof.
  induction ents as [|e rest IH]; cbn [drawEntities]; [contradiction|].
  destruct (drawingThrows cv e); [contradiction|].
  destruct (drawEntities cv rest) as [ds ok]. cbn [fst] in *.
  intros [<- | I].
  - exists e. split; [now left | reflexivity].
  - destruct (IH I) as (e' & I' & ->). exists e'. split; [now right | reflexivity].
Qed.

Lemma render_completes (cv : Canvas) (gs : GameState) (ctl : ControlState)
  (s : State) :
  1 <= height cv -> Forall (onScreen cv) (entities s) ->
  render cv gs ctl s
  = ([DrawBackdrop (bgOffset s) (roadOffset s) (isBoosting s)]
     ++ map (drawEntity cv) (entities s)
     ++ [DrawPlayer (drawnPlayerScreenX cv (playerX s)) (playerScreenY cv)
           (steering ctl * 0.3) (isBoosting s)]
     ++ map (drawParticle) (particles s)
     ++ (if GameState_eqb gs PLAYING then [drawHud s] else []),
     true).
Proof.
  intros H F. unfold render.
  rewrite drawEntities_all; [reflexivity|].
  eapply Forall_impl; [|exact F].
  intros e O. now apply onScreen_draws.
Qed.


Lemma hud_drawn (cv : Canvas) (gs : GameState) (ctl : ControlState)
  (s : State) :
  In (drawHud s) (fst (render cv gs ctl s))
  <-> gs = PLAYING /\ snd (render cv gs ctl s) = true.
Proof.
  unfold render.
  pose proof (drawEntities_drawn cv (entities s) (drawHud s)) as D.
  destruct (drawEntities cv (entities s)) as [ds ok].
  cbn [fst snd List.app] in *. split.
  - intros [I | I]; [discriminate I|].
    apply in_app_or in I. destruct I as [I | I].
    { destruct (D I) as (e & _ & E). discriminate E. }
    destruct ok; [|contradiction]. unfold drawRest in I.
    cbn [List.app] in I.
    destruct I as [I | I]; [discriminate I|].
    apply in_app_or in I. destruct I as [I | I].
    { apply in_map_iff in I. destruct I as (p & I & _). discriminate I. }
    destruct gs; cbn [GameState_eqb] in I; try contradiction.
    now split.
  - intros [-> ->]. right. apply in_or_app. right.
    unfold drawRest. cbn [List.app]. right. apply in_or_app. right.
    now left.
Qed.

(** ** The claims *)

(** *** C1: the X tested for collision and the X drawn *)

(** C1 (as stated, refuted): on a 1000 x 800 canvas a rock at lateral 0.9 and
    row 700 is tested for collision at screen X 725 and drawn at screen
    X 11828/13 (about 909.8): the two positions are not the same. *)
Lemma collision_x_is_not_drawn_x :
  entScreenX sampleCanvas (Entity.x edgeRock) == 725 /\
  drawEntity sampleCanvas edgeRock
    = DrawEntity rock
        (screenX sampleCanvas 0.9 (progressOf sampleCanvas 700)) 700
        (drawScale (progressOf sampleCanvas 700)) /\
  screenX sampleCanvas 0.9 (progressOf sampleCanvas 700) == 11828 # 13 /\
  ~ entScreenX sampleCanvas (Entity.x edgeRock)
    == screenX sampleCanvas (Entity.x edgeRock)
         (progressOf sampleCanvas (Entity.y edgeRock)).
Proof.
  split; [reflexivity|]. split; [reflexivity|]. split; [reflexivity|].
  intro H. vm_compute in H. discriminate H.
Qed.

(** C1 (amended): the drawing places an entity where the projection of the
    specification places it, by the width of the road at the entity's depth,
    [0.2 * w + 0.88 * w * progress]; the collision test scales the lateral
    offset by the fixed width [0.5 * w] instead.  The X tested and the X
    drawn are the same exactly for an entity on the centre line, on a canvas
    of width 0, or at [progress = 15/44]. *)
Theorem collision_x_vs_drawn_x (cv : Canvas) (lateral progress : Q) :
  screenX cv lateral progress == project_spec_screenX cv lateral progress /\
  (entScreenX cv lateral == screenX cv lateral progress
   <-> (lateral == 0 \/ width cv == 0 \/ progress == 15 # 44)).
Proof.
  split.
  { unfold screenX, project_spec_screenX, project_spec_halfWidth, roadW,
      roadTopW, roadBottomW, centerX.
    cbv zeta. field. }
  pose proof (screenX_gap cv lateral progress) as G.
  split.
  - intro E. rewrite <- E in G.
    assert (Z : lateral * width cv * (0.44 * progress - 0.15) == 0)
      by (rewrite <- G; ring).
    apply Qmult_integral in Z. destruct Z as [Z|Z].
    + apply Qmult_integral in Z. tauto.
    + right; right. lra.
  - intro D.
    assert (Z : lateral * width cv * (0.44 * progress - 0.15) == 0).
    { destruct D as [D|[D|D]]; rewrite D; ring. }
    rewrite Z in G. lra.
Qed.

(** *** C2: starting again *)

(** C2 (as stated, refuted): the first game ends in GAME_OVER with a score
    of 6; after TRY AGAIN the phase is PLAYING and the game state is the one
    the crash left, score 6, speed 0.32, the rock still on the road, not the
    state of the mount.  The next frame hits the same rock and reports 10. *)
Lemma try_again_continues_the_old_game :
  App.gameState (app firstGame) = GAME_OVER /\
  App.lastScore (app firstGame) = 6%Z /\
  App.gameState (app (clickStart firstGame)) = PLAYING /\
  score (stateRef (clickStart firstGame)) = 6%Z /\
  speed (stateRef (clickStart firstGame)) == 0.32 /\
  map Entity.type (entities (stateRef (clickStart firstGame))) = [rock] /\
  stateRef (clickStart firstGame) <> initialState /\
  App.gameState (app (pageFrame half lowCanvas 1200 (clickStart firstGame)))
  = GAME_OVER /\
  App.lastScore (app (pageFrame half lowCanvas 1200 (clickStart firstGame)))
  = 10%Z.
Proof.
  split; [vm_compute; reflexivity|]. split; [vm_compute; reflexivity|].
  split; [reflexivity|]. split; [vm_compute; reflexivity|].
  split; [vm_compute; reflexivity|]. split; [vm_compute; reflexivity|].
  split.
  - intro H. apply (f_equal score) in H. vm_compute in H. discriminate H.
  - split; vm_compute; reflexivity.
Qed.

(** C2 (amended): the game state is created once, when the page mounts,
    with [speed = 0], [score = 0], [boost = 0], no entities and
    [isBoosting = false]; START RACE and TRY AGAIN only set the phase to
    PLAYING and leave the game state, and the last score, as they are, so
    that the first game starts from the defaults and a later one goes on
    from the state, and at least the score, the game before it left. *)
Theorem start_keeps_the_game_state (p : Page) :
  stateRef (clickStart p) = stateRef p /\
  App.gameState (app (clickStart p)) = PLAYING /\
  App.lastScore (app (clickStart p)) = App.lastScore (app p) /\
  (speed (stateRef (clickStart mount)) == 0 /\
   score (stateRef (clickStart mount)) = 0%Z /\
   boost (stateRef (clickStart mount)) == 0 /\
   entities (stateRef (clickStart mount)) = [] /\
   isBoosting (stateRef (clickStart mount)) = false) /\
  (forall rnd cv timestamp,
     lastTime (stateRef p) <= timestamp ->
     (score (stateRef p)
      <= score (stateRef (pageFrame rnd cv timestamp (clickStart p))))%Z).
Proof.
  conj; try reflexivity.
  intros rnd cv timestamp T. unfold pageFrame, clickStart.
  cbn [stateRef app App.startGame App.gameState App.controlState].
  apply (frame_monotone
           (mkInput rnd cv PLAYING (App.controlState (app p)) timestamp)
           (stateRef p) T).
Qed.

(** *** C3: the clamps *)

(** C3 (as stated, refuted): in the frame in which the boost runs out the
    speed has been clamped to 2.5 and [isBoosting] is false afterwards, where
    the claim allows 1.5.  First on a state written out in full, then on the
    state a game reaches after [boostRun]. *)
Lemma boost_end_breaks_speed_clamp :
  (clamps boostEnding /\ lastTime boostEnding <= 1200 /\
   isBoosting
     (frame (mkInput half sampleCanvas PLAYING fullThrottle 1200) boostEnding)
   = false /\
   speed
     (frame (mkInput half sampleCanvas PLAYING fullThrottle 1200) boostEnding)
   == 2.5 /\
   ~ clamps
       (frame (mkInput half sampleCanvas PLAYING fullThrottle 1200)
          boostEnding))
  /\
  (reachable (play boostRun initialState) /\
   isBoosting (play boostRun initialState) = true /\
   speed (play boostRun initialState) == 2.5 /\
   boost (play boostRun initialState) == 2 /\
   lastTime (play boostRun initialState) <= in_time (timed half 14800) /\
   isBoosting (frame (timed half 14800) (play boostRun initialState)) = false /\
   speed (frame (timed half 14800) (play boostRun initialState)) == 2.5 /\
   ~ clamps (frame (timed half 14800) (play boostRun initialState))).
Proof.
  split.
  - split; [|split; [|split; [|split]]].
    + unfold clamps, within. vm_compute. intuition discriminate.
    + vm_compute. discriminate.
    + vm_compute; reflexivity.
    + vm_compute; reflexivity.
    + intros [[_ H] _]. vm_compute in H. apply H. reflexivity.
  - apply (boostEndChecks_sound boostRun (timed half 14800)).
    vm_compute. reflexivity.
Qed.

(** C3 (amended): in a mounted game whose frames are given control values
    of magnitude up to 1e300, inside or outside the documented domains,
    with a clock that does not run backwards, every frame leaves [speed] in
    [0, 2.5], [boost] in [0, 100] and [playerX] in [-1.2, 1.2]; and after a
    frame in the PLAYING phase [speed] is at most the [maxSpeed] of that
    frame, 2.5 when [isBoosting] held as the frame began and 1.5 when it
    did not.  (Beyond that magnitude the products of the update leave the
    doubles: see [Binary64.playerXUpdate] at a steering value of 1e308.) *)
Theorem clamps_after_every_frame (random : nat -> Q) (cv : Canvas)
  (gs : GameState) (ctl : ControlState) (timestamp : Q) (s : State) :
  driven s -> boundedControl ctl -> lastTime s <= timestamp ->
  let s' := state_of (gameLoop random cv gs ctl timestamp s) in
  0 <= speed s' <= 2.5 /\
  (gs = PLAYING -> speed s' <= (if isBoosting s then 2.5 else 1.5)) /\
  0 <= boost s' <= 100 /\
  -1.2 <= playerX s' <= 1.2.
Proof.
  intros D _ T.
  destruct (frame_within random cv gs ctl timestamp s T
              (reachable_within s (driven_reachable s D)))
    as ((S & B & P) & M).
  cbv zeta. tauto.
Qed.

(** The theorem at the frame that follows [steerRun], with the wheel still
    hard to the right: the car is at 1.08, the frame steers it by 0.18, to
    1.26, and leaves it at 1.2. *)
Lemma clamps_after_every_frame_witness :
  driven (play steerRun initialState) /\ boundedControl hardRight /\
  lastTime (play steerRun initialState) <= 1600 /\
  playerX (play steerRun initialState) == 1.08 /\
  playerX (state_of (gameLoop half lowCanvas PLAYING hardRight 1600
                       (play steerRun initialState))) == 1.2 /\
  (let s' := state_of (gameLoop half lowCanvas PLAYING hardRight 1600
                         (play steerRun initialState)) in
   0 <= speed s' <= 2.5 /\
   (PLAYING = PLAYING ->
    speed s' <= (if isBoosting (play steerRun initialState)
                 then 2.5 else 1.5)) /\
   0 <= boost s' <= 100 /\
   -1.2 <= playerX s' <= 1.2).
Proof.
  assert (D : driven (play steerRun initialState)).
  { apply play_driven; [vm_compute; reflexivity | vm_compute; reflexivity |].
    apply driven_mount. }
  assert (B : boundedControl hardRight).
  { apply boundedControlb_sound. vm_compute. reflexivity. }
  assert (T : lastTime (play steerRun initialState) <= 1600).
  { apply Qle_bool_iff. vm_compute. reflexivity. }
  split; [exact D|]. split; [exact B|]. split; [exact T|].
  split; [apply Qeq_bool_iff; vm_compute; reflexivity|].
  split; [apply Qeq_bool_iff; vm_compute; reflexivity|].
  exact (clamps_after_every_frame half lowCanvas PLAYING hardRight 1600
           (play steerRun initialState) D B T).
Defined.

(** *** C4: a crash *)

(** C4 (as stated, refuted): in one frame of [threeAhead], with
    [isBoosting] false, [onGameOver] is called twice, first with 110 and then
    with 610, and the score the frame leaves is 610: the orb between the two
    rocks was collected after the first call.  The same in a game played
    from the mount state: [onGameOver] is called with 1 and the frame leaves
    the score at 501. *)
Lemma crash_is_not_the_end_of_the_frame :
  (isBoosting threeAhead = false /\
   events_of frame16
   = [PlaySound Sound.crash; GameOver 110; PlaySound Sound.collect;
      PlaySound Sound.crash; GameOver 610] /\
   gameOvers (events_of frame16) = [110; 610]%Z /\
   score (state_of frame16) = 610%Z)
  /\
  (reachable (play crashRun initialState) /\
   lastTime (play crashRun initialState) <= 600 /\
   isBoosting (play crashRun initialState) = false /\
   gameOvers (events_of crashFrame) = [1]%Z /\
   score (state_of crashFrame) = 501%Z).
Proof.
  split.
  - split; [reflexivity|]. split; [vm_compute; reflexivity|].
    split; vm_compute; reflexivity.
  - split.
    + apply play_reachable; [vm_compute; reflexivity | apply reach_mount].
    + split; [vm_compute; discriminate|].
      split; [vm_compute; reflexivity|].
      split; vm_compute; reflexivity.
Qed.

(** C4 (amended): a rock or an oil patch that hits while [isBoosting] is
    false makes exactly one call of [onGameOver], after the crash sound, with
    the score as it stands at that moment; the resolution itself changes
    neither the score nor the entity.  [handleGameOver] records that score
    and moves the phase to GAME_OVER.  Every score a frame reports is at
    least the score the frame started from and at most the score it leaves,
    and a frame outside the PLAYING phase makes no call and leaves the score
    as it is. *)
Theorem crash_reports_current_score (random : nat -> Q) (cv : Canvas)
  (ent : Entity.t) (wd : World) :
  Entity.type ent <> orb -> hits cv ent (st wd) = true ->
  isBoosting (st wd) = false ->
  let wd' := fst (collide random cv ent wd) in
  let ent' := snd (collide random cv ent wd) in
  log wd' = GameOver (score (st wd)) :: PlaySound Sound.crash :: log wd /\
  score (st wd') = score (st wd) /\
  ent' = ent /\
  (forall a,
     App.gameState (App.handleGameOver (score (st wd)) a) = GAME_OVER /\
     App.lastScore (App.handleGameOver (score (st wd)) a) = score (st wd)) /\
  (forall rnd cv' gs ctl timestamp s sc,
     In sc (gameOvers (events_of (gameLoop rnd cv' gs ctl timestamp s))) ->
     (score s <= sc
      <= score (state_of (gameLoop rnd cv' gs ctl timestamp s)))%Z) /\
  (forall rnd cv' gs ctl timestamp s,
     gs <> PLAYING ->
     events_of (gameLoop rnd cv' gs ctl timestamp s) = [] /\
     score (state_of (gameLoop rnd cv' gs ctl timestamp s)) = score s).
Proof.
  intros T H B. cbv zeta.
  destruct (collide_crash random cv ent wd H T B) as (ps & E & L & A).
  rewrite E, L, A. proj. conj; try reflexivity.
  - intro a; split; reflexivity.
  - intros rnd cv' gs ctl timestamp s sc. apply frame_reports.
  - intros rnd cv' gs ctl timestamp s G.
    rewrite gameLoop_idle by exact G. cbn [events_of state_of].
    split; [reflexivity | apply stamped_same].
Qed.

(** The theorem on a rock straight ahead of a car that is not boosting. *)
Lemma crash_reports_current_score_witness :
  Entity.type rockAhead <> orb /\
  hits sampleCanvas rockAhead (st (charged 50 false)) = true /\
  isBoosting (st (charged 50 false)) = false /\
  log (fst (collide half sampleCanvas rockAhead (charged 50 false)))
  = [GameOver 100; PlaySound Sound.crash] /\
  score (st (fst (collide half sampleCanvas rockAhead (charged 50 false))))
  = 100%Z /\
  snd (collide half sampleCanvas rockAhead (charged 50 false)) = rockAhead.
Proof.
  assert (T : Entity.type rockAhead <> orb) by discriminate.
  pose proof (crash_reports_current_score half sampleCanvas rockAhead
                (charged 50 false) T eq_refl eq_refl) as W.
  cbv zeta in W. destruct W as (W1 & W2 & W3 & _).
  split; [exact T|]. split; [reflexivity|]. split; [reflexivity|].
  split; [exact W1 | split; [exact W2 | exact W3]].
Defined.

(** *** C5: control values out of their domains *)

(** C5 (as stated, refuted): on doubles, with the car moving, a [NaN]
    steering value makes [playerX] a [NaN], which no later steering value
    repairs, and an infinite throttle in a frame of time step 0 (the first
    frame) makes [speed] a [NaN]; on rationals, a throttle of 5 is
    integrated as 5: from rest, 0.1 s give a speed of 0.4 where a throttle
    clamped to 1 gives 0.08. *)
Lemma control_values_are_not_clamped :
  Binary64.isNaN (Binary64.playerXUpdate nan 0.016 1 0) = true /\
  Binary64.isNaN (Binary64.playerXUpdate 0.5 0.016 1 nan) = true /\
  Binary64.isNaN (Binary64.speedUpdate infinity 0 1.5 false 0) = true /\
  speed (speedUpdate 5 0.1 1.5 initialState) == 0.4 /\
  speed (speedUpdate 1 0.1 1.5 initialState) == 0.08.
Proof.
  split; [vm_compute; reflexivity|]. split; [vm_compute; reflexivity|].
  split; [vm_compute; reflexivity|].
  split; vm_compute; reflexivity.
Qed.

(** C5 (amended): the update uses the steering and throttle values as they
    arrive, without clamping them; it is the results that are clamped.  For
    control values of magnitude up to 1e300, inside or outside their
    domains, a time step between 0 and 0.1 and a state within the clamps:
    the new speed is in [0, maxSpeed]; it is the integral of the throttle
    as it arrived when the throttle is 0.11 or more, the speed less the
    friction when it is 0.1 or less, and the integral of a throttle of 1
    during a boost, clamped to that range; the new [playerX] is
    either the old one or the raw integral clamped to [-1.2, 1.2], the
    latter when the new speed is 0.06 or more and the former when it is
    0.04 or less; either way it is in [-1.2, 1.2].  The
    producers of the values clamp them to [-1, 1] and [0, 1].  On doubles a
    [NaN] throttle outside a boost coasts like no throttle, and a steering
    value of 1e308 in a frame of time step 0 makes [playerX] a [NaN]. *)
Theorem results_are_clamped_controls_are_not (ctl : ControlState) (dt : Q)
  (s0 s : State) :
  boundedControl ctl -> 0 <= dt <= 0.1 -> within 2.5 s ->
  let m := maxSpeedOf s0 in
  let k := kinematics ctl dt m s in
  let steered :=
    Qmax (-1.2)
      (Qmin 1.2 (playerX s + steering ctl * steeringSensitivity * dt)) in
  (throttle ctl <= 0.1 \/ 0.11 <= throttle ctl \/ isBoosting s = true ->
   speed k
   = Qmax 0
       (Qmin m
          (if Qltb 0.1 (throttle ctl) || isBoosting s
           then speed s
                + (if isBoosting s then 1.0 else throttle ctl)
                  * acceleration * dt
           else speed s - friction * dt))) /\
  0 <= speed k <= m /\
  (playerX k = playerX s \/ playerX k = steered) /\
  (0.06 <= speed k -> playerX k = steered) /\
  (speed k <= 0.04 -> playerX k = playerX s) /\
  -1.2 <= playerX k <= 1.2 /\
  (forall degrees, -1 <= steeringFromDegrees degrees <= 1) /\
  (forall dist, 0 <= throttleFromDist dist <= 1) /\
  (forall dt' m' sp : float,
     Binary64.speedUpdate nan dt' m' false sp
     = Binary64.Math_max 0 (Binary64.Math_min m' (sp - 0.3 * dt')))%float /\
  Binary64.isNaN (Binary64.playerXUpdate 1e308 0 1 0)%float = true.
Proof.
  intros _ _ (_ & _ & P). cbv zeta.
  assert (E1 : speed (kinematics ctl dt (maxSpeedOf s0) s)
    = Qmax 0
        (Qmin (maxSpeedOf s0)
           (if Qltb 0.1 (throttle ctl) || isBoosting s
            then speed s
                 + (if isBoosting s then 1.0 else throttle ctl)
                   * acceleration * dt
            else speed s - friction * dt))).
  { destruct s as [px sp ro sc di bo ib en pa lt ec bg].
    unfold kinematics, worldMovement, playerXUpdate, speedUpdate.
    cbv zeta. proj.
    destruct (Qltb 0.1 (throttle ctl) || ib); proj;
      destruct (Qltb 0.05 _); reflexivity. }
  assert (E2 : playerX (kinematics ctl dt (maxSpeedOf s0) s)
    = (if Qltb 0.05 (speed (kinematics ctl dt (maxSpeedOf s0) s))
       then Qmax (-1.2)
              (Qmin 1.2 (playerX s + steering ctl * steeringSensitivity * dt))
       else playerX s)).
  { rewrite E1.
    destruct s as [px sp ro sc di bo ib en pa lt ec bg].
    unfold kinematics, worldMovement, playerXUpdate, speedUpdate.
    cbv zeta. proj.
    destruct (Qltb 0.1 (throttle ctl) || ib); proj;
      destruct (Qltb 0.05 _); reflexivity. }
  split; [intros _; exact E1|]. split.
  { rewrite E1. apply clamped_speed.
    pose proof (maxSpeedOf_range s0). lra. }
  split.
  { rewrite E2. destruct (Qltb 0.05 _); [now right | now left]. }
  split.
  { intro M. rewrite E2.
    assert (L : Qltb 0.05 (speed (kinematics ctl dt (maxSpeedOf s0) s)) = true)
      by (apply Qltb_lt; lra).
    now rewrite L. }
  split.
  { intro M. rewrite E2.
    assert (L : Qltb 0.05 (speed (kinematics ctl dt (maxSpeedOf s0) s)) = false)
      by (apply Qltb_ge; lra).
    now rewrite L. }
  split.
  { rewrite E2. destruct (Qltb 0.05 _); [apply clamped_playerX | exact P]. }
  split; [exact steeringFromDegrees_range|].
  split; [exact throttleFromDist_range|].
  split; [intros dt' m' sp; reflexivity|].
  vm_compute. reflexivity.
Qed.

(** The theorem at control values of 50, fifty times the largest of their
    domains, on a car at speed 1 on the centre line: the throttle is
    integrated as 50, to a speed of 5, which is clamped to 1.5; the
    steering is integrated as 50, to 9, which is clamped to 1.2. *)
Lemma results_are_clamped_controls_are_not_witness :
  boundedControl wildControl /\ 0 <= 0.1 <= 0.1 /\
  within 2.5 (st (charged 0 false)) /\
  speed (st (charged 0 false)) + throttle wildControl * acceleration * 0.1
  == 5 /\
  playerX (st (charged 0 false))
  + steering wildControl * steeringSensitivity * 0.1 == 9 /\
  speed (kinematics wildControl 0.1 (maxSpeedOf (st (charged 0 false)))
           (st (charged 0 false))) == 1.5 /\
  playerX (kinematics wildControl 0.1 (maxSpeedOf (st (charged 0 false)))
             (st (charged 0 false))) == 1.2 /\
  (let m := maxSpeedOf (st (charged 0 false)) in
   let k := kinematics wildControl 0.1 m (st (charged 0 false)) in
   let steered :=
     Qmax (-1.2)
       (Qmin 1.2 (playerX (st (charged 0 false))
                  + steering wildControl * steeringSensitivity * 0.1)) in
   (throttle wildControl <= 0.1 \/ 0.11 <= throttle wildControl \/
    isBoosting (st (charged 0 false)) = true ->
    speed k
    = Qmax 0
        (Qmin m
           (if Qltb 0.1 (throttle wildControl)
               || isBoosting (st (charged 0 false))
            then speed (st (charged 0 false))
                 + (if isBoosting (st (charged 0 false))
                    then 1.0 else throttle wildControl) * acceleration * 0.1
            else speed (st (charged 0 false)) - friction * 0.1))) /\
   0 <= speed k <= m /\
   (playerX k = playerX (st (charged 0 false)) \/ playerX k = steered) /\
   (0.06 <= speed k -> playerX k = steered) /\
   (speed k <= 0.04 -> playerX k = playerX (st (charged 0 false))) /\
   -1.2 <= playerX k <= 1.2 /\
   (forall degrees, -1 <= steeringFromDegrees degrees <= 1) /\
   (forall dist, 0 <= throttleFromDist dist <= 1) /\
   (forall dt' m' sp : float,
      Binary64.speedUpdate nan dt' m' false sp
      = Binary64.Math_max 0 (Binary64.Math_min m' (sp - 0.3 * dt')))%float /\
   Binary64.isNaN (Binary64.playerXUpdate 1e308 0 1 0)%float = true).
Proof.
  assert (B : boundedControl wildControl).
  { apply boundedControlb_sound. vm_compute. reflexivity. }
  assert (T : 0 <= 0.1 <= 0.1) by (split; apply Qle_bool_iff; reflexivity).
  assert (W : within 2.5 (st (charged 0 false))).
  { unfold within. cbn. repeat split; apply Qle_bool_iff; reflexivity. }
  split; [exact B|]. split; [exact T|]. split; [exact W|].
  split; [apply Qeq_bool_iff; vm_compute; reflexivity|].
  split; [apply Qeq_bool_iff; vm_compute; reflexivity|].
  split; [apply Qeq_bool_iff; vm_compute; reflexivity|].
  split; [apply Qeq_bool_iff; vm_compute; reflexivity|].
  exact (results_are_clamped_controls_are_not wildControl 0.1
           (st (charged 0 false)) (st (charged 0 false)) B T W).
Defined.

(** *** C6: an orb is picked up outside a boost *)

(** C6: an orb that hits while [isBoosting] is false is deactivated and adds
    500 to [score]; from [boost = 75] the pickup leaves [isBoosting = true]
    and [boost = 100], from [boost = 50] it leaves [isBoosting = false] and
    [boost = 75]. *)
Theorem orb_pickup_outside_boost (random : nat -> Q) (cv : Canvas)
  (ent : Entity.t) (wd : World) :
  Entity.type ent = orb -> hits cv ent (st wd) = true ->
  isBoosting (st wd) = false ->
  let wd' := fst (collide random cv ent wd) in
  let ent' := snd (collide random cv ent wd) in
  (boost (st wd) == 75 ->
   isBoosting (st wd') = true /\ boost (st wd') == 100) /\
  (boost (st wd) == 50 ->
   isBoosting (st wd') = false /\ boost (st wd') == 75) /\
  Entity.active ent' = false /\
  score (st wd') = (score (st wd) + 500)%Z.
Proof.
  intros T H B. cbv zeta.
  destruct (collide_orb random cv ent wd H T) as (ps & E & _ & A).
  cbv zeta in E. rewrite E, A, B. proj. rewrite andb_true_r.
  conj; try reflexivity.
  - intro V.
    assert (Qle_bool 100 (Qmin 100 (boost (st wd) + 25)) = true) as ->.
    { apply Qle_bool_iff. apply Q.min_glb; lra. }
    split; reflexivity.
  - intro V.
    assert (Qle_bool 100 (Qmin 100 (boost (st wd) + 25)) = false) as ->.
    { destruct (Qle_bool 100 _) eqn:L; [|reflexivity].
      apply Qle_bool_iff in L.
      pose proof (Q.le_min_r 100 (boost (st wd) + 25)). lra. }
    split; [reflexivity|]. rewrite Q.min_r by lra. lra.
Qed.

(** The theorem on an orb straight ahead, at charge 75 and at charge 50. *)
Lemma orb_pickup_outside_boost_witness :
  Entity.type orbAhead = orb /\
  hits sampleCanvas orbAhead (st (charged 75 false)) = true /\
  isBoosting (st (charged 75 false)) = false /\
  (isBoosting
     (st (fst (collide half sampleCanvas orbAhead (charged 75 false))))
   = true /\
   boost (st (fst (collide half sampleCanvas orbAhead (charged 75 false))))
   == 100) /\
  (isBoosting
     (st (fst (collide half sampleCanvas orbAhead (charged 50 false))))
   = false /\
   boost (st (fst (collide half sampleCanvas orbAhead (charged 50 false))))
   == 75) /\
  score (st (fst (collide half sampleCanvas orbAhead (charged 75 false))))
  = 600%Z.
Proof.
  pose proof (orb_pickup_outside_boost half sampleCanvas orbAhead
                (charged 75 false) eq_refl eq_refl eq_refl) as W75.
  pose proof (orb_pickup_outside_boost half sampleCanvas orbAhead
                (charged 50 false) eq_refl eq_refl eq_refl) as W50.
  cbv zeta in W75, W50.
  destruct W75 as (A & _ & _ & S). destruct W50 as (_ & B & _).
  split; [reflexivity|]. split; [reflexivity|]. split; [reflexivity|].
  split; [apply A; reflexivity|]. split; [apply B; reflexivity|]. exact S.
Defined.

(** *** C7: an obstacle is hit during a boost *)

(** C7: a rock or an oil patch that hits while [isBoosting] is true is
    deactivated and adds exactly 100 to [score]; the resolution calls
    [playSound] once and [onGameOver] not at all. *)
Theorem obstacle_hit_during_boost (random : nat -> Q) (cv : Canvas)
  (ent : Entity.t) (wd : World) :
  Entity.type ent <> orb -> hits cv ent (st wd) = true ->
  isBoosting (st wd) = true ->
  let wd' := fst (collide random cv ent wd) in
  let ent' := snd (collide random cv ent wd) in
  log wd' = PlaySound Sound.collect :: log wd /\
  (forall sc, In (GameOver sc) (log wd') -> In (GameOver sc) (log wd)) /\
  Entity.active ent' = false /\
  score (st wd') = (score (st wd) + 100)%Z /\
  isBoosting (st wd') = true.
Proof.
  intros T H B. cbv zeta.
  destruct (collide_smash random cv ent wd H T B) as (ps & E & L & A).
  rewrite E, L, A. proj. conj; try reflexivity; try assumption.
  intros sc [D|I]; [discriminate D | exact I].
Qed.

(** The theorem on a rock straight ahead of a boosting car. *)
Lemma obstacle_hit_during_boost_witness :
  Entity.type rockAhead <> orb /\
  hits sampleCanvas rockAhead (st (charged 90 true)) = true /\
  isBoosting (st (charged 90 true)) = true /\
  log (fst (collide half sampleCanvas rockAhead (charged 90 true)))
  = [PlaySound Sound.collect] /\
  Entity.active (snd (collide half sampleCanvas rockAhead (charged 90 true)))
  = false /\
  score (st (fst (collide half sampleCanvas rockAhead (charged 90 true))))
  = 200%Z.
Proof.
  assert (T : Entity.type rockAhead <> orb) by discriminate.
  pose proof (obstacle_hit_during_boost half sampleCanvas rockAhead
                (charged 90 true) T eq_refl eq_refl) as W.
  cbv zeta in W. destruct W as (W1 & _ & W3 & W4 & _).
  split; [exact T|]. split; [reflexivity|]. split; [reflexivity|].
  split; [exact W1 | split; [exact W3 | exact W4]].
Defined.

(** *** C8: score and distance never go down *)

(** C8: across any run of frames, whatever the phases, controls, canvases
    and random draws, [score] and [distance] at the end are at least what
    they were at the start; for a run of one frame this is the claim about a
    single tick.  The time stamps of the run never decrease, as those that
    [requestAnimationFrame] hands to its callbacks do not. *)
Theorem score_and_distance_never_decrease (frames : list FrameInput)
  (s : State) :
  clock_ok frames s = true ->
  (score s <= score (play frames s))%Z /\ distance s <= distance (play frames s).
Proof.
  revert s. induction frames as [|i rest IH]; intros s C; cbn [play].
  - split; [lia | lra].
  - cbn [clock_ok] in C. apply andb_prop in C. destruct C as [C1 C2].
    apply Qle_bool_iff in C1.
    destruct (frame_monotone i s C1) as [F1 F2].
    destruct (IH (frame i s) C2) as [G1 G2].
    split; [lia | lra].
Qed.

(** The theorem on two frames from the mount state, each of which collects
    an orb. *)
Lemma score_and_distance_never_decrease_witness :
  clock_ok (every200 orbDraw 2 200) initialState = true /\
  (score initialState <= score (play (every200 orbDraw 2 200) initialState))%Z /\
  distance initialState <= distance (play (every200 orbDraw 2 200) initialState).
Proof.
  split.
  - vm_compute. reflexivity.
  - apply (score_and_distance_never_decrease (every200 orbDraw 2 200)
             initialState).
    vm_compute. reflexivity.
Defined.

(** *** C9: particle aging and the render pass *)


(** A window made higher stops the frames: an orb on the horizon row of
    [sampleCanvas] (row 280) is above the road of [tallCanvas], its scale
    there is negative, and the frame that draws it draws the backdrop only
    and does not ask for a next frame. *)
Lemma a_taller_canvas_stops_the_frames :
  ordinaryCanvas sampleCanvas /\ ordinaryCanvas tallCanvas /\
  Forall ordinary (entities orbOnHorizon) /\
  Forall (onScreen sampleCanvas) (entities orbOnHorizon) /\
  Forall (aboveTheRoad tallCanvas) (entities orbOnHorizon) /\
  requested_of (gameLoop half sampleCanvas MENU fullThrottle 1016
                  orbOnHorizon) = true /\
  firstRadius tallCanvas (Entity.mk 0 0 280 orb true) == -(45 # 26) /\
  requested_of (gameLoop half tallCanvas MENU fullThrottle 1016
                  orbOnHorizon) = false /\
  drawn_of (gameLoop half tallCanvas MENU fullThrottle 1016 orbOnHorizon)
  = [DrawBackdrop 0 0 false].
Proof.
  split.
  { repeat split; apply Qle_bool_iff; vm_compute; reflexivity. }
  split.
  { repeat split; apply Qle_bool_iff; vm_compute; reflexivity. }
  split.
  { repeat constructor; apply Qle_bool_iff; vm_compute; reflexivity. }
  split.
  { repeat constructor; apply Qle_bool_iff; vm_compute; reflexivity. }
  split.
  { repeat constructor. apply Qle_bool_iff. vm_compute. reflexivity. }
  split; [vm_compute; reflexivity|].
  split; [apply Qeq_bool_iff; vm_compute; reflexivity|].
  split; vm_compute; reflexivity.
Qed.


(** *** C10: an orb is picked up during a boost *)

(** C10: an orb that hits while [isBoosting] is true is deactivated, adds
    500 to [score] and 25 to [boost], up to 100; [isBoosting] stays true and
    the only sound is the collect sound: no boost sound and no transition.
    The charge the boost drains from is not lower than before. *)
Theorem orb_pickup_during_boost (random : nat -> Q) (cv : Canvas)
  (ent : Entity.t) (wd : World) :
  Entity.type ent = orb -> hits cv ent (st wd) = true ->
  isBoosting (st wd) = true ->
  let wd' := fst (collide random cv ent wd) in
  let ent' := snd (collide random cv ent wd) in
  boost (st wd') = Qmin 100 (boost (st wd) + 25) /\
  (boost (st wd) <= 100 -> boost (st wd) <= boost (st wd')) /\
  score (st wd') = (score (st wd) + 500)%Z /\
  Entity.active ent' = false /\
  isBoosting (st wd') = true /\
  log wd' = PlaySound Sound.collect :: log wd.
Proof.
  intros T H B. cbv zeta.
  destruct (collide_orb random cv ent wd H T) as (ps & E & L & A).
  cbv zeta in E, L. rewrite E, L, A, B. proj. rewrite andb_false_r.
  conj; try reflexivity.
  intro U. apply Q.min_glb; lra.
Qed.

(** The theorem on an orb straight ahead of a boosting car with a charge of
    90. *)
Lemma orb_pickup_during_boost_witness :
  Entity.type orbAhead = orb /\
  hits sampleCanvas orbAhead (st (charged 90 true)) = true /\
  isBoosting (st (charged 90 true)) = true /\
  boost (st (fst (collide half sampleCanvas orbAhead (charged 90 true))))
  = Qmin 100 (90 + 25) /\
  isBoosting (st (fst (collide half sampleCanvas orbAhead (charged 90 true))))
  = true /\
  log (fst (collide half sampleCanvas orbAhead (charged 90 true)))
  = [PlaySound Sound.collect].
Proof.
  pose proof (orb_pickup_during_boost half sampleCanvas orbAhead
                (charged 90 true) eq_refl eq_refl eq_refl) as W.
  cbv zeta in W. destruct W as (W1 & _ & _ & _ & W5 & W6).
  split; [reflexivity|]. split; [reflexivity|]. split; [reflexivity|].
  split; [exact W1 | split; [exact W5 | exact W6]].
Defined.

(** ** Further properties *)

(** *** The entity list over one frame *)

Section Entities.
Variable random : nat -> Q.
Variable cv : Canvas.

Lemma collide_entity (ent : Entity.t) (wd : World) :
  snd (collide random cv ent wd) = ent \/
  snd (collide random cv ent wd) = Entity.set_active false ent.
Proof.
  destruct (hits cv ent (st wd)) eqn:H.
  2:{ rewrite (collide_miss _ _ _ _ H). now left. }
  destruct (EntityType_orb_dec (Entity.type ent)) as [T|T].
  - destruct (collide_orb random cv ent wd H T) as (ps & _ & _ & E). now right.
  - destruct (isBoosting (st wd)) eqn:B.
    + destruct (collide_smash random cv ent wd H T B) as (ps & _ & _ & E).
      now right.
    + destruct (collide_crash random cv ent wd H T B) as (ps & _ & _ & E).
      now left.
Qed.

(** A turn of the entity loop that keeps its entity keeps it moved, active
    and not more than 100 rows below the canvas. *)
Lemma entityStep_some (dt sm : Q) (ent e' : Entity.t) (wd : World) :
  snd (entityStep random cv dt sm ent wd) = Some e' ->
  e' = moved cv (speed (st wd)) sm dt ent /\
  Entity.active e' = true /\ Entity.y e' <= height cv + 100.
Proof.
  unfold entityStep. cbv zeta.
  fold (moved cv (speed (st wd)) sm dt ent).
  generalize (moved cv (speed (st wd)) sm dt ent). intro m.
  match goal with
  | |- context [if ?c then collide random cv m wd else _] =>
      destruct c;
      [ pose proof (collide_entity m wd) as C;
        destruct (collide random cv m wd) as [wd1 ent2]
      | ]
  end; proj.
  - destruct C as [-> | ->]; proj.
    + destruct (Qltb (height cv + 100) (Entity.y m)) eqn:Y; cbn [Datatypes.orb negb].
      * discriminate.
      * destruct (Entity.active m) eqn:A; cbn [negb]; [|discriminate].
        intro E; injection E as <-. apply Qltb_ge in Y. tauto.
    + rewrite orb_true_r. discriminate.
  - destruct (Qltb (height cv + 100) (Entity.y m)) eqn:Y; cbn [Datatypes.orb negb].
    + discriminate.
    + destruct (Entity.active m) eqn:A; cbn [negb]; [|discriminate].
      intro E; injection E as <-. apply Qltb_ge in Y. tauto.
Qed.

(** The entity loop keeps the order of the list: what it returns is the
    list it was given, every entity moved, without those it spliced out. *)
Lemma entityLoop_kept (dt sm : Q) (ents : list Entity.t) (wd : World) :
  let l' := snd (entityLoop random cv dt sm ents wd) in
  kept (moved cv (speed (st wd)) sm dt) ents l' /\
  Forall (fun e => Entity.active e = true /\ Entity.y e <= height cv + 100) l'.
Proof.
  cbv zeta. induction ents as [|ent rest IH]; cbn [entityLoop].
  - split; constructor.
  - pose proof (entityLoop_steady random cv dt sm rest wd) as S.
    destruct (entityLoop random cv dt sm rest wd) as [wd1 rest'].
    proj. destruct IH as [K F].
    destruct S as (_ & S & _).
    pose proof (entityStep_some dt sm ent) as E.
    specialize (fun e' => E e' wd1).
    destruct (entityStep random cv dt sm ent wd1) as [wd2 [e|]]; proj.
    + destruct (E e eq_refl) as (-> & A & Y). rewrite S. split.
      * now constructor.
      * constructor; [|exact F]. rewrite <- S. tauto.
    + split; [now constructor | exact F].
Qed.

(** The two spawning steps, in full. *)
Lemma spawnObstacle_detail (wd : World) :
  exists es n,
    spawnedAt random cv (entityIdCounter (st wd)) es /\
    Forall (fun e => Entity.type e <> orb) es /\
    (es = [] <->
     0.02 * speed (st wd) * (1 + distance (st wd) / 500)
     <= random (rand wd)) /\
    spawnObstacle random cv wd
    = mkWorld (set_entities (entities (st wd) ++ es)
                 (set_entityIdCounter
                    (entityIdCounter (st wd) + Z.of_nat (List.length es))
                    (st wd))) n (log wd).
Proof.
  unfold spawnObstacle, spawnedAt. destruct wd as [s r l].
  unfold Math_random. proj. cbv zeta. proj.
  destruct (Qltb (random r) _) eqn:D; proj.
  - exists [Entity.mk (entityIdCounter s) ((random (S r) * 2 - 1) * 0.9)
              (horizonY cv)
              (if Qltb 0.7 (random (S (S r))) then oil else rock) true],
           (S (S (S r))).
    split; [right; eexists; eexists; reflexivity|].
    split; [constructor; [cbn; destruct (Qltb 0.7 _); discriminate
                         | constructor]|].
    split; [|reflexivity].
    apply Qltb_lt in D. split; [discriminate | intro H; lra].
  - exists [], (S r). split; [now left|]. split; [constructor|].
    apply Qltb_ge in D. split; [tauto|].
    rewrite app_nil_r. cbn [List.length Z.of_nat]. rewrite Z.add_0_r.
    destruct s; reflexivity.
Qed.

Lemma spawnOrb_detail (wd : World) :
  exists es n,
    spawnedAt random cv (entityIdCounter (st wd)) es /\
    Forall (fun e => Entity.type e = orb) es /\
    (es = [] <-> 0.008 <= random (rand wd)) /\
    spawnOrb random cv wd
    = mkWorld (set_entities (entities (st wd) ++ es)
                 (set_entityIdCounter
                    (entityIdCounter (st wd) + Z.of_nat (List.length es))
                    (st wd))) n (log wd).
Proof.
  unfold spawnOrb, spawnedAt. destruct wd as [s r l].
  unfold Math_random. proj. cbv zeta. proj.
  destruct (Qltb (random r) _) eqn:D; proj.
  - eexists; eexists. split; [right; eexists; eexists; reflexivity|].
    split; [repeat constructor|]. split; [|reflexivity].
    apply Qltb_lt in D. split; [discriminate | intro H; lra].
  - exists [], (S r). split; [now left|]. split; [constructor|].
    apply Qltb_ge in D. split; [tauto|].
    rewrite app_nil_r. cbn [List.length Z.of_nat]. rewrite Z.add_0_r.
    destruct s; reflexivity.
Qed.

End Entities.

Lemma drained_entities (dt : Q) (s : State) :
  entities (drained dt s) = entities s /\
  entityIdCounter (drained dt s) = entityIdCounter s.
Proof.
  unfold drained. destruct (isBoosting s); [|tauto].
  destruct (Qle_bool _ 0); proj; tauto.
Qed.

Lemma kinematics_counter (ctl : ControlState) (dt m : Q) (s : State) :
  entityIdCounter (kinematics ctl dt m s) = entityIdCounter s.
Proof.
  unfold kinematics.
  destruct (speedUpdate_spec (throttle ctl) dt m s) as [v ->].
  destruct (worldMovement_spec (steering ctl) dt
              (playerXUpdate (steering ctl) dt
                 (set_speed (Qmax 0 (Qmin m v)) s))) as (ro & bg & ->).
  destruct (playerXUpdate_spec (steering ctl) dt
              (set_speed (Qmax 0 (Qmin m v)) s)) as [-> | [u ->]];
    reflexivity.
Qed.

Lemma stamped_counter (timestamp : Q) (s : State) :
  entityIdCounter (stamped timestamp s) = entityIdCounter s /\
  roadOffset (stamped timestamp s) = roadOffset s /\
  bgOffset (stamped timestamp s) = bgOffset s.
Proof.
  unfold stamped, stampFirst.
  destruct (Qeq_bool (lastTime s) 0); proj; conj; reflexivity.
Qed.

Lemma drained_isBoosting (dt : Q) (s : State) :
  isBoosting (drained dt s) = boostLasts dt s.
Proof.
  unfold drained, boostLasts, Qltb. destruct (isBoosting s) eqn:B; [|exact B].
  destruct (Qle_bool _ 0); proj; [reflexivity | exact B].
Qed.

Lemma speedMultiplierOf_steps (ctl : ControlState) (dt m : Q) (s : State) :
  speedMultiplierOf
    (playerXUpdate (steering ctl) dt (speedUpdate (throttle ctl) dt m s))
  = (if isBoosting s then 1500 else 1000).
Proof.
  destruct (speedUpdate_spec (throttle ctl) dt m s) as [v ->].
  destruct (playerXUpdate_spec (steering ctl) dt
              (set_speed (Qmax 0 (Qmin m v)) s)) as [-> | [u ->]];
    reflexivity.
Qed.

(** The entity list a pass through the update block leaves: the entities it
    found and the ones it spawned, an obstacle first and an orb second,
    moved by the entity loop, without those the loop removed. *)
Lemma update_entities (random : nat -> Q) (cv : Canvas) (ctl : ControlState)
  (dt : Q) (wd : World) :
  let s := st wd in
  let s' := st (update random cv ctl dt wd) in
  let sm := if boostLasts dt s then 1500 else 1000 in
  exists es1 es2,
    spawnedAt random cv (entityIdCounter s) es1 /\
    Forall (fun e => Entity.type e <> orb) es1 /\
    spawnedAt random cv
      (entityIdCounter s + Z.of_nat (List.length es1)) es2 /\
    Forall (fun e => Entity.type e = orb) es2 /\
    (exists k1,
       es1 = [] <->
       0.02 * speed s' * (1 + distance s' / 500) <= random k1) /\
    (exists k2, es2 = [] <-> 0.008 <= random k2) /\
    kept (moved cv (speed s') sm dt) (entities s ++ es1 ++ es2) (entities s') /\
    Forall (fun e => Entity.active e = true /\ Entity.y e <= height cv + 100)
      (entities s') /\
    entityIdCounter s'
    = (entityIdCounter s + Z.of_nat (List.length es1)
       + Z.of_nat (List.length es2))%Z.
Proof.
  cbv zeta. rewrite update_unfold.
  destruct (boostLogic_spec random cv dt wd) as (ps & n & ->).
  cbv zeta. cbn [fst snd st rand log].
  generalize (st wd). intro s0.
  rewrite speedMultiplierOf_steps. proj. rewrite drained_isBoosting.
  generalize (if boostLasts dt s0 then 1500 else 1000). intro sm.
  destruct (kinematics_facts ctl dt (maxSpeedOf s0)
              (set_particles (particles s0 ++ ps) (drained dt s0)))
    as (_ & _ & _ & _ & _ & _ & _ & _ & K9).
  pose proof (kinematics_counter ctl dt (maxSpeedOf s0)
              (set_particles (particles s0 ++ ps) (drained dt s0))) as K10.
  generalize dependent
    (kinematics ctl dt (maxSpeedOf s0)
       (set_particles (particles s0 ++ ps) (drained dt s0))).
  intros k K9 K10; proj.
  destruct (drained_entities dt s0) as [D1 D2]; rewrite D1 in K9;
       rewrite D2 in K10.
  destruct (spawnObstacle_detail random cv (mkWorld k n (log wd)))
    as (es1 & n1 & S1 & O1 & R1 & ->).
  cbn [st rand log] in *.
  match goal with
  | |- context [spawnOrb random cv ?w] =>
      destruct (spawnOrb_detail random cv w) as (es2 & n2 & S2 & O2 & R2 & ->)
  end.
  proj.
  unfold entityUpdates; cbn [st].
  match goal with
  | |- context [entityLoop random cv dt sm ?l ?w] =>
      pose proof (entityLoop_kept random cv dt sm l w) as K;
      pose proof (entityLoop_steady random cv dt sm l w) as S;
      destruct (entityLoop random cv dt sm l w) as [wd1 ents]
  end.
  cbv zeta in K; proj. 
  destruct K as [K F].
  destruct S as (_ & A2 & _ & A4 & _ & _ & A7 & _).
  unfold particleUpdates; proj.
  rewrite A2, A4, A7; proj.
  rewrite K9, K10 in *.
  exists es1, es2.
  rewrite <- app_assoc in K.
  conj; try assumption; try reflexivity; try tauto.
  - now exists n.
  - now exists n1.
Qed.

(** *** What [kept] hands down *)

Lemma kept_Forall (f : Entity.t -> Entity.t) (P Q : Entity.t -> Prop)
  (l l' : list Entity.t) :
  (forall e, P e -> Q (f e)) -> kept f l l' -> Forall P l -> Forall Q l'.
Proof.
  intros PQ K. induction K as [|e l l' K IH|e l l' K IH]; intro F.
  - constructor.
  - inversion F; subst. constructor; auto.
  - inversion F; subst. auto.
Qed.

Lemma kept_In (f : Entity.t -> Entity.t) (l l' : list Entity.t)
  (e' : Entity.t) :
  kept f l l' -> In e' l' -> exists e, In e l /\ e' = f e.
Proof.
  intro K. induction K as [|e l l' K IH|e l l' K IH]; intro I.
  - destruct I.
  - destruct I as [<- | I].
    + exists e. split; [now left | reflexivity].
    + destruct (IH I) as (e0 & I0 & E). exists e0. split; [now right | exact E].
  - destruct (IH I) as (e0 & I0 & E). exists e0. split; [now right | exact E].
Qed.


Lemma kept_sorted (f : Entity.t -> Entity.t) (l l' : list Entity.t) :
  (forall e, Entity.id (f e) = Entity.id e) -> kept f l l' ->
  StronglySorted Z.lt (map Entity.id l) ->
  StronglySorted Z.lt (map Entity.id l').
Proof.
  intros ID K. induction K as [|e l l' K IH|e l l' K IH]; cbn [map]; intro S.
  - constructor.
  - apply StronglySorted_inv in S. destruct S as [S F].
    rewrite ID. constructor; [now apply IH|].
    apply Forall_map. apply (proj1 (Forall_map _ _ _)) in F.
    apply (kept_Forall f (fun x => (Entity.id e < Entity.id x)%Z)
             (fun x => (Entity.id e < Entity.id x)%Z) l l'); try assumption.
    intros x H. now rewrite ID.
  - apply StronglySorted_inv in S. destruct S as [S F]. now apply IH.
Qed.

Lemma sorted_snoc (l : list Z) (a : Z) :
  StronglySorted Z.lt l -> Forall (fun x => (x < a)%Z) l ->
  StronglySorted Z.lt (l ++ [a]).
Proof.
  induction l as [|b l IH]; cbn [app]; intros S F.
  - repeat constructor.
  - apply StronglySorted_inv in S. destruct S as [S B].
    inversion F; subst. constructor; [now apply IH|].
    apply Forall_app. split; [exact B | now repeat constructor].
Qed.

(** What was spawned at counter [c] is at most one entity, active, on the
    horizon, with identifier [c]. *)
Lemma spawnedAt_facts (random : nat -> Q) (cv : Canvas) (c : Z)
  (es : list Entity.t) :
  spawnedAt random cv c es ->
  (List.length es <= 1)%nat /\
  Forall (fun e => Entity.id e = c /\ Entity.y e = horizonY cv /\
                   Entity.active e = true /\
                   exists k, Entity.x e = (random k * 2 - 1) * 0.9) es.
Proof.
  intros [-> | (k & ty & ->)].
  - split; [cbn; lia | constructor].
  - split; [cbn; lia|]. constructor; [|constructor].
    cbn. conj; try reflexivity. now exists k.
Qed.

Lemma moved_same (cv : Canvas) (v sm dt : Q) (e : Entity.t) :
  Entity.id (moved cv v sm dt e) = Entity.id e /\
  Entity.x (moved cv v sm dt e) = Entity.x e /\
  Entity.type (moved cv v sm dt e) = Entity.type e /\
  Entity.active (moved cv v sm dt e) = Entity.active e.
Proof. unfold moved. proj. tauto. Qed.

(** The entities of a frame in the PLAYING phase, from the entities of the
    frame before. *)
Lemma frame_entities (random : nat -> Q) (cv : Canvas) (ctl : ControlState)
  (timestamp : Q) (s : State) :
  let dt := frameDt timestamp s in
  let s' := state_of (gameLoop random cv PLAYING ctl timestamp s) in
  let sm := if boostLasts dt s then 1500 else 1000 in
  exists es1 es2,
    spawnedAt random cv (entityIdCounter s) es1 /\
    Forall (fun e => Entity.type e <> orb) es1 /\
    spawnedAt random cv
      (entityIdCounter s + Z.of_nat (List.length es1)) es2 /\
    Forall (fun e => Entity.type e = orb) es2 /\
    (exists k1,
       es1 = [] <->
       0.02 * speed s' * (1 + distance s' / 500) <= random k1) /\
    (exists k2, es2 = [] <-> 0.008 <= random k2) /\
    kept (moved cv (speed s') sm dt) (entities s ++ es1 ++ es2) (entities s') /\
    Forall (fun e => Entity.active e = true /\ Entity.y e <= height cv + 100)
      (entities s') /\
    entityIdCounter s'
    = (entityIdCounter s + Z.of_nat (List.length es1)
       + Z.of_nat (List.length es2))%Z.
Proof.
  cbv zeta. rewrite gameLoop_playing.
  destruct (update_entities random cv ctl (frameDt timestamp s)
              (mkWorld (stamped timestamp s) O []))
    as (es1 & es2 & H).
  cbn [st] in H.
  destruct (stamped_same timestamp s)
    as (_ & _ & _ & _ & E5 & E6 & E7 & _).
  destruct (stamped_counter timestamp s) as (E10 & _).
  assert (B : boostLasts (frameDt timestamp s) (stamped timestamp s)
              = boostLasts (frameDt timestamp s) s)
    by (unfold boostLasts; now rewrite E5, E6).
  rewrite B, E7, E10 in H.
  exists es1, es2. exact H.
Qed.

Lemma frame_speed_nonneg (random : nat -> Q) (cv : Canvas)
  (ctl : ControlState) (timestamp : Q) (s : State) :
  0 <= speed (state_of (gameLoop random cv PLAYING ctl timestamp s)) <= 2.5.
Proof.
  rewrite gameLoop_playing.
  destruct (update_facts random cv ctl (frameDt timestamp s)
              (mkWorld (stamped timestamp s) O [])) as ((v & U1) & _).
  cbn [st] in U1. rewrite U1.
  pose proof (maxSpeedOf_range (stamped timestamp s)) as M.
  pose proof (clamped_speed (maxSpeedOf (stamped timestamp s)) v) as C.
  lra.
Qed.



Lemma plainRowsb_sound (s : State) : plainRowsb s = true -> plainRows s.
Proof.
  unfold plainRowsb, plainRows. intro H. apply Forall_forall. intros e I.
  apply (proj1 (forallb_forall _ _) H) in I. now apply Qle_bool_iff.
Qed.

(** X1: the entity list after a frame in the PLAYING phase, on a canvas
    between 1 and 100000 pixels high, with a clock that does not run
    backwards, entities on rows of magnitude up to 1e300 and an identifier
    counter of magnitude up to 10^15.  The frame spawns at most one rock or oil patch and then at most one orb, each
    active, on the horizon row, the obstacle under the identifier the
    counter stands at and the orb under the next one that is free; the
    counter goes up by the number spawned.  The list the frame leaves is
    the list it found with the obstacle and then the orb at its end, every
    entity moved by [speed * speedMultiplier * dt * (0.1 + 2 * progress)]
    with the new speed, [speedMultiplier] being 1000 or 1500 (1000 when the
    frame began outside a boost), without the entities the loop removed, in
    the same order; those left are active and not lower than 100 rows
    below the canvas (100.001, to allow for the rounding of
    [h + 100]). *)
Theorem entities_after_a_frame (random : nat -> Q) (cv : Canvas)
  (ctl : ControlState) (timestamp : Q) (s : State) :
  1 <= height cv <= 100000 -> lastTime s <= timestamp -> plainRows s ->
  counted (entityIdCounter s) ->
  let dt := frameDt timestamp s in
  let s' := state_of (gameLoop random cv PLAYING ctl timestamp s) in
  exists obstacle orbs sm,
    spawnedAt random cv (entityIdCounter s) obstacle /\
    Forall (fun e => Entity.type e <> orb) obstacle /\
    spawnedAt random cv
      (entityIdCounter s + Z.of_nat (List.length obstacle)) orbs /\
    Forall (fun e => Entity.type e = orb) orbs /\
    (sm = 1000 \/ sm = 1500) /\
    (isBoosting s = false -> sm = 1000) /\
    kept (moved cv (speed s') sm dt) (entities s ++ obstacle ++ orbs)
      (entities s') /\
    Forall (fun e => Entity.active e = true /\
                     Entity.y e <= height cv + 100.001)
      (entities s') /\
    entityIdCounter s'
    = (entityIdCounter s + Z.of_nat (List.length obstacle)
       + Z.of_nat (List.length orbs))%Z.
Proof.
  intros _ _ _ _. cbv zeta.
  destruct (frame_entities random cv ctl timestamp s)
    as (es1 & es2 & S1 & O1 & S2 & O2 & _ & _ & K & F & C).
  cbv zeta in K, F, C.
  exists es1, es2,
    (if boostLasts (frameDt timestamp s) s then 1500 else 1000).
  conj; try assumption.
  - destruct (boostLasts _ s); [now right | now left].
  - intro B. unfold boostLasts. now rewrite B.
  - eapply Forall_impl; [|exact F]. cbn beta. intros e [A Y].
    split; [exact A | lra].
Qed.

(** The theorem at a frame of [threeAhead] in which a rock and an orb are
    spawned: the orb that was ahead is collected and leaves the list, the
    two rocks stay in their order, the rock spawned takes the identifier 4
    and the orb spawned the identifier 5, and the counter goes from 4 to
    6. *)
Lemma entities_after_a_frame_witness :
  1 <= height sampleCanvas <= 100000 /\ lastTime threeAhead <= 1016 /\
  plainRows threeAhead /\ counted (entityIdCounter threeAhead) /\
  map Entity.id (entities threeAhead) = [1; 2; 3]%Z /\
  map (fun e => (Entity.id e, Entity.type e))
    (entities (state_of (gameLoop bothDraw sampleCanvas PLAYING fullThrottle
                           1016 threeAhead)))
  = [(1, rock); (3, rock); (4, rock); (5, orb)]%Z /\
  entityIdCounter (state_of (gameLoop bothDraw sampleCanvas PLAYING
                               fullThrottle 1016 threeAhead)) = 6%Z /\
  (let s := threeAhead in
   let dt := frameDt 1016 s in
   let s' := state_of (gameLoop bothDraw sampleCanvas PLAYING fullThrottle
                         1016 s) in
   exists obstacle orbs sm,
     spawnedAt bothDraw sampleCanvas (entityIdCounter s) obstacle /\
     Forall (fun e => Entity.type e <> orb) obstacle /\
     spawnedAt bothDraw sampleCanvas
       (entityIdCounter s + Z.of_nat (List.length obstacle)) orbs /\
     Forall (fun e => Entity.type e = orb) orbs /\
     (sm = 1000 \/ sm = 1500) /\
     (isBoosting s = false -> sm = 1000) /\
     kept (moved sampleCanvas (speed s') sm dt)
       (entities s ++ obstacle ++ orbs) (entities s') /\
     Forall (fun e => Entity.active e = true /\
                      Entity.y e <= height sampleCanvas + 100.001)
       (entities s') /\
     entityIdCounter s'
     = (entityIdCounter s + Z.of_nat (List.length obstacle)
        + Z.of_nat (List.length orbs))%Z).
Proof.
  assert (H1 : 1 <= height sampleCanvas <= 100000) by (cbn; lra).
  assert (H2 : lastTime threeAhead <= 1016) by (cbn; lra).
  assert (H3 : plainRows threeAhead)
    by (apply plainRowsb_sound; vm_compute; reflexivity).
  assert (H4 : counted (entityIdCounter threeAhead))
    by (apply Z.leb_le; vm_compute; reflexivity).
  split; [exact H1|]. split; [exact H2|]. split; [exact H3|].
  split; [exact H4|].
  split; [reflexivity|].
  split; [vm_compute; reflexivity|]. split; [vm_compute; reflexivity|].
  exact (entities_after_a_frame bothDraw sampleCanvas fullThrottle 1016
           threeAhead H1 H2 H3 H4).
Defined.

(** One frame keeps the identifiers in order. *)
Lemma frame_idsOK (i : FrameInput) (s : State) : idsOK s -> idsOK (frame i s).
Proof.
  intros (C0 & S0 & F0).
  destruct i as [random cv gs ctl timestamp]. unfold frame.
  cbn [in_random in_canvas in_phase in_control in_time].
  destruct (stamped_same timestamp s)
    as (_ & _ & _ & _ & _ & _ & E7 & _).
  destruct (stamped_counter timestamp s) as (E10 & _).
  destruct gs.
  1,3: rewrite gameLoop_idle by congruence; cbn [state_of]; unfold idsOK;
       rewrite E7, E10; tauto.
  destruct (frame_entities random cv ctl timestamp s)
    as (es1 & es2 & S1 & _ & S2 & _ & _ & _ & K & _ & C).
  cbv zeta in K, C.
  destruct (spawnedAt_facts _ _ _ _ S1) as [L1 F1].
  destruct (spawnedAt_facts _ _ _ _ S2) as [L2 F2].
  generalize dependent
    (state_of (gameLoop random cv PLAYING ctl timestamp s)).
  intros s' K C.
  assert (SF : StronglySorted Z.lt (map Entity.id (entities s ++ es1 ++ es2))
               /\ Forall (fun e => (0 <= Entity.id e < entityIdCounter s')%Z)
                    (entities s ++ es1 ++ es2)).
  { rewrite C. clear K C S1 S2.
    destruct es1 as [|a [|? ?]]; [| |cbn in L1; lia];
      destruct es2 as [|b [|? ?]]; try (cbn in L2; lia);
      cbn [List.length Z.of_nat app] in *;
      repeat match goal with
             | H : Forall _ (_ :: _) |- _ => inversion H; subst; clear H
             | H : Forall _ [] |- _ => clear H
             | H : _ /\ _ |- _ => destruct H
             end.
    - rewrite app_nil_r. split; [exact S0|].
      eapply Forall_impl; [|exact F0]. cbn beta. intros; lia.
    - rewrite map_app. cbn [map]. split.
      + apply sorted_snoc; [exact S0|].
        apply Forall_map. eapply Forall_impl; [|exact F0].
        cbn beta. intros; lia.
      + apply Forall_app. split.
        * eapply Forall_impl; [|exact F0]. cbn beta. intros; lia.
        * constructor; [lia | constructor].
    - rewrite map_app. cbn [map]. split.
      + apply sorted_snoc; [exact S0|].
        apply Forall_map. eapply Forall_impl; [|exact F0].
        cbn beta. intros; lia.
      + apply Forall_app. split.
        * eapply Forall_impl; [|exact F0]. cbn beta. intros; lia.
        * constructor; [lia | constructor].
    - change (entities s ++ [a; b]) with (entities s ++ [a] ++ [b]).
      rewrite app_assoc, !map_app. cbn [map]. split.
      + apply sorted_snoc; [apply sorted_snoc; [exact S0|]|].
        * apply Forall_map. eapply Forall_impl; [|exact F0].
          cbn beta. intros; lia.
        * apply Forall_app. split.
          -- apply Forall_map. eapply Forall_impl; [|exact F0].
             cbn beta. intros; lia.
          -- constructor; [lia | constructor].
      + rewrite <- app_assoc. apply Forall_app. split.
        * eapply Forall_impl; [|exact F0]. cbn beta. intros; lia.
        * constructor; [lia | constructor; [lia | constructor]]. }
  destruct SF as [SS FF].
  unfold idsOK. split; [|split].
  - pose proof (Zle_0_nat (List.length es1)).
    pose proof (Zle_0_nat (List.length es2)). lia.
  - eapply kept_sorted; [|exact K | exact SS].
    intro e. apply moved_same.
  - eapply kept_Forall; [|exact K | exact FF].
    cbn beta. intros e H.
    destruct (moved_same cv (speed s')
                (if boostLasts (frameDt timestamp s) s then 1500 else 1000)
                (frameDt timestamp s) e) as (-> & _).
    exact H.
Qed.

Lemma sorted_NoDup (l : list Z) : StronglySorted Z.lt l -> NoDup l.
Proof.
  induction l as [|a l IH]; intro S; constructor.
  - apply StronglySorted_inv in S. destruct S as [_ F].
    rewrite Forall_forall in F. intro I. specialize (F a I). lia.
  - apply IH. now apply StronglySorted_inv in S.
Qed.

(** X2: whatever frames are played after the mount, with any clock, phases,
    canvases, controls and draws, the identifiers of the entities in the
    list are pairwise different, increase along the list, and lie between 0
    and the counter, which is never negative. *)
Theorem entity_ids_are_unique (frames : list FrameInput) :
  let s := play frames initialState in
  idsOK s /\ NoDup (map Entity.id (entities s)).
Proof.
  cbv zeta.
  assert (I : idsOK (play frames initialState)).
  { assert (I0 : idsOK initialState)
      by (unfold idsOK; cbn; repeat constructor; discriminate).
    revert I0. generalize initialState.
    induction frames as [|i rest IH]; intros s I0; cbn [play].
    - exact I0.
    - apply IH. now apply frame_idsOK. }
  split; [exact I|]. apply sorted_NoDup. apply I.
Qed.

Lemma frame_onRoad (i : FrameInput) (s : State) :
  unitDraws i -> Forall onRoad (entities s) ->
  Forall onRoad (entities (frame i s)).
Proof.
  intros U F.
  destruct i as [random cv gs ctl timestamp]. unfold frame, unitDraws in *.
  cbn [in_random in_canvas in_phase in_control in_time] in *.
  destruct (stamped_same timestamp s)
    as (_ & _ & _ & _ & _ & _ & E7 & _).
  destruct gs.
  1,3: rewrite gameLoop_idle by congruence; cbn [state_of];
       rewrite E7; exact F.
  destruct (frame_entities random cv ctl timestamp s)
    as (es1 & es2 & S1 & _ & S2 & _ & _ & _ & K & _).
  cbv zeta in K.
  eapply kept_Forall; [|exact K|].
  - unfold onRoad. intros e H.
    match goal with
    | |- context [moved ?a ?b ?c ?d e] =>
        destruct (moved_same a b c d e) as (_ & -> & _)
    end.
    exact H.
  - assert (G : forall c es, spawnedAt random cv c es -> Forall onRoad es).
    { intros c es [-> | (k & ty & ->)]; constructor; [|constructor].
      unfold onRoad. cbn. specialize (U k). lra. }
    repeat (apply Forall_app; split); eauto.
Qed.

(** X3: in a game played from the mount, with draws between 0 and 1, every
    entity in the list has a lateral position between -0.9 and 0.9: the
    entities are spawned there and never moved sideways. *)
Theorem entities_stay_within_the_road (frames : list FrameInput) :
  Forall unitDraws frames ->
  Forall onRoad (entities (play frames initialState)).
Proof.
  assert (I0 : Forall onRoad (entities initialState)) by constructor.
  revert I0. generalize initialState.
  induction frames as [|i rest IH]; intros s I0 U; cbn [play].
  - exact I0.
  - inversion U; subst. apply IH; [|assumption]. now apply frame_onRoad.
Qed.

(** The theorem at a game of three frames that spawns an orb and a rock. *)
Lemma entities_stay_within_the_road_witness :
  Forall unitDraws
    (crashRun ++ [mkInput rockDraw lowCanvas PLAYING fullThrottle 600]) /\
  Forall onRoad
    (entities
       (play (crashRun ++ [mkInput rockDraw lowCanvas PLAYING fullThrottle 600])
          initialState)).
Proof.
  assert (U : Forall unitDraws
                (crashRun
                 ++ [mkInput rockDraw lowCanvas PLAYING fullThrottle 600])).
  { repeat constructor; cbn; unfold sideOrbDraw, half, rockDraw;
      destruct k as [|[|[|k]]]; lra. }
  split; [exact U|].
  apply (entities_stay_within_the_road _ U).
Defined.






(** X6: while the car is at rest the road is at rest.  On a canvas at
    least one pixel high, with a clock that does not run backwards,
    entities on rows of magnitude up to 1e300 and draws that are not
    negative: when a frame in the PLAYING phase leaves the speed at 0 it
    spawns no rock and no oil patch, and every entity that was in the list
    before is on the row it was on; the only other entity the list can
    hold is an orb spawned on the horizon row. *)
Theorem at_rest_nothing_moves (random : nat -> Q) (cv : Canvas)
  (ctl : ControlState) (timestamp : Q) (s : State) :
  let s' := state_of (gameLoop random cv PLAYING ctl timestamp s) in
  1 <= height cv -> lastTime s <= timestamp -> plainRows s ->
  (forall k, 0 <= random k) -> speed s' == 0 ->
  forall e', In e' (entities s') ->
    (exists e, In e (entities s) /\ Entity.id e' = Entity.id e /\
               Entity.y e' == Entity.y e) \/
    (Entity.type e' = orb /\ Entity.y e' == horizonY cv /\
     (entityIdCounter s <= Entity.id e')%Z).
Proof.
  cbv zeta. intros _ _ _ R V e' I.
  destruct (frame_entities random cv ctl timestamp s)
    as (es1 & es2 & S1 & _ & S2 & O2 & (k1 & R1) & _ & K & _ & C).
  cbv zeta in K, C, R1.
  assert (es1 = []) as ->.
  { apply R1. rewrite V. specialize (R k1). lra. }
  cbn [app List.length Z.of_nat] in *.
  destruct (kept_In _ _ _ _ K I) as (e & Ie & ->).
  assert (Y : forall sm dt,
            Entity.y (moved cv
              (speed (state_of (gameLoop random cv PLAYING ctl timestamp s)))
              sm dt e) == Entity.y e).
  { intros sm dt. unfold moved. proj. rewrite V. ring. }
  match goal with
  | |- context [moved ?a ?b ?c ?d e] =>
      destruct (moved_same a b c d e) as (G1 & _ & G3 & _)
  end.
  apply in_app_or in Ie. destruct Ie as [Ie|Ie].
  - left. exists e. split; [exact Ie|]. split; [exact G1 | apply Y].
  - right. destruct (spawnedAt_facts _ _ _ _ S2) as [_ F2].
    rewrite Forall_forall in F2, O2.
    destruct (F2 e Ie) as (H1 & H2 & _).
    rewrite G3, G1, Y, H1, H2.
    split; [now apply O2|]. split; [reflexivity | lia].
Qed.

(** The theorem at a frame of [orbOnHorizon], a game at rest with the
    throttle released, in which a second orb is spawned: the frame leaves
    two orbs on row 280. *)
Lemma at_rest_nothing_moves_witness :
  1 <= height sampleCanvas /\ lastTime orbOnHorizon <= 1016 /\
  plainRows orbOnHorizon /\ (forall k, 0 <= orbDraw k) /\
  speed (state_of (gameLoop orbDraw sampleCanvas PLAYING handsOff 1016
                     orbOnHorizon)) == 0 /\
  map Entity.id
    (entities (state_of (gameLoop orbDraw sampleCanvas PLAYING handsOff 1016
                           orbOnHorizon))) = [0; 1]%Z /\
  forall e',
    In e' (entities (state_of (gameLoop orbDraw sampleCanvas PLAYING
                                 handsOff 1016 orbOnHorizon))) ->
    (exists e, In e (entities orbOnHorizon) /\ Entity.id e' = Entity.id e /\
               Entity.y e' == Entity.y e) \/
    (Entity.type e' = orb /\ Entity.y e' == horizonY sampleCanvas /\
     (entityIdCounter orbOnHorizon <= Entity.id e')%Z).
Proof.
  assert (H1 : 1 <= height sampleCanvas) by (cbn; lra).
  assert (H2 : lastTime orbOnHorizon <= 1016) by (cbn; lra).
  assert (H3 : plainRows orbOnHorizon)
    by (apply plainRowsb_sound; vm_compute; reflexivity).
  assert (H4 : forall k, 0 <= orbDraw k).
  { intro k. unfold orbDraw. destruct (Nat.eqb k 1); lra. }
  assert (H5 : speed (state_of (gameLoop orbDraw sampleCanvas PLAYING
                                  handsOff 1016 orbOnHorizon)) == 0).
  { apply Qeq_bool_iff. vm_compute. reflexivity. }
  split; [exact H1|]. split; [exact H2|]. split; [exact H3|].
  split; [exact H4|]. split; [exact H5|].
  split; [vm_compute; reflexivity|].
  exact (at_rest_nothing_moves orbDraw sampleCanvas handsOff 1016
           orbOnHorizon H1 H2 H3 H4 H5).
Defined.

(** *** Invariants of the entity loop and of the update block *)

Section LoopInvariant.
Variable random : nat -> Q.
Variable cv : Canvas.
Variable I : World -> Prop.
Hypothesis I_collide :
  forall ent wd, I wd -> I (fst (collide random cv ent wd)).

Lemma entityStep_inv (dt sm : Q) (ent : Entity.t) (wd : World) :
  I wd -> I (fst (entityStep random cv dt sm ent wd)).
Proof.
  intro H. unfold entityStep. cbv zeta.
  match goal with
  | |- context [if ?c then collide random cv ?e wd else _] =>
      destruct c;
      [ pose proof (I_collide e wd H) as S;
        destruct (collide random cv e wd) as [wd1 ent2]
      | ]
  end.
  - proj. destruct (_ || _); exact S.
  - destruct (_ || _); exact H.
Qed.

Lemma entityLoop_inv (dt sm : Q) (ents : list Entity.t) (wd : World) :
  I wd -> I (fst (entityLoop random cv dt sm ents wd)).
Proof.
  intro H. induction ents as [|ent rest IH]; cbn [entityLoop].
  - exact H.
  - destruct (entityLoop random cv dt sm rest wd) as [wd1 rest'].
    pose proof (entityStep_inv dt sm ent wd1 IH) as S.
    destruct (entityStep random cv dt sm ent wd1) as [wd2 r].
    exact S.
Qed.

(** An invariant of the collision logic that reads only the gauge, the
    boost flag and the calls made holds after the update block if it holds
    after the drain. *)
Hypothesis I_reads :
  forall wd wd', sameBoost wd wd' -> I wd -> I wd'.

Lemma update_inv (ctl : ControlState) (dt : Q) (wd : World) :
  I (mkWorld (drained dt (st wd)) O (log wd)) ->
  I (update random cv ctl dt wd).
Proof.
  intro H. rewrite update_unfold.
  destruct (boostLogic_spec random cv dt wd) as (ps & n & ->).
  cbv zeta. cbn [fst snd st rand log].
  generalize (speedMultiplierOf
     (playerXUpdate (steering ctl) dt
        (speedUpdate (throttle ctl) dt (maxSpeedOf (st wd))
           (set_particles (particles (st wd) ++ ps) (drained dt (st wd)))))).
  intro sm.
  destruct (kinematics_facts ctl dt (maxSpeedOf (st wd))
              (set_particles (particles (st wd) ++ ps) (drained dt (st wd))))
    as (_ & _ & K3 & K4 & _).
  generalize dependent
    (kinematics ctl dt (maxSpeedOf (st wd))
       (set_particles (particles (st wd) ++ ps) (drained dt (st wd)))).
  intros k K3 K4. proj.
  destruct (spawnObstacle_spec random cv (mkWorld k n (log wd)))
    as (es1 & c1 & n1 & ->).
  cbn [st rand log].
  match goal with
  | |- context [spawnOrb random cv ?w] =>
      destruct (spawnOrb_spec random cv w) as (es2 & c2 & n2 & ->)
  end.
  cbn [st rand log]. unfold entityUpdates. cbn [st].
  match goal with
  | |- context [entityLoop random cv dt sm ?l ?w] =>
      assert (H6 : I w)
        by (revert H; apply I_reads; unfold sameBoost; proj; tauto);
      pose proof (entityLoop_inv dt sm l w H6) as L;
      destruct (entityLoop random cv dt sm l w) as [wd1 ents]
  end.
  proj. revert L. apply I_reads. unfold sameBoost, particleUpdates. proj.
  tauto.
Qed.

End LoopInvariant.

(** *** The gauge of the boost *)

Lemma refill_below (b : Q) :
  b + 25 <= 100 -> Qmin 100 (b + 25) == b + 25.
Proof. intro H. now apply Q.min_r. Qed.

Lemma collide_boostOK (random : nat -> Q) (cv : Canvas) (ent : Entity.t)
  (wd : World) :
  boostOK (st wd) -> boostOK (st (fst (collide random cv ent wd))).
Proof.
  intro H.
  destruct (hits cv ent (st wd)) eqn:X.
  2:{ rewrite (collide_miss _ _ _ _ X). exact H. }
  destruct (EntityType_orb_dec (Entity.type ent)) as [T|T].
  - destruct (collide_orb random cv ent wd X T) as (ps & E & _).
    cbv zeta in E. rewrite E. clear E. unfold boostOK in *. proj.
    destruct (isBoosting (st wd)); cbn [negb Datatypes.orb].
    + rewrite andb_false_r. split.
      * apply Q.min_glb_lt; lra.
      * apply Q.le_min_l.
    + rewrite andb_true_r.
      destruct (Qle_bool 100 (Qmin 100 (boost (st wd) + 25))) eqn:G.
      * lra.
      * assert (L : ~ 100 <= Qmin 100 (boost (st wd) + 25))
          by (intro L; apply Qle_bool_iff in L; congruence).
        destruct H as [H|[H|[H|H]]].
        -- rewrite refill_below by lra. right; left. lra.
        -- rewrite refill_below by lra. right; right; left. lra.
        -- rewrite refill_below by lra. right; right; right. lra.
        -- exfalso. apply L. rewrite refill_below by lra. lra.
  - destruct (isBoosting (st wd)) eqn:B.
    + destruct (collide_smash random cv ent wd X T B) as (ps & E & _).
      rewrite E. unfold boostOK in *. proj. now rewrite B in *.
    + destruct (collide_crash random cv ent wd X T B) as (ps & E & _).
      rewrite E. unfold boostOK in *. proj. now rewrite B in *.
Qed.

Lemma drained_boostOK (dt : Q) (s : State) :
  0 <= dt -> boostOK s -> boostOK (drained dt s).
Proof.
  intros D H. unfold boostOK, drained in *.
  destruct (isBoosting s) eqn:B; [|now rewrite B].
  destruct (Qle_bool (boost s - 20 * dt) 0) eqn:E; proj.
  - left. reflexivity.
  - rewrite B.
    assert (~ boost s - 20 * dt <= 0)
      by (intro L; apply Qle_bool_iff in L; congruence).
    lra.
Qed.

Lemma frame_boostOK (random : nat -> Q) (cv : Canvas) (gs : GameState)
  (ctl : ControlState) (timestamp : Q) (s : State) :
  lastTime s <= timestamp -> boostOK s ->
  boostOK (state_of (gameLoop random cv gs ctl timestamp s)).
Proof.
  intros T H.
  destruct (stamped_same timestamp s)
    as (_ & _ & _ & _ & E5 & E6 & _).
  assert (H0 : boostOK (stamped timestamp s))
    by (unfold boostOK in *; now rewrite E5, E6).
  destruct gs.
  1,3: rewrite gameLoop_idle by congruence; exact H0.
  rewrite gameLoop_playing.
  apply (update_inv random cv (fun wd => boostOK (st wd))).
  - intros ent wd. apply collide_boostOK.
  - intros wd wd' (S1 & S2 & _). unfold boostOK. now rewrite S1, S2.
  - cbn [st]. apply drained_boostOK; [now apply frameDt_nonneg | exact H0].
Qed.

(** X7: in every state of a mounted game the gauge of the boost agrees with
    the boost flag: during a boost it is above 0 and at most 100, and
    outside a boost it stands at 0, 25, 50 or 75, the fourth orb being the
    one that starts the boost. *)
Theorem boost_gauge_follows_the_flag (s : State) :
  reachable s ->
  (isBoosting s = true -> 0 < boost s <= 100) /\
  (isBoosting s = false ->
   boost s == 0 \/ boost s == 25 \/ boost s == 50 \/ boost s == 75).
Proof.
  intro R.
  assert (H : boostOK s).
  { induction R as [|random cv gs ctl timestamp s R IH T].
    - unfold boostOK. cbn. left. reflexivity.
    - now apply frame_boostOK. }
  unfold boostOK in H. destruct (isBoosting s); split; intro B;
    try discriminate B; exact H.
Qed.

(** The theorem after the two frames of [crashRun]. *)
Lemma boost_gauge_follows_the_flag_witness :
  reachable (play crashRun initialState) /\
  (isBoosting (play crashRun initialState) = true ->
   0 < boost (play crashRun initialState) <= 100) /\
  (isBoosting (play crashRun initialState) = false ->
   boost (play crashRun initialState) == 0 \/
   boost (play crashRun initialState) == 25 \/
   boost (play crashRun initialState) == 50 \/
   boost (play crashRun initialState) == 75).
Proof.
  assert (R : reachable (play crashRun initialState)).
  { apply play_reachable; [vm_compute; reflexivity | apply reach_mount]. }
  split; [exact R|].
  exact (boost_gauge_follows_the_flag (play crashRun initialState) R).
Defined.

(** *** While the boost lasts *)

Section Invincible.
Variable random : nat -> Q.
Variable cv : Canvas.
Variable b0 : Q.
Hypothesis b0_le : b0 <= 100.



End Invincible.



(** *** How a boost starts *)




(** *** The gauge without pickups *)




(** *** The particles *)

Lemma okParticle_spark (x y vx vy : Q) (col : string) (sz : Q) :
  okParticle (Particle.mk x y vx vy 1.0 1.0 col sz).
Proof. unfold okParticle. cbn. lra. Qed.

Lemma collide_okParticles (random : nat -> Q) (cv : Canvas) (ent : Entity.t)
  (wd : World) :
  Forall okParticle (particles (st wd)) ->
  Forall okParticle (particles (st (fst (collide random cv ent wd)))).
Proof.
  intro H. unfold collide. cbv zeta.
  destruct (Qltb _ hitDist); [|exact H].
  destruct (Entity.type ent).
  1,2: destruct (isBoosting (st wd)); cbn [negb].
  all: match goal with
       | |- context [createExplosion ?rnd ?a ?b ?c ?w] =>
           destruct (createExplosion_pushes rnd okParticle a b c w
                       (fun k => okParticle_spark _ _ _ _ _ _))
             as (ps & _ & F & ->)
       end; proj.
  5: destruct (_ && _); proj.
  all: apply Forall_app; split; assumption.
Qed.

Lemma boostLogic_okParticles (random : nat -> Q) (cv : Canvas) (dt : Q)
  (wd : World) :
  Forall okParticle (particles (st wd)) ->
  Forall okParticle (particles (st (snd (boostLogic random cv dt wd)))).
Proof.
  intro H. unfold boostLogic. destruct wd as [s r l]. proj.
  destruct (isBoosting s); [|exact H].
  cbv zeta. unfold Math_random. proj.
  destruct (Qle_bool (boost s - 20 * dt) 0); proj;
    destruct (Qltb 0.5 (random r)); proj; try exact H;
    (apply Forall_app; split; [exact H|]);
    (constructor; [unfold okParticle; cbn; lra | constructor]).
Qed.

Lemma aged_okParticles (dt : Q) (ps : list Particle.t) :
  0 <= dt -> Forall okParticle ps ->
  Forall okParticle (filter alive (map (ageParticle dt) ps)).
Proof.
  intros D F. induction F as [|p ps P F IH]; cbn [map filter].
  - constructor.
  - destruct (alive (ageParticle dt p)) eqn:A; [|exact IH].
    constructor; [|exact IH].
    unfold alive, expired in A. apply negb_true_iff in A.
    assert (~ Particle.life (ageParticle dt p) <= 0)
      by (intro L; apply Qle_bool_iff in L; congruence).
    unfold okParticle, ageParticle in *. cbn in *. lra.
Qed.

Lemma update_okParticles (random : nat -> Q) (cv : Canvas)
  (ctl : ControlState) (dt : Q) (wd : World) :
  0 <= dt -> Forall okParticle (particles (st wd)) ->
  Forall okParticle (particles (st (update random cv ctl dt wd))).
Proof.
  intros D H. rewrite update_unfold. cbv zeta.
  pose proof (boostLogic_okParticles random cv dt wd H) as B.
  generalize dependent (boostLogic random cv dt wd). intros [m wd1] B.
  cbn [fst snd] in *.
  generalize (speedMultiplierOf
     (playerXUpdate (steering ctl) dt
        (speedUpdate (throttle ctl) dt m (st wd1)))).
  intro sm.
  destruct (kinematics_facts ctl dt m (st wd1))
    as (_ & _ & _ & _ & _ & _ & _ & K8 & _).
  generalize dependent (kinematics ctl dt m (st wd1)).
  intros k K8.
  destruct (spawnObstacle_spec random cv (mkWorld k (rand wd1) (log wd1)))
    as (es1 & c1 & n1 & ->).
  cbn [st rand log].
  match goal with
  | |- context [spawnOrb random cv ?w] =>
      destruct (spawnOrb_spec random cv w) as (es2 & c2 & n2 & ->)
  end.
  cbn [st rand log]. unfold entityUpdates. cbn [st].
  match goal with
  | |- context [entityLoop random cv dt sm ?l ?w] =>
      assert (H6 : Forall okParticle (particles (st w)))
        by (proj; now rewrite K8);
      pose proof (entityLoop_inv random cv
                    (fun w0 => Forall okParticle (particles (st w0)))
                    (collide_okParticles random cv) dt sm l w H6) as L;
      destruct (entityLoop random cv dt sm l w) as [wd6 ents]
  end.
  unfold particleUpdates. proj. now apply aged_okParticles.
Qed.

Lemma frame_okParticles (random : nat -> Q) (cv : Canvas) (gs : GameState)
  (ctl : ControlState) (timestamp : Q) (s : State) :
  lastTime s <= timestamp -> Forall okParticle (particles s) ->
  Forall okParticle
    (particles (state_of (gameLoop random cv gs ctl timestamp s))).
Proof.
  intros T H.
  destruct (stamped_same timestamp s)
    as (_ & _ & _ & _ & _ & _ & _ & E8 & _).
  destruct gs.
  1,3: rewrite gameLoop_idle by congruence; cbn [state_of];
       now rewrite E8.
  rewrite gameLoop_playing.
  apply update_okParticles; [now apply frameDt_nonneg|].
  cbn [st]. now rewrite E8.
Qed.

(** X11: in every state of a mounted game every particle has some of its
    life left and not more than it was made with, so that the opacity it is
    drawn with, [life / maxLife], is above 0 and at most 1. *)
Theorem particles_fade_within_their_life (s : State) (p : Particle.t) :
  reachable s -> In p (particles s) ->
  0 < Particle.life p <= Particle.maxLife p /\
  exists alpha,
    drawParticle p
    = DrawParticle (Particle.x p) (Particle.y p) (Particle.size p) alpha
        (Particle.color p) /\
    0 < alpha <= 1.
Proof.
  intros R I.
  assert (H : Forall okParticle (particles s)).
  { clear I. induction R as [|random cv0 gs ctl timestamp s R IH T].
    - constructor.
    - now apply frame_okParticles. }
  rewrite Forall_forall in H. specialize (H p I). unfold okParticle in H.
  split; [exact H|].
  exists (Particle.life p / Particle.maxLife p). split; [reflexivity|].
  split.
  - apply Qlt_shift_div_l; lra.
  - apply Qle_shift_div_r; lra.
Qed.

(** The theorem at the first spark of the explosion of [firstOrb]. *)
Lemma particles_fade_within_their_life_witness :
  reachable firstOrb /\ In (nth 0 (particles firstOrb) lastSpark)
                          (particles firstOrb) /\
  0 < Particle.life (nth 0 (particles firstOrb) lastSpark)
  <= Particle.maxLife (nth 0 (particles firstOrb) lastSpark).
Proof.
  assert (R : reachable firstOrb).
  { apply play_reachable; [vm_compute; reflexivity | apply reach_mount]. }
  assert (I : In (nth 0 (particles firstOrb) lastSpark) (particles firstOrb)).
  { vm_compute. left. reflexivity. }
  split; [exact R|]. split; [exact I|].
  apply (particles_fade_within_their_life firstOrb _ R I).
Defined.

(** X12: an explosion is twenty sparks.  With draws between 0 and 1,
    [createExplosion] pushes exactly twenty particles at the end of the
    list, all at the centre of the explosion, in its colour, with a life of
    1.0 out of 1.0, velocities between -200 and 200 and sizes between 2 and
    7; it takes sixty draws, calls nothing and leaves the rest of the state
    as it is. *)
Theorem an_explosion_is_twenty_sparks (random : nat -> Q) (ex ey : Q)
  (col : string) (wd : World) :
  (forall k, 0 <= random k <= 1) ->
  exists ps,
    List.length ps = 20%nat /\
    Forall (fun p =>
              Particle.x p = ex /\ Particle.y p = ey /\
              Particle.life p = 1.0 /\ Particle.maxLife p = 1.0 /\
              Particle.color p = col /\
              -200 <= Particle.vx p <= 200 /\
              -200 <= Particle.vy p <= 200 /\
              2 <= Particle.size p <= 7) ps /\
    createExplosion random ex ey col wd
    = mkWorld (set_particles (particles (st wd) ++ ps) (st wd))
        (rand wd + 60) (log wd).
Proof.
  intro U. apply createExplosion_pushes.
  intro k. cbn.
  pose proof (U k). pose proof (U (S k)). pose proof (U (S (S k))).
  conj; try reflexivity; lra.
Qed.

(** The theorem at an explosion on the centre line, every draw being 0.5. *)
Lemma an_explosion_is_twenty_sparks_witness :
  (forall k, 0 <= half k <= 1) /\
  exists ps,
    List.length ps = 20%nat /\
    Forall (fun p =>
              Particle.x p = 500 /\ Particle.y p = 700 /\
              Particle.life p = 1.0 /\ Particle.maxLife p = 1.0 /\
              Particle.color p = "#00ffff"%string /\
              -200 <= Particle.vx p <= 200 /\
              -200 <= Particle.vy p <= 200 /\
              2 <= Particle.size p <= 7) ps /\
    createExplosion half 500 700 "#00ffff" (charged 0 false)
    = mkWorld (set_particles (particles (st (charged 0 false)) ++ ps)
                 (st (charged 0 false)))
        (rand (charged 0 false) + 60) (log (charged 0 false)).
Proof.
  assert (U : forall k, 0 <= half k <= 1) by (intro k; unfold half; lra).
  split; [exact U|].
  exact (an_explosion_is_twenty_sparks half 500 700 "#00ffff"
           (charged 0 false) U).
Defined.

(** *** Sparks come with a sound *)




(** *** The reach of the car *)

(** X14: the reach of the car shrinks with the canvas.  On a canvas
    between 1 and 100000 pixels wide, with lateral positions of magnitude
    up to 2, an entity in the collision band hits when its lateral distance
    from the car, times the width of the canvas, is 159 or less, and misses
    when it is 161 or more: a quarter of the width per unit, against the 40
    pixels of [CAR_WIDTH * 0.8]. *)
Theorem the_reach_of_the_car_shrinks_with_the_canvas (cv : Canvas)
  (ent : Entity.t) (s : State) :
  1 <= width cv <= 100000 ->
  Qabs (Entity.x ent) <= 2 -> Qabs (playerX s) <= 2 ->
  (Qabs (Entity.x ent - playerX s) * width cv <= 159 ->
   hits cv ent s = true) /\
  (161 <= Qabs (Entity.x ent - playerX s) * width cv ->
   hits cv ent s = false).
Proof.
  intros [W _] _ _.
  assert (X : forall b, hits cv ent s = b <->
                Qltb (Qabs (Entity.x ent - playerX s) * width cv * (1 # 4))
                  40 = b).
  { intro b. unfold hits.
    unfold entScreenX, centerX, roadWAtPlayer, ROAD_WIDTH_PCT, hitDist,
      CAR_WIDTH.
    assert (E : width cv / 2 + Entity.x ent * (width cv * 0.5 / 2)
                - (width cv / 2 + playerX s * (width cv * 0.5 / 2))
                == (Entity.x ent - playerX s) * (width cv * (1 # 4)))
      by field.
    assert (E' : Qabs (width cv / 2 + Entity.x ent * (width cv * 0.5 / 2)
                       - (width cv / 2 + playerX s * (width cv * 0.5 / 2)))
                 == Qabs (Entity.x ent - playerX s) * width cv * (1 # 4)).
    { rewrite E, Qabs_Qmult.
      rewrite (Qabs_pos (width cv * (1 # 4))) by lra. ring. }
    destruct b.
    - rewrite !Qltb_lt. rewrite E'. split; intro H; lra.
    - rewrite !Qltb_ge. rewrite E'. split; intro H; lra. }
  split; intro H; apply X; [apply Qltb_lt | apply Qltb_ge]; lra.
Qed.

(** The theorem at the car of [threeAhead], on the centre line of a canvas
    1000 pixels wide: the rock straight ahead hits, the rock at lateral 0.9
    misses. *)
Lemma the_reach_of_the_car_shrinks_with_the_canvas_witness :
  1 <= width sampleCanvas <= 100000 /\
  Qabs (Entity.x rockAhead) <= 2 /\ Qabs (Entity.x edgeRock) <= 2 /\
  Qabs (playerX threeAhead) <= 2 /\
  Qabs (Entity.x rockAhead - playerX threeAhead) * width sampleCanvas <= 159
  /\
  161 <= Qabs (Entity.x edgeRock - playerX threeAhead) * width sampleCanvas
  /\
  hits sampleCanvas rockAhead threeAhead = true /\
  hits sampleCanvas edgeRock threeAhead = false.
Proof.
  assert (W : 1 <= width sampleCanvas <= 100000) by (cbn; lra).
  assert (A : Qabs (Entity.x rockAhead) <= 2)
    by (apply Qle_bool_iff; vm_compute; reflexivity).
  assert (B : Qabs (Entity.x edgeRock) <= 2)
    by (apply Qle_bool_iff; vm_compute; reflexivity).
  assert (P : Qabs (playerX threeAhead) <= 2)
    by (apply Qle_bool_iff; vm_compute; reflexivity).
  assert (N : Qabs (Entity.x rockAhead - playerX threeAhead)
              * width sampleCanvas <= 159)
    by (apply Qle_bool_iff; vm_compute; reflexivity).
  assert (F : 161 <= Qabs (Entity.x edgeRock - playerX threeAhead)
                     * width sampleCanvas)
    by (apply Qle_bool_iff; vm_compute; reflexivity).
  split; [exact W|]. split; [exact A|]. split; [exact B|].
  split; [exact P|]. split; [exact N|]. split; [exact F|].
  split.
  - exact (proj1 (the_reach_of_the_car_shrinks_with_the_canvas sampleCanvas
                    rockAhead threeAhead W A P) N).
  - exact (proj2 (the_reach_of_the_car_shrinks_with_the_canvas sampleCanvas
                    edgeRock threeAhead W B P) F).
Defined.

(** *** The motion of the car over one frame *)

Lemma drained_offsets (dt : Q) (s : State) :
  roadOffset (drained dt s) = roadOffset s /\
  bgOffset (drained dt s) = bgOffset s.
Proof.
  unfold drained. destruct (isBoosting s); [|tauto].
  destruct (Qle_bool _ 0); proj; tauto.
Qed.

(** The three pure steps, field by field. *)
Lemma kinematics_exact (ctl : ControlState) (dt m : Q) (s : State) :
  let k := kinematics ctl dt m s in
  speed k
  = Qmax 0
      (Qmin m
         (if Qltb 0.1 (throttle ctl) || isBoosting s
          then speed s
               + (if isBoosting s then 1.0 else throttle ctl) * acceleration * dt
          else speed s - friction * dt)) /\
  playerX k
  = (if Qltb 0.05 (speed k)
     then Qmax (-1.2)
            (Qmin 1.2 (playerX s + steering ctl * steeringSensitivity * dt))
     else playerX s) /\
  roadOffset k
  = roadOffset s + speed k * (if isBoosting s then 1500 else 1000) * dt /\
  bgOffset k = bgOffset s + steering ctl * speed k * 50 * dt.
Proof.
  cbv zeta.
  assert (E1 : speed (kinematics ctl dt m s)
    = Qmax 0
        (Qmin m
           (if Qltb 0.1 (throttle ctl) || isBoosting s
            then speed s
                 + (if isBoosting s then 1.0 else throttle ctl)
                   * acceleration * dt
            else speed s - friction * dt))).
  { destruct s as [px sp ro sc di bo ib en pa lt ec bg].
    unfold kinematics, worldMovement, playerXUpdate, speedUpdate.
    cbv zeta. proj.
    destruct (Qltb 0.1 (throttle ctl) || ib); proj;
      destruct (Qltb 0.05 _); reflexivity. }
  split; [exact E1|]. rewrite E1.
  destruct s as [px sp ro sc di bo ib en pa lt ec bg].
  unfold kinematics, worldMovement, playerXUpdate, speedUpdate,
    speedMultiplierOf.
  cbv zeta. proj.
  destruct (Qltb 0.1 (throttle ctl) || ib); proj;
    destruct (Qltb 0.05 _); proj; conj; reflexivity.
Qed.

(** Where a frame in the PLAYING phase leaves the car. *)
Lemma frame_motion (random : nat -> Q) (cv : Canvas) (ctl : ControlState)
  (timestamp : Q) (s : State) :
  let dt := frameDt timestamp s in
  let s' := state_of (gameLoop random cv PLAYING ctl timestamp s) in
  let b := boostLasts dt s in
  speed s'
  = Qmax 0
      (Qmin (maxSpeedOf s)
         (if Qltb 0.1 (throttle ctl) || b
          then speed s + (if b then 1.0 else throttle ctl) * acceleration * dt
          else speed s - friction * dt)) /\
  playerX s'
  = (if Qltb 0.05 (speed s')
     then Qmax (-1.2)
            (Qmin 1.2 (playerX s + steering ctl * steeringSensitivity * dt))
     else playerX s) /\
  distance s' = distance s + speed s' * dt /\
  roadOffset s' = roadOffset s + speed s' * (if b then 1500 else 1000) * dt /\
  bgOffset s' = bgOffset s + steering ctl * speed s' * 50 * dt /\
  lastTime s' = timestamp.
Proof.
  cbv zeta. rewrite gameLoop_playing.
  generalize (frameDt timestamp s). intro dt.
  destruct (update_facts random cv ctl dt (mkWorld (stamped timestamp s) O []))
    as (_ & _ & _ & _ & U5 & U6 & _).
  revert U5 U6. rewrite update_unfold.
  destruct (boostLogic_spec random cv dt (mkWorld (stamped timestamp s) O []))
    as (ps & n & ->).
  cbv zeta. cbn [fst snd st rand log].
  generalize (speedMultiplierOf
     (playerXUpdate (steering ctl) dt
        (speedUpdate (throttle ctl) dt (maxSpeedOf (stamped timestamp s))
           (set_particles (particles (stamped timestamp s) ++ ps)
              (drained dt (stamped timestamp s)))))).
  intro sm.
  destruct (kinematics_exact ctl dt (maxSpeedOf (stamped timestamp s))
              (set_particles (particles (stamped timestamp s) ++ ps)
                 (drained dt (stamped timestamp s))))
    as (K1 & K2 & K3 & K4).
  generalize dependent
    (kinematics ctl dt (maxSpeedOf (stamped timestamp s))
       (set_particles (particles (stamped timestamp s) ++ ps)
          (drained dt (stamped timestamp s)))).
  intros k K1 K2 K3 K4. proj.
  destruct (spawnObstacle_spec random cv (mkWorld k n []))
    as (es1 & c1 & n1 & ->).
  cbn [st rand log].
  match goal with
  | |- context [spawnOrb random cv ?w] =>
      destruct (spawnOrb_spec random cv w) as (es2 & c2 & n2 & ->)
  end.
  cbn [st rand log].
  match goal with
  | |- context [entityUpdates random cv dt sm ?w] =>
      destruct (entityUpdates_steady random cv dt sm w) as (es & s1 & S & E)
  end.
  unfold with_st. rewrite E. clear E.
  destruct S as (A1 & A2 & A3 & A4 & A5 & A6 & _).
  unfold particleUpdates. proj.
  rewrite A1, A2, A3, A4, A5, A6. intros U5 U6.
  destruct (drained_same dt (stamped timestamp s))
    as (D1 & D2 & _ & _ & _ & _).
  destruct (drained_offsets dt (stamped timestamp s)) as (D7 & D8).
  destruct (stamped_same timestamp s)
    as (E1 & E2 & _ & E4 & E5 & E6 & _ & _ & E9).
  destruct (stamped_counter timestamp s) as (_ & E11 & E12).
  rewrite drained_isBoosting in K1, K3.
  assert (B : boostLasts dt (stamped timestamp s) = boostLasts dt s)
    by (unfold boostLasts; now rewrite E5, E6).
  assert (M : maxSpeedOf (stamped timestamp s) = maxSpeedOf s)
    by (unfold maxSpeedOf; now rewrite E6).
  rewrite B, M, D2, E2 in K1. rewrite D1, E1 in K2.
  rewrite B, D7, E11 in K3. rewrite D8, E12 in K4.
  rewrite E4 in U5. rewrite E9 in U6.
  conj; assumption.
Qed.

(** X15: where a frame in the PLAYING phase leaves the car, with control
    values and a background offset of magnitude up to 1e300 and a clock
    that does not run backwards.  The boost either lasts through the frame or does not: it
    does not outside a boost or when the drain takes the gauge to -0.001 or
    below, and it does when the drain leaves 0.001 or more.  The speed is
    in [0, maxSpeed], with [maxSpeed] read off the boost flag as the frame
    began; it is the speed of the frame before plus [0.8 * dt] when the
    boost lasts, plus [throttle * 0.8 * dt] when it does not and the
    throttle is 0.11 or more, and minus [0.3 * dt] when it does not and
    the throttle is 0.1 or less, clamped to that range.  The lateral
    position is the old one, or the old one moved by [steering * 1.8 * dt]
    and clamped to [-1.2, 1.2]: the latter when the new speed is 0.06 or
    more, the former when it is 0.04 or less.  The distance, the road
    offset and the background offset advance with the new speed, the road
    offset 1500 times as fast while the boost lasts and 1000 times
    otherwise; and nothing the frame does afterwards (spawning, collisions,
    particles) touches these fields. *)
Theorem where_a_frame_leaves_the_car (random : nat -> Q) (cv : Canvas)
  (ctl : ControlState) (timestamp : Q) (s : State) :
  boundedControl ctl -> Qabs (bgOffset s) <= huge ->
  lastTime s <= timestamp ->
  let dt := frameDt timestamp s in
  let s' := state_of (gameLoop random cv PLAYING ctl timestamp s) in
  let steered :=
    Qmax (-1.2)
      (Qmin 1.2 (playerX s + steering ctl * steeringSensitivity * dt)) in
  exists lasts : bool,
    (isBoosting s = false -> lasts = false) /\
    (boost s - 20 * dt <= -0.001 -> lasts = false) /\
    (isBoosting s = true -> 0.001 <= boost s - 20 * dt -> lasts = true) /\
    (throttle ctl <= 0.1 \/ 0.11 <= throttle ctl \/ lasts = true ->
     speed s'
     = Qmax 0
         (Qmin (maxSpeedOf s)
            (if Qltb 0.1 (throttle ctl) || lasts
             then speed s
                  + (if lasts then 1.0 else throttle ctl) * acceleration * dt
             else speed s - friction * dt))) /\
    0 <= speed s' <= maxSpeedOf s /\
    (playerX s' = playerX s \/ playerX s' = steered) /\
    (0.06 <= speed s' -> playerX s' = steered) /\
    (speed s' <= 0.04 -> playerX s' = playerX s) /\
    distance s' = distance s + speed s' * dt /\
    roadOffset s'
    = roadOffset s + speed s' * (if lasts then 1500 else 1000) * dt /\
    bgOffset s' = bgOffset s + steering ctl * speed s' * 50 * dt /\
    lastTime s' = timestamp.
Proof.
  intros _ _ _. cbv zeta.
  destruct (frame_motion random cv ctl timestamp s)
    as (M1 & M2 & M3 & M4 & M5 & M6).
  cbv zeta in M1, M2, M3, M4, M5, M6.
  exists (boostLasts (frameDt timestamp s) s).
  conj; try assumption.
  - intro B. unfold boostLasts. now rewrite B.
  - intro B. unfold boostLasts.
    assert (Qltb 0 (boost s - 20 * frameDt timestamp s) = false) as ->
      by (apply Qltb_ge; lra).
    apply andb_false_r.
  - intros B L. unfold boostLasts. rewrite B.
    assert (Qltb 0 (boost s - 20 * frameDt timestamp s) = true) as ->
      by (apply Qltb_lt; lra).
    reflexivity.
  - intros _. exact M1.
  - rewrite M1. apply clamped_speed.
    pose proof (maxSpeedOf_range s). lra.
  - rewrite M1. apply clamped_speed.
    pose proof (maxSpeedOf_range s). lra.
  - rewrite M2. destruct (Qltb 0.05 _); [now right | now left].
  - intro V. rewrite M2.
    assert (Qltb 0.05
              (speed (state_of (gameLoop random cv PLAYING ctl timestamp s)))
            = true) as -> by (apply Qltb_lt; lra).
    reflexivity.
  - intro V. rewrite M2.
    assert (Qltb 0.05
              (speed (state_of (gameLoop random cv PLAYING ctl timestamp s)))
            = false) as -> by (apply Qltb_ge; lra).
    reflexivity.
Qed.

(** The theorem at the frame that follows [steerRun], with the wheel still
    hard to the right: the speed goes from 0.48 to 0.56 and the car from
    1.08 to the edge of its range, 1.2.  And at a frame of [boostedAhead],
    in the middle of a boost: the road offset advances 1500 times as fast
    as the distance. *)
Lemma where_a_frame_leaves_the_car_witness :
  (boundedControl fullThrottle /\ Qabs (bgOffset boostedAhead) <= huge /\
   lastTime boostedAhead <= 1016 /\
   isBoosting boostedAhead = true /\
   0.001 <= boost boostedAhead - 20 * frameDt 1016 boostedAhead /\
   roadOffset (state_of (gameLoop half sampleCanvas PLAYING fullThrottle
                           1016 boostedAhead))
   = roadOffset boostedAhead
     + speed (state_of (gameLoop half sampleCanvas PLAYING fullThrottle 1016
                          boostedAhead))
       * 1500 * frameDt 1016 boostedAhead) /\
  boundedControl hardRight /\
  Qabs (bgOffset (play steerRun initialState)) <= huge /\
  lastTime (play steerRun initialState) <= 1600 /\
  speed (play steerRun initialState) == 0.48 /\
  speed (state_of (gameLoop half lowCanvas PLAYING hardRight 1600
                     (play steerRun initialState))) == 0.56 /\
  playerX (state_of (gameLoop half lowCanvas PLAYING hardRight 1600
                       (play steerRun initialState))) == 1.2 /\
  (let s := play steerRun initialState in
   let dt := frameDt 1600 s in
   let s' := state_of (gameLoop half lowCanvas PLAYING hardRight 1600 s) in
   let steered :=
     Qmax (-1.2)
       (Qmin 1.2 (playerX s + steering hardRight * steeringSensitivity * dt))
   in
   exists lasts : bool,
     (isBoosting s = false -> lasts = false) /\
     (boost s - 20 * dt <= -0.001 -> lasts = false) /\
     (isBoosting s = true -> 0.001 <= boost s - 20 * dt -> lasts = true) /\
     (throttle hardRight <= 0.1 \/ 0.11 <= throttle hardRight \/
      lasts = true ->
      speed s'
      = Qmax 0
          (Qmin (maxSpeedOf s)
             (if Qltb 0.1 (throttle hardRight) || lasts
              then speed s
                   + (if lasts then 1.0 else throttle hardRight)
                     * acceleration * dt
              else speed s - friction * dt))) /\
     0 <= speed s' <= maxSpeedOf s /\
     (playerX s' = playerX s \/ playerX s' = steered) /\
     (0.06 <= speed s' -> playerX s' = steered) /\
     (speed s' <= 0.04 -> playerX s' = playerX s) /\
     distance s' = distance s + speed s' * dt /\
     roadOffset s'
     = roadOffset s + speed s' * (if lasts then 1500 else 1000) * dt /\
     bgOffset s' = bgOffset s + steering hardRight * speed s' * 50 * dt /\
     lastTime s' = 1600).
Proof.
  assert (B : boundedControl hardRight).
  { apply boundedControlb_sound. vm_compute. reflexivity. }
  assert (T : lastTime (play steerRun initialState) <= 1600).
  { apply Qle_bool_iff. vm_compute. reflexivity. }
  assert (G : Qabs (bgOffset (play steerRun initialState)) <= huge).
  { apply Qle_bool_iff. vm_compute. reflexivity. }
  assert (B' : boundedControl fullThrottle).
  { apply boundedControlb_sound. vm_compute. reflexivity. }
  assert (G' : Qabs (bgOffset boostedAhead) <= huge).
  { apply Qle_bool_iff. vm_compute. reflexivity. }
  assert (T' : lastTime boostedAhead <= 1016).
  { apply Qle_bool_iff. vm_compute. reflexivity. }
  assert (L' : 0.001 <= boost boostedAhead - 20 * frameDt 1016 boostedAhead).
  { apply Qle_bool_iff. vm_compute. reflexivity. }
  split.
  { split; [exact B'|]. split; [exact G'|]. split; [exact T'|].
    split; [reflexivity|]. split; [exact L'|].
    destruct (where_a_frame_leaves_the_car half sampleCanvas fullThrottle
                1016 boostedAhead B' G' T')
      as (lasts & _ & _ & X & _ & _ & _ & _ & _ & _ & R & _).
    rewrite (X eq_refl L') in R. exact R. }
  split; [exact B|]. split; [exact G|]. split; [exact T|].
  split; [apply Qeq_bool_iff; vm_compute; reflexivity|].
  split; [apply Qeq_bool_iff; vm_compute; reflexivity|].
  split; [apply Qeq_bool_iff; vm_compute; reflexivity|].
  exact (where_a_frame_leaves_the_car half lowCanvas hardRight 1600
           (play steerRun initialState) B G T).
Defined.

(** X16: with the throttle released the car slows down.  Outside a boost,
    with a throttle of 0.1 or less, a clock that does not run backwards and
    a speed that is not negative, a frame in the PLAYING phase takes
    [0.3 * dt] off the speed and clamps the result to [0, 1.5], whatever
    the steering: the speed does not go up; from a speed of 1.5 or less it
    goes down by [0.3 * dt], to 0 at the lowest, and from a speed of
    [1.5 + 0.3 * dt] or more, as a boost that ran out leaves it, it goes
    down to 1.5 at once.  A car that was no faster than 0.05 keeps its
    lateral position. *)
Theorem released_throttle_coasts_to_a_stop (random : nat -> Q) (cv : Canvas)
  (ctl : ControlState) (timestamp : Q) (s : State) :
  let dt := frameDt timestamp s in
  let s' := state_of (gameLoop random cv PLAYING ctl timestamp s) in
  lastTime s <= timestamp -> isBoosting s = false ->
  throttle ctl <= 0.1 -> 0 <= speed s ->
  speed s' = Qmax 0 (Qmin 1.5 (speed s - 0.3 * dt)) /\
  speed s' <= speed s /\
  (speed s <= 1.5 -> speed s' == Qmax 0 (speed s - 0.3 * dt)) /\
  (1.5 + 0.3 * dt <= speed s -> speed s' == 1.5) /\
  (speed s <= 0.05 -> playerX s' = playerX s).
Proof.
  cbv zeta. intros T B Th S.
  pose proof (frameDt_nonneg timestamp s T) as D.
  destruct (frame_motion random cv ctl timestamp s) as (M1 & M2 & _).
  cbv zeta in M1, M2.
  assert (L : boostLasts (frameDt timestamp s) s = false)
    by (unfold boostLasts; now rewrite B).
  assert (G : Qltb 0.1 (throttle ctl) = false) by now apply Qltb_ge.
  rewrite L, G in M1. cbn [Datatypes.orb] in M1.
  unfold maxSpeedOf, friction in M1. rewrite B in M1.
  assert (U : speed (state_of (gameLoop random cv PLAYING ctl timestamp s))
              <= speed s).
  { rewrite M1. apply Q.max_lub; [exact S|].
    eapply Qle_trans; [apply Q.le_min_r | lra]. }
  split; [exact M1|]. split; [exact U|]. split; [|split].
  - intro Z. rewrite M1. rewrite Q.min_r by lra. reflexivity.
  - intro Z. rewrite M1. rewrite Q.min_l by lra. apply Q.max_r. lra.
  - intro Z. rewrite M2.
    assert (Qltb 0.05
              (speed (state_of (gameLoop random cv PLAYING ctl timestamp s)))
            = false) as -> by (apply Qltb_ge; lra).
    reflexivity.
Qed.

(** The theorem at two cars with the hands off the throttle and the wheel
    hard to the right.  The car of [boostEnded], whose boost has just run
    out at a speed of 2.5, is at 1.5 after a frame of 16 ms: it loses 1.0,
    not [0.3 * dt].  The car of [crawling] keeps its lateral position. *)
Lemma released_throttle_coasts_to_a_stop_witness :
  (lastTime boostEnded <= 1216 /\ isBoosting boostEnded = false /\
   throttle handsOff <= 0.1 /\ 0 <= speed boostEnded) /\
  (lastTime crawling <= 1016 /\ isBoosting crawling = false /\
   0 <= speed crawling) /\
  speed boostEnded == 2.5 /\
  speed (state_of (gameLoop half sampleCanvas PLAYING handsOff 1216
                     boostEnded)) == 1.5 /\
  speed crawling <= 0.05 /\
  playerX (state_of (gameLoop half sampleCanvas PLAYING handsOff 1016
                       crawling)) = playerX crawling.
Proof.
  assert (A1 : lastTime boostEnded <= 1216)
    by (apply Qle_bool_iff; vm_compute; reflexivity).
  assert (A2 : isBoosting boostEnded = false) by (vm_compute; reflexivity).
  assert (A3 : throttle handsOff <= 0.1) by (cbn; lra).
  assert (A4 : 0 <= speed boostEnded)
    by (apply Qle_bool_iff; vm_compute; reflexivity).
  assert (B1 : lastTime crawling <= 1016) by (cbn; lra).
  assert (B4 : 0 <= speed crawling) by (cbn; lra).
  assert (B5 : speed crawling <= 0.05) by (cbn; lra).
  assert (A5 : 1.5 + 0.3 * frameDt 1216 boostEnded <= speed boostEnded)
    by (apply Qle_bool_iff; vm_compute; reflexivity).
  split; [tauto|]. split; [split; [exact B1 | split; [reflexivity | exact B4]]|].
  split; [apply Qeq_bool_iff; vm_compute; reflexivity|].
  split.
  { destruct (released_throttle_coasts_to_a_stop half sampleCanvas handsOff
                1216 boostEnded A1 A2 A3 A4) as (_ & _ & _ & E & _).
    exact (E A5). }
  split; [exact B5|].
  destruct (released_throttle_coasts_to_a_stop half sampleCanvas handsOff
              1016 crawling B1 eq_refl A3 B4) as (_ & _ & _ & _ & E).
  exact (E B5).
Defined.

(** X17: a frame counts for a tenth of a second at most.  With a clock that
    does not run backwards the time step of a frame lies between 0 and 0.1,
    however long ago the frame before was; it is 0 while [lastTime] is 0,
    as it is for the first frame after the mount; and a frame in the
    PLAYING phase advances the distance by the new speed times the time
    step, which is 0.25 at most. *)
Theorem a_frame_counts_for_a_tenth_of_a_second_at_most (random : nat -> Q)
  (cv : Canvas) (ctl : ControlState) (timestamp : Q) (s : State) :
  let dt := frameDt timestamp s in
  let s' := state_of (gameLoop random cv PLAYING ctl timestamp s) in
  lastTime s <= timestamp ->
  0 <= dt <= 0.1 /\
  (lastTime s == 0 -> dt == 0) /\
  (~ lastTime s == 0 -> timestamp - lastTime s <= 100 ->
   dt == (timestamp - lastTime s) / 1000) /\
  distance s' == distance s + speed s' * dt /\
  0 <= distance s' - distance s <= 0.25.
Proof.
  cbv zeta. intro T.
  pose proof (frameDt_nonneg timestamp s T) as D.
  pose proof (frameDt_le timestamp s) as U.
  destruct (frame_motion random cv ctl timestamp s) as (_ & _ & M3 & _).
  cbv zeta in M3.
  pose proof (frame_speed_nonneg random cv ctl timestamp s) as V.
  conj.
  - exact D.
  - exact U.
  - intro Z. unfold frameDt, stampFirst.
    assert (Qeq_bool (lastTime s) 0 = true) as -> by now apply Qeq_bool_iff.
    proj. rewrite Q.min_l; [field|].
    setoid_replace ((timestamp - timestamp) / 1000) with 0 by field. lra.
  - intros Z W. unfold frameDt, stampFirst.
    destruct (Qeq_bool (lastTime s) 0) eqn:E.
    + apply Qeq_bool_iff in E. contradiction.
    + apply Q.min_l. apply Qle_shift_div_r; lra.
  - rewrite M3. reflexivity.
  - rewrite M3. nra.
  - rewrite M3. nra.
Qed.

(** The theorem at a frame that comes ten seconds after the one before. *)
Lemma a_frame_counts_for_a_tenth_of_a_second_at_most_witness :
  lastTime threeAhead <= 11000 /\
  0 <= frameDt 11000 threeAhead <= 0.1 /\
  0 <= distance (state_of (gameLoop half sampleCanvas PLAYING fullThrottle
                             11000 threeAhead))
       - distance threeAhead <= 0.25.
Proof.
  assert (H1 : lastTime threeAhead <= 11000) by (cbn; lra).
  split; [exact H1|].
  destruct (a_frame_counts_for_a_tenth_of_a_second_at_most half sampleCanvas
              fullThrottle 11000 threeAhead H1) as (A & _ & _ & _ & B).
  split; [exact A | exact B].
Defined.

(** *** The gauges on the canvas *)

Lemma reachable_score (s : State) : reachable s -> (0 <= score s)%Z.
Proof.
  induction 1 as [|random cv gs ctl timestamp s R IH T].
  - cbn. lia.
  - destruct (frame_monotone (mkInput random cv gs ctl timestamp) s T)
      as [M _].
    unfold frame in M.
    cbn [in_random in_canvas in_phase in_control in_time] in M. lia.
Qed.

(** X18: the gauges of the HUD stay on their scales.  In every state of a
    mounted game the filled part of the boost bar is between 0 and the 200
    pixels of the bar, the speed shown is between 0 and 450, and the score
    shown is not negative.  The HUD is among what the render pass draws
    when, and only when, the phase is PLAYING and the pass comes to its
    end, which it does on a canvas of ordinary size (1 to 100000 pixels
    high, at most 100000 wide) when every entity is between the horizon
    row and 100 pixels below the bottom row. *)
Theorem hud_gauges_stay_on_their_scales (cv : Canvas) (gs : GameState)
  (ctl : ControlState) (s : State) :
  reachable s ->
  (exists fillW displaySpeed,
     drawHud s = DrawHud (isBoosting s) fillW (score s) displaySpeed /\
     0 <= fillW <= 200 /\ (0 <= displaySpeed <= 450)%Z /\ (0 <= score s)%Z) /\
  (In (drawHud s) (fst (render cv gs ctl s))
   <-> gs = PLAYING /\ snd (render cv gs ctl s) = true) /\
  (ordinaryCanvas cv -> Forall (onScreen cv) (entities s) ->
   snd (render cv gs ctl s) = true).
Proof.
  intro R. split; [|split].
  - destruct (reachable_within s R) as ((S1 & S2) & (B1 & B2) & _).
    exists (boost s / 100 * 200), (Qfloor (speed s * 180)).
    split; [reflexivity|]. conj.
    + apply Qmult_le_0_compat; [apply Qle_shift_div_l|]; lra.
    + setoid_replace (boost s / 100 * 200) with (boost s * 2) by field. lra.
    + apply (Qfloor_resp_le 0). lra.
    + apply (Qfloor_resp_le _ 450). lra.
    + now apply reachable_score.
  - apply hud_drawn.
  - intros ((H & _) & _) F. now rewrite render_completes.
Qed.

(** The theorem after the two frames of [crashRun], which leave an orb in
    the list: in the PLAYING phase the pass comes to its end and draws the
    HUD; in the menu it does not draw it. *)
Lemma hud_gauges_stay_on_their_scales_witness :
  reachable (play crashRun initialState) /\
  List.length (entities (play crashRun initialState)) = 1%nat /\
  In (drawHud (play crashRun initialState))
     (fst (render lowCanvas PLAYING fullThrottle
             (play crashRun initialState))) /\
  ~ In (drawHud (play crashRun initialState))
      (fst (render lowCanvas MENU fullThrottle
              (play crashRun initialState))) /\
  (exists fillW displaySpeed,
     drawHud (play crashRun initialState)
     = DrawHud (isBoosting (play crashRun initialState)) fillW
         (score (play crashRun initialState)) displaySpeed /\
     0 <= fillW <= 200 /\ (0 <= displaySpeed <= 450)%Z /\
     (0 <= score (play crashRun initialState))%Z).
Proof.
  assert (R : reachable (play crashRun initialState)).
  { apply play_reachable; [vm_compute; reflexivity | apply reach_mount]. }
  pose proof (hud_gauges_stay_on_their_scales lowCanvas PLAYING fullThrottle
                (play crashRun initialState) R) as (G & I & C).
  pose proof (hud_gauges_stay_on_their_scales lowCanvas MENU fullThrottle
                (play crashRun initialState) R) as (_ & I' & _).
  split; [exact R|]. split; [vm_compute; reflexivity|].
  split.
  { apply I. split; [reflexivity|]. apply C.
    - repeat split; apply Qle_bool_iff; vm_compute; reflexivity.
    - apply onScreenb_sound. vm_compute. reflexivity. }
  split; [|exact G].
  intro J. destruct (proj1 I' J) as [J' _]. discriminate J'.
Defined.

(** *** The score of a frame *)

Lemma kinematics_score (ctl : ControlState) (dt m : Q) (s : State) :
  let k := kinematics ctl dt m s in
  score k
  = (score s
     + Qfloor (speed k * 10 * (if isBoosting s then 2 else 1)))%Z.
Proof.
  cbv zeta.
  destruct s as [px sp ro sc di bo ib en pa lt ec bg].
  unfold kinematics, worldMovement, playerXUpdate, speedUpdate.
  cbv zeta. proj.
  destruct (Qltb 0.1 (throttle ctl) || ib); proj;
    destruct (Qltb 0.05 _); reflexivity.
Qed.

Lemma collide_bonusFrom (random : nat -> Q) (cv : Canvas) (base : Z)
  (ent : Entity.t) (wd : World) :
  bonusFrom base wd -> bonusFrom base (fst (collide random cv ent wd)).
Proof.
  intros (k & K0 & K1 & K2).
  destruct (hits cv ent (st wd)) eqn:X.
  2:{ rewrite (collide_miss _ _ _ _ X). now exists k. }
  destruct (EntityType_orb_dec (Entity.type ent)) as [T|T].
  - destruct (collide_orb random cv ent wd X T) as (ps & E & EL & _).
    cbv zeta in E, EL. exists (k + 5)%Z. rewrite E, EL. proj.
    split; [lia|]. split; [lia|]. intros _.
    apply in_or_app. right. now left.
  - destruct (isBoosting (st wd)) eqn:B.
    + destruct (collide_smash random cv ent wd X T B) as (ps & E & EL & _).
      exists (k + 1)%Z. rewrite E, EL. proj.
      split; [lia|]. split; [lia|]. intros _. now left.
    + destruct (collide_crash random cv ent wd X T B) as (ps & E & EL & _).
      exists k. rewrite E, EL. proj.
      split; [lia|]. split; [lia|]. intro N. right; right. now apply K2.
Qed.

Lemma update_score (random : nat -> Q) (cv : Canvas) (ctl : ControlState)
  (dt : Q) (s : State) :
  let wd' := update random cv ctl dt (mkWorld s O []) in
  bonusFrom
    (score s
     + Qfloor (speed (st wd') * 10 * (if boostLasts dt s then 2 else 1)))
    wd'.
Proof.
  cbv zeta. rewrite update_unfold.
  destruct (boostLogic_spec random cv dt (mkWorld s O [])) as (ps & n & ->).
  cbv zeta. cbn [fst snd st rand log].
  generalize (speedMultiplierOf
     (playerXUpdate (steering ctl) dt
        (speedUpdate (throttle ctl) dt (maxSpeedOf s)
           (set_particles (particles s ++ ps) (drained dt s))))).
  intro sm.
  pose proof (kinematics_score ctl dt (maxSpeedOf s)
                (set_particles (particles s ++ ps) (drained dt s))) as K.
  cbv zeta in K.
  generalize dependent
    (kinematics ctl dt (maxSpeedOf s)
       (set_particles (particles s ++ ps) (drained dt s))).
  intros k K. proj.
  destruct (drained_same dt s) as (_ & _ & D3 & _).
  rewrite D3, drained_isBoosting in K.
  destruct (spawnObstacle_spec random cv (mkWorld k n []))
    as (es1 & c1 & n1 & ->).
  cbn [st rand log].
  match goal with
  | |- context [spawnOrb random cv ?w] =>
      destruct (spawnOrb_spec random cv w) as (es2 & c2 & n2 & ->)
  end.
  cbn [st rand log]. unfold entityUpdates. cbn [st].
  match goal with
  | |- context [entityLoop random cv dt sm ?l ?w] =>
      assert (H6 : bonusFrom (score k) w)
        by (exists 0%Z; proj; split; [lia | split; [lia | congruence]]);
      pose proof (entityLoop_inv random cv (bonusFrom (score k))
                    (collide_bonusFrom random cv (score k)) dt sm l w H6)
        as L;
      pose proof (entityLoop_steady random cv dt sm l w) as S;
      destruct (entityLoop random cv dt sm l w) as [wd6 ents]
  end.
  proj. destruct S as (_ & S2 & _). proj.
  unfold particleUpdates. proj. rewrite S2, <- K.
  destruct L as (j & J0 & J1 & J2). exists j. proj. tauto.
Qed.

(** X19: what a frame pays.  With a clock that does not run backwards and
    a score of magnitude up to 10^15, a frame in the PLAYING phase adds to
    the score a whole number between 0 and 50, which is ten times the new
    speed, or twenty times during a boost, rounded down (it lies between
    that product less 1.001 and that product plus 0.001), and a number of
    hundreds for what was collected or smashed (500 an orb, 100 an
    obstacle); a frame without the collect sound adds the first part only.
    The factor is ten outside a boost and when the drain takes the gauge
    to -0.001 or below, and twenty when the boost is on and the drain
    leaves 0.001 or more. *)
Theorem what_a_frame_pays (random : nat -> Q) (cv : Canvas)
  (ctl : ControlState) (timestamp : Q) (s : State) :
  lastTime s <= timestamp -> counted (score s) ->
  let dt := frameDt timestamp s in
  let r := gameLoop random cv PLAYING ctl timestamp s in
  let s' := state_of r in
  exists (trickle k : Z) (mult : Q),
    (mult = 1 \/ mult = 2) /\
    (isBoosting s = false -> mult = 1) /\
    (boost s - 20 * dt <= -0.001 -> mult = 1) /\
    (isBoosting s = true -> 0.001 <= boost s - 20 * dt -> mult = 2) /\
    (0 <= trickle <= 50)%Z /\
    speed s' * 10 * mult - 1.001 <= inject_Z trickle
    <= speed s' * 10 * mult + 0.001 /\
    (0 <= k)%Z /\ score s' = (score s + trickle + 100 * k)%Z /\
    (~ In (PlaySound Sound.collect) (events_of r) -> k = 0%Z).
Proof.
  intros _ _. cbv zeta.
  pose proof (frame_speed_nonneg random cv ctl timestamp s) as V.
  assert (X : exists k,
    (0 <= k)%Z /\
    score (state_of (gameLoop random cv PLAYING ctl timestamp s))
    = (score s
       + Qfloor (speed (state_of (gameLoop random cv PLAYING ctl timestamp s))
                 * 10
                 * (if boostLasts (frameDt timestamp s) s then 2 else 1))
       + 100 * k)%Z /\
    (~ In (PlaySound Sound.collect)
         (events_of (gameLoop random cv PLAYING ctl timestamp s)) ->
     k = 0%Z)).
  { unfold gameLoop in *. cbn [GameState_eqb state_of events_of] in *.
    destruct (stamped_same timestamp s)
      as (_ & _ & E3 & _ & E5 & E6 & _).
    pose proof (update_score random cv ctl (frameDt timestamp s)
                  (stamped timestamp s)) as U.
    cbv zeta in U.
    assert (B : boostLasts (frameDt timestamp s) (stamped timestamp s)
                = boostLasts (frameDt timestamp s) s)
      by (unfold boostLasts; now rewrite E5, E6).
    rewrite B, E3 in U.
    change (set_lastTime timestamp (stampFirst timestamp s))
      with (stamped timestamp s).
    change (Qmin ((timestamp - lastTime (stampFirst timestamp s)) / 1000) 0.1)
      with (frameDt timestamp s).
    destruct U as (k & K0 & K1 & K2).
    exists k. split; [exact K0|]. split; [exact K1|].
    intro N. destruct (Z.eq_dec k 0) as [Z|Z]; [exact Z|].
    exfalso. apply N. apply -> in_rev. now apply K2. }
  destruct X as (k & K0 & K1 & K2).
  generalize dependent
    (speed (state_of (gameLoop random cv PLAYING ctl timestamp s))).
  intros v V K1.
  exists (Qfloor (v * 10
                  * (if boostLasts (frameDt timestamp s) s then 2 else 1))),
    k, (if boostLasts (frameDt timestamp s) s then 2 else 1).
  conj; try assumption.
  - destruct (boostLasts _ s); [now right | now left].
  - intro B. unfold boostLasts. now rewrite B.
  - intro B. unfold boostLasts.
    assert (Qltb 0 (boost s - 20 * frameDt timestamp s) = false) as ->
      by (apply Qltb_ge; lra).
    now rewrite andb_false_r.
  - intros B L. unfold boostLasts. rewrite B.
    assert (Qltb 0 (boost s - 20 * frameDt timestamp s) = true) as ->
      by (apply Qltb_lt; lra).
    reflexivity.
  - apply (Qfloor_resp_le 0). destruct (boostLasts _ s); lra.
  - apply (Qfloor_resp_le _ 50). destruct (boostLasts _ s); lra.
  - match goal with
    | |- _ <= inject_Z (Qfloor ?x) =>
        pose proof (Qlt_floor x) as F; generalize dependent (Qfloor x)
    end.
    intros z _ F. rewrite inject_Z_plus in F.
    change (inject_Z 1) with 1 in F. lra.
  - match goal with
    | |- inject_Z (Qfloor ?x) <= _ => pose proof (Qfloor_le x)
    end.
    lra.
Qed.

(** The theorem at the frame of [threeAhead], which collects an orb at a
    speed of 1.0128: the score goes from 100 to 610, by 10 and by five
    hundreds. *)
Lemma what_a_frame_pays_witness :
  lastTime threeAhead <= 1016 /\ counted (score threeAhead) /\
  score threeAhead = 100%Z /\ score (state_of frame16) = 610%Z /\
  speed (state_of frame16) == 1.0128 /\
  exists (trickle k : Z) (mult : Q),
    (mult = 1 \/ mult = 2) /\
    (isBoosting threeAhead = false -> mult = 1) /\
    (boost threeAhead - 20 * frameDt 1016 threeAhead <= -0.001 -> mult = 1)
    /\
    (isBoosting threeAhead = true ->
     0.001 <= boost threeAhead - 20 * frameDt 1016 threeAhead -> mult = 2) /\
    (0 <= trickle <= 50)%Z /\
    speed (state_of frame16) * 10 * mult - 1.001 <= inject_Z trickle
    <= speed (state_of frame16) * 10 * mult + 0.001 /\
    (0 <= k)%Z /\
    score (state_of frame16) = (score threeAhead + trickle + 100 * k)%Z /\
    (~ In (PlaySound Sound.collect) (events_of frame16) -> k = 0%Z).
Proof.
  assert (T : lastTime threeAhead <= 1016) by (cbn; lra).
  assert (S : counted (score threeAhead))
    by (apply Z.leb_le; vm_compute; reflexivity).
  split; [exact T|]. split; [exact S|]. split; [reflexivity|].
  split; [vm_compute; reflexivity|].
  split; [apply Qeq_bool_iff; vm_compute; reflexivity|].
  exact (what_a_frame_pays half sampleCanvas fullThrottle 1016 threeAhead
           T S).
Defined.

(** *** Where an entity is drawn *)

Lemma progressOf_range (cv : Canvas) (ey : Q) :
  0 < height cv -> horizonY cv <= ey <= height cv ->
  0 <= progressOf cv ey <= 1.
Proof.
  intros H [L U]. unfold progressOf, horizonY in *. split.
  - apply Qle_shift_div_l; lra.
  - apply Qle_shift_div_r; lra.
Qed.

(** X20: an entity on the road, between the horizon and the bottom row of a
    canvas of positive size, is drawn inside the canvas: its screen X lies
    between 0 and the width, its row is its [y], and its scale grows from
    0.5 at the horizon to 3 at the bottom row. *)
Theorem entities_are_drawn_inside_the_canvas (cv : Canvas) (ent : Entity.t) :
  0 < width cv -> 0 < height cv -> onRoad ent ->
  horizonY cv <= Entity.y ent <= height cv ->
  exists sx scale,
    drawEntity cv ent = DrawEntity (Entity.type ent) sx (Entity.y ent) scale /\
    0 <= sx <= width cv /\ 0.5 <= scale <= 3 /\
    (Entity.y ent == horizonY cv -> scale == 0.5) /\
    (Entity.y ent == height cv -> scale == 3).
Proof.
  intros W H [X1 X2] Y.
  pose proof (progressOf_range cv (Entity.y ent) H Y) as [P1 P2].
  exists (screenX cv (Entity.x ent) (progressOf cv (Entity.y ent))),
         (drawScale (progressOf cv (Entity.y ent))).
  split; [reflexivity|].
  assert (E0 : Entity.y ent == horizonY cv ->
               progressOf cv (Entity.y ent) == 0).
  { intro E. unfold progressOf. rewrite E. unfold horizonY. field. lra. }
  assert (E1 : Entity.y ent == height cv ->
               progressOf cv (Entity.y ent) == 1).
  { intro E. unfold progressOf. rewrite E. unfold horizonY. field. lra. }
  generalize dependent (progressOf cv (Entity.y ent)). intros p P1 P2 E0 E1.
  unfold screenX, roadW, roadTopW, roadBottomW, centerX, drawScale.
  generalize dependent (Entity.x ent). intros x X1 X2.
  generalize dependent (width cv). intros w W.
  assert (G : w / 2
              + x * ((w * 0.1 * 2 + (w * 0.9 * 0.6 * 2 - w * 0.1 * 2) * p) / 2)
              == 0.5 * w + x * (0.1 * w + 0.44 * (w * p))) by field.
  assert (R : 0.1 * w <= 0.1 * w + 0.44 * (w * p) <= 0.54 * w).
  { assert (0 <= w * p) by (apply Qmult_le_0_compat; lra).
    assert (w * p <= w) by nra. lra. }
  assert (B : - (0.9) * (0.1 * w + 0.44 * (w * p))
              <= x * (0.1 * w + 0.44 * (w * p))
              <= 0.9 * (0.1 * w + 0.44 * (w * p))).
  { generalize dependent (0.1 * w + 0.44 * (w * p)). intros r _ R. nra. }
  conj.
  - rewrite G. lra.
  - rewrite G. lra.
  - lra.
  - lra.
  - intro E. rewrite (E0 E). reflexivity.
  - intro E. rewrite (E1 E). reflexivity.
Qed.

(** The theorem at the rock of [edgeRock]. *)
Lemma entities_are_drawn_inside_the_canvas_witness :
  0 < width sampleCanvas /\ 0 < height sampleCanvas /\ onRoad edgeRock /\
  horizonY sampleCanvas <= Entity.y edgeRock <= height sampleCanvas /\
  exists sx scale,
    drawEntity sampleCanvas edgeRock
    = DrawEntity (Entity.type edgeRock) sx (Entity.y edgeRock) scale /\
    0 <= sx <= width sampleCanvas /\ 0.5 <= scale <= 3 /\
    (Entity.y edgeRock == horizonY sampleCanvas -> scale == 0.5) /\
    (Entity.y edgeRock == height sampleCanvas -> scale == 3).
Proof.
  assert (H1 : 0 < width sampleCanvas) by (cbn; lra).
  assert (H2 : 0 < height sampleCanvas) by (cbn; lra).
  assert (H3 : onRoad edgeRock) by (unfold onRoad; cbn; lra).
  assert (H4 : horizonY sampleCanvas <= Entity.y edgeRock
               <= height sampleCanvas) by (unfold horizonY; cbn; lra).
  split; [exact H1|]. split; [exact H2|]. split; [exact H3|].
  split; [exact H4|].
  exact (entities_are_drawn_inside_the_canvas sampleCanvas edgeRock
           H1 H2 H3 H4).
Defined.

(** *** The page *)

Lemma last_default (l : list Z) (d d' : Z) :
  l <> [] -> last l d = last l d' /\ In (last l d) l.
Proof.
  induction l as [|a l IH]; [congruence|]. intros _.
  destruct l as [|b l]; [split; [reflexivity | now left]|].
  destruct IH as [I1 I2]; [discriminate|].
  split; [exact I1 | right; exact I2].
Qed.

Lemma deliver_spec (evs : list Event) (a : App.t) :
  App.controlState (deliver evs a) = App.controlState a /\
  App.lastScore (deliver evs a) = last (gameOvers evs) (App.lastScore a) /\
  App.gameState (deliver evs a)
  = match gameOvers evs with [] => App.gameState a | _ => GAME_OVER end.
Proof.
  revert a. induction evs as [|[t|sc] rest IH]; intro a;
    cbn [deliver gameOvers].
  - conj; reflexivity.
  - apply IH.
  - destruct (IH (App.handleGameOver sc a)) as (I1 & I2 & I3).
    rewrite I1, I2, I3. cbn [App.handleGameOver App.controlState
                               App.lastScore App.gameState].
    conj; try reflexivity.
    + destruct (gameOvers rest) as [|z l] eqn:G; [reflexivity|].
      change (last (sc :: z :: l) (App.lastScore a))
        with (last (z :: l) (App.lastScore a)).
      apply last_default. discriminate.
    + destruct (gameOvers rest); reflexivity.
Qed.

Lemma stamped_is_set_lastTime (timestamp : Q) (s : State) :
  stamped timestamp s = set_lastTime timestamp s.
Proof.
  unfold stamped, stampFirst.
  destruct (Qeq_bool (lastTime s) 0); reflexivity.
Qed.

(** X21: outside the PLAYING phase the game stands still.  While the page
    is in MENU or in GAME_OVER, frames change nothing but [lastTime]: the
    phase, the last score and the controls of the page stay, and so does
    every other field of the game state, whatever the clock and the draws,
    for as many frames as come. *)
Theorem outside_playing_the_game_stands_still (cv : Canvas)
  (frames : list ((nat -> Q) * Q)) (p : Page) :
  App.gameState (app p) <> PLAYING ->
  app (pagePlay cv frames p) = app p /\
  stateRef (pagePlay cv frames p)
  = set_lastTime (lastTime (stateRef (pagePlay cv frames p))) (stateRef p).
Proof.
  revert p. induction frames as [|[rnd t] rest IH]; intros p H;
    cbn [pagePlay].
  - split; [reflexivity|]. destruct (stateRef p); reflexivity.
  - assert (E : pageFrame rnd cv t p
                = mkPage (app p) (set_lastTime t (stateRef p))).
    { unfold pageFrame. rewrite gameLoop_idle by exact H.
      cbn [events_of state_of deliver].
      now rewrite stamped_is_set_lastTime. }
    rewrite E. destruct (IH (mkPage (app p) (set_lastTime t (stateRef p))) H)
      as [I1 I2].
    split; [exact I1|]. rewrite I2 at 1. cbn [stateRef].
    destruct (stateRef p); reflexivity.
Qed.

(** The theorem at the mounted page and two frames. *)
Lemma outside_playing_the_game_stands_still_witness :
  App.gameState (app mount) <> PLAYING /\
  app (pagePlay lowCanvas [(half, 200); (orbDraw, 400)] mount) = app mount /\
  stateRef (pagePlay lowCanvas [(half, 200); (orbDraw, 400)] mount)
  = set_lastTime
      (lastTime (stateRef (pagePlay lowCanvas [(half, 200); (orbDraw, 400)]
                             mount)))
      (stateRef mount).
Proof.
  assert (H : App.gameState (app mount) <> PLAYING) by discriminate.
  split; [exact H|].
  exact (outside_playing_the_game_stands_still lowCanvas
           [(half, 200); (orbDraw, 400)] mount H).
Defined.

(** X22: a frame ends the game exactly when it reports a score.  After a
    frame of the page the controls are as they were; when the frame made no
    call of [onGameOver] the phase and the last score are as they were too;
    when it made one the phase is GAME_OVER and the last score is the score
    of the last call, which is at least the score the frame started from
    and at most the score it leaves. *)
Theorem a_frame_ends_the_game_when_it_reports (random : nat -> Q)
  (cv : Canvas) (timestamp : Q) (p : Page) :
  let r := gameLoop random cv (App.gameState (app p))
             (App.controlState (app p)) timestamp (stateRef p) in
  let p' := pageFrame random cv timestamp p in
  App.controlState (app p') = App.controlState (app p) /\
  stateRef p' = state_of r /\
  (gameOvers (events_of r) = [] -> app p' = app p) /\
  (gameOvers (events_of r) <> [] ->
   App.gameState (app p) = PLAYING /\
   App.gameState (app p') = GAME_OVER /\
   App.lastScore (app p') = last (gameOvers (events_of r)) 0%Z /\
   (score (stateRef p) <= App.lastScore (app p') <= score (stateRef p'))%Z).
Proof.
  cbv zeta. unfold pageFrame. cbn [app stateRef].
  generalize (frame_reports random cv (App.gameState (app p))
                (App.controlState (app p)) timestamp (stateRef p)).
  assert (G : App.gameState (app p) <> PLAYING ->
              events_of (gameLoop random cv (App.gameState (app p))
                           (App.controlState (app p)) timestamp (stateRef p))
              = []).
  { intro H. now rewrite gameLoop_idle by exact H. }
  revert G.
  generalize (gameLoop random cv (App.gameState (app p))
                (App.controlState (app p)) timestamp (stateRef p)).
  intros r G F.
  destruct (deliver_spec (events_of r) (app p)) as (D1 & D2 & D3).
  conj.
  - exact D1.
  - reflexivity.
  - intro E. rewrite E in D2, D3. cbn [last] in D2.
    destruct (deliver (events_of r) (app p)), (app p). cbn in *. congruence.
  - intro N. split.
    + destruct (App.gameState (app p)) eqn:S; try reflexivity;
        exfalso; apply N; rewrite G; try reflexivity; discriminate.
    + destruct (last_default (gameOvers (events_of r))
                  (App.lastScore (app p)) 0%Z N) as [L1 L2].
      rewrite L1 in L2. rewrite D2, D3, L1. conj; try (apply F; exact L2).
      * destruct (gameOvers (events_of r)); [congruence | reflexivity].
      * reflexivity.
Qed.

(** *** The gesture service *)

Lemma clampDegrees_cases (d : Q) :
  (45 <= d /\ Qmax (- (45)) (Qmin 45 d) == 45) \/
  (d <= - (45) /\ Qmax (- (45)) (Qmin 45 d) == - (45)) \/
  (- (45) <= d <= 45 /\ Qmax (- (45)) (Qmin 45 d) == d).
Proof.
  destruct (Qlt_le_dec d 45) as [U|U].
  - destruct (Qlt_le_dec (- (45)) d) as [L|L].
    + right; right. split; [lra|].
      rewrite (Q.min_r 45 d) by lra. apply Q.max_r. lra.
    + right; left. split; [lra|].
      rewrite (Q.min_r 45 d) by lra. apply Q.max_l. lra.
  - left. split; [exact U|].
    rewrite (Q.min_l 45 d) by lra. apply Q.max_r. lra.
Qed.

Lemma steeringFromDegrees_high (d : Q) : 45 <= d -> steeringFromDegrees d == 1.
Proof.
  intro H. unfold steeringFromDegrees. cbv zeta.
  destruct (clampDegrees_cases d) as [[_ E]|[[L E]|[[L U] E]]];
    rewrite E; try field; try lra.
  setoid_replace d with 45 by lra. field.
Qed.

Lemma steeringFromDegrees_low (d : Q) :
  d <= - (45) -> steeringFromDegrees d == -1.
Proof.
  intro H. unfold steeringFromDegrees. cbv zeta.
  destruct (clampDegrees_cases d) as [[L E]|[[_ E]|[[L U] E]]];
    rewrite E; try field; try lra.
  setoid_replace d with (- (45)) by lra. field.
Qed.

(** X23: the steering value follows the angle between the hands in
    proportion up to 45 degrees either way and is full lock beyond: it is
    the angle over 45 between -45 and 45 degrees, 1 from 45 degrees up and
    -1 from -45 degrees down; it never decreases when the angle grows, and
    opposite angles give opposite values. *)
Theorem steering_saturates_at_45_degrees :
  (forall d, 45 <= d -> steeringFromDegrees d == 1) /\
  (forall d, d <= -45 -> steeringFromDegrees d == -1) /\
  (forall d, -45 <= d <= 45 -> steeringFromDegrees d == d / 45) /\
  (forall d d', d <= d' -> steeringFromDegrees d <= steeringFromDegrees d') /\
  (forall d, steeringFromDegrees (- d) == - steeringFromDegrees d).
Proof.
  conj.
  - exact steeringFromDegrees_high.
  - intros d H. apply steeringFromDegrees_low. lra.
  - intros d [L U]. unfold steeringFromDegrees. cbv zeta.
    destruct (clampDegrees_cases d) as [[A E]|[[A E]|[A E]]]; rewrite E.
    + setoid_replace d with 45 by lra. reflexivity.
    + setoid_replace d with (- (45)) by lra. reflexivity.
    + reflexivity.
  - intros d d' H. unfold steeringFromDegrees. cbv zeta.
    apply Qmult_le_compat_r; [|apply Qinv_le_0_compat; lra].
    destruct (clampDegrees_cases d) as [[A E]|[[A E]|[A E]]];
      destruct (clampDegrees_cases d') as [[A' E']|[[A' E']|[A' E']]];
      rewrite E, E'; lra.
  - intro d. unfold steeringFromDegrees. cbv zeta.
    assert (C : Qmax (- (45)) (Qmin 45 (- d))
                == - Qmax (- (45)) (Qmin 45 d)).
    { destruct (clampDegrees_cases d) as [[A E]|[[A E]|[A E]]];
        destruct (clampDegrees_cases (- d)) as [[A' E']|[[A' E']|[A' E']]];
        rewrite E, E'; lra. }
    rewrite C. field.
Qed.

Lemma clampThrottle_cases (t : Q) :
  (1 <= t /\ Qmax 0 (Qmin 1 t) == 1) \/
  (t <= 0 /\ Qmax 0 (Qmin 1 t) == 0) \/
  (0 <= t <= 1 /\ Qmax 0 (Qmin 1 t) == t).
Proof.
  destruct (Qlt_le_dec t 1) as [U|U].
  - destruct (Qlt_le_dec 0 t) as [L|L].
    + right; right. split; [lra|].
      rewrite (Q.min_r 1 t) by lra. apply Q.max_r. lra.
    + right; left. split; [lra|].
      rewrite (Q.min_r 1 t) by lra. apply Q.max_l. lra.
  - left. split; [exact U|].
    rewrite (Q.min_l 1 t) by lra. apply Q.max_r. lra.
Qed.

Lemma rawThrottle (dist : Q) :
  1 - (dist - 0.03) / (0.15 - 0.03) == (0.15 - dist) / 0.12.
Proof. field. Qed.

(** X24: pinching is the throttle.  The throttle is full (1) when thumb and
    index are 0.03 apart or closer, off (0) when they are 0.15 apart or
    farther, falls in a straight line in between, and never grows when the
    fingers open. *)
Theorem throttle_is_full_when_pinched :
  (forall dist, dist <= 0.03 -> throttleFromDist dist == 1) /\
  (forall dist, 0.15 <= dist -> throttleFromDist dist == 0) /\
  (forall dist, 0.03 <= dist <= 0.15 ->
     throttleFromDist dist == (0.15 - dist) / 0.12) /\
  (forall dist dist', dist <= dist' ->
     throttleFromDist dist' <= throttleFromDist dist).
Proof.
  assert (R : forall dist, 1 - (dist - 0.03) / (0.15 - 0.03)
                           == (0.15 - dist) * (25 # 3))
    by (intro dist; field).
  unfold throttleFromDist. cbv zeta. conj.
  - intros dist H.
    destruct (clampThrottle_cases (1 - (dist - 0.03) / (0.15 - 0.03)))
      as [[A E]|[[A E]|[A E]]]; rewrite E; try reflexivity.
    + rewrite R in A. lra.
    + rewrite R in *. lra.
  - intros dist H.
    destruct (clampThrottle_cases (1 - (dist - 0.03) / (0.15 - 0.03)))
      as [[A E]|[[A E]|[A E]]]; rewrite E; try reflexivity.
    + rewrite R in A. lra.
    + rewrite R in *. lra.
  - intros dist H.
    destruct (clampThrottle_cases (1 - (dist - 0.03) / (0.15 - 0.03)))
      as [[A E]|[[A E]|[A E]]]; rewrite E.
    + rewrite R in A. setoid_replace dist with 0.03 by lra. field.
    + rewrite R in A. setoid_replace dist with 0.15 by lra. field.
    + apply rawThrottle.
  - intros dist dist' H.
    destruct (clampThrottle_cases (1 - (dist - 0.03) / (0.15 - 0.03)))
      as [[A E]|[[A E]|[A E]]];
      destruct (clampThrottle_cases (1 - (dist' - 0.03) / (0.15 - 0.03)))
        as [[A' E']|[[A' E']|[A' E']]];
      rewrite E, E'; rewrite ?R in *; lra.
Qed.

(** *** The control message *)

Section Control.
Variable Math_atan2 : Q -> Q -> Q.
Variable Math_PI : Q.
Variable Math_sqrt : Q -> Q.

Lemma calculateSteering_range (leftHand rightHand : Hand) :
  -1 <= calculateSteering Math_atan2 Math_PI leftHand rightHand <= 1.
Proof.
  unfold calculateSteering.
  destruct (nth_error leftHand 9); [|lra].
  destruct (nth_error rightHand 9); [|lra].
  apply steeringFromDegrees_range.
Qed.

Lemma calculateThrottle_range (hand : Hand) :
  0 <= calculateThrottle Math_sqrt hand <= 1.
Proof.
  unfold calculateThrottle.
  destruct (nth_error hand 4); [|lra].
  destruct (nth_error hand 8); [|lra].
  apply throttleFromDist_range.
Qed.

(** The control message, case by case. *)
Lemma renderLoop_message (results : option (list Hand)) (u : ControlUpdate) :
  renderLoop Math_atan2 Math_PI Math_sqrt results = Some u ->
  (isTracking (control u) = true <-> handsDetected u = 2%nat) /\
  handsDetected u
  = match results with Some landmarks => List.length landmarks | None => O end
  /\ -1 <= steering (control u) <= 1 /\ 0 <= throttle (control u) <= 1 /\
  (handsDetected u <> 2%nat ->
   steering (control u) == 0 /\ throttle (control u) == 0).
Proof.
  unfold renderLoop. cbv zeta.
  destruct results as [[|a [|b [|c rest]]]|].
  3: destruct (sortedHands a b) as [[rightHandRaw leftHandRaw]|];
     [|discriminate].
  all: intro E; injection E as <-; cbn.
  all: conj; try reflexivity; try lra; try tauto; try discriminate;
       try (split; [reflexivity | discriminate]);
       try (split; [discriminate | lia]);
       try (split; intro; [discriminate | lia]).
  - apply calculateSteering_range.
  - apply calculateSteering_range.
  - apply calculateThrottle_range.
  - apply calculateThrottle_range.
Qed.

(** X25: the control message is neutral without two hands.  Whatever the
    landmarker reports, the message has [isTracking] set exactly when two
    hands were found, it counts the hands that were found, its steering is
    in [-1, 1] and its throttle in [0, 1], and with no hand, one hand or
    more than two both are 0. *)
Theorem control_is_neutral_without_two_hands (results : option (list Hand))
  (u : ControlUpdate) :
  renderLoop Math_atan2 Math_PI Math_sqrt results = Some u ->
  (isTracking (control u) = true <-> handsDetected u = 2%nat) /\
  handsDetected u
  = match results with Some landmarks => List.length landmarks | None => O end
  /\ -1 <= steering (control u) <= 1 /\ 0 <= throttle (control u) <= 1 /\
  (handsDetected u <> 2%nat ->
   steering (control u) == 0 /\ throttle (control u) == 0).
Proof. exact (renderLoop_message results u). Qed.

(** X26: the page shows what the hands do.  When a control message reaches
    [handleControlUpdate], the phase and the last score stay; START RACE
    is enabled exactly when the message counts two hands; the steering
    marker and the throttle bar stay between 0 and 100 percent; and the
    direction indicator is rendered only in the PLAYING phase and with two
    hands in view. *)
Theorem the_page_shows_what_the_hands_do (results : option (list Hand))
  (u : ControlUpdate) (a : App.t) :
  renderLoop Math_atan2 Math_PI Math_sqrt results = Some u ->
  let a' := App.handleControlUpdate (control u) a in
  App.gameState a' = App.gameState a /\
  App.lastScore a' = App.lastScore a /\
  (startDisabled a' = false <-> handsDetected u = 2%nat) /\
  0 <= steeringMarkerLeft a' <= 100 /\
  0 <= throttleBarWidth a' <= 100 /\
  (directionIndicator a' <> None ->
   App.gameState a = PLAYING /\ handsDetected u = 2%nat).
Proof.
  intro E. destruct (renderLoop_message results u E) as (T & _ & S & H & N).
  cbv zeta.
  unfold startDisabled, steeringMarkerLeft, throttleBarWidth,
    directionIndicator.
  cbn [App.handleControlUpdate App.gameState App.lastScore App.controlState].
  conj; try reflexivity; try lra.
  - rewrite negb_false_iff. apply T.
  - intro I.
    destruct (App.gameState a); cbn [GameState_eqb andb] in I;
      try congruence.
    split; [reflexivity|].
    destruct (Qltb 0.3 (Qabs (steering (control u)))) eqn:G;
      [|congruence].
    destruct (Nat.eq_dec (handsDetected u) 2) as [D|D]; [exact D|].
    destruct (N D) as [Z _]. apply Qltb_lt in G. rewrite Z in G.
    exfalso. revert G. clear. cbn. lra.
Qed.

(** X27: which of the two hands the landmarker lists first does not matter
    when their knuckles (landmark 9) differ in [x]: the hand with the lower
    [x] is taken for the right hand, used for the throttle and as the second
    argument of [calculateSteering]. *)
Theorem hand_order_does_not_matter (a b : Hand) (pa pb : Landmark.t) :
  nth_error a 9 = Some pa -> nth_error b 9 = Some pb ->
  Landmark.x pa < Landmark.x pb ->
  renderLoop Math_atan2 Math_PI Math_sqrt (Some [a; b])
  = renderLoop Math_atan2 Math_PI Math_sqrt (Some [b; a]) /\
  renderLoop Math_atan2 Math_PI Math_sqrt (Some [a; b])
  = Some (mkUpdate
            (mkControl (calculateSteering Math_atan2 Math_PI b a)
               (calculateThrottle Math_sqrt a) true)
            2 "Drive Mode").
Proof.
  intros A B L. unfold renderLoop, sortedHands. cbv zeta. rewrite A, B.
  assert (Qltb 0 (Landmark.x pa - Landmark.x pb) = false) as ->
    by (apply Qltb_ge; lra).
  assert (Qltb 0 (Landmark.x pb - Landmark.x pa) = true) as ->
    by (apply Qltb_lt; lra).
  split; reflexivity.
Qed.

(** The quadrants of [Math.atan2], as far as the steering needs them: a
    point left of the origin lies more than a quarter turn away from the
    positive [x] axis, counter-clockwise when it is not below the axis and
    clockwise when it is. *)
Hypothesis PI_positive : 0 < Math_PI.
Hypothesis atan2_left_up :
  forall dy dx, dx < 0 -> 0 <= dy -> Math_PI / 2 < Math_atan2 dy dx.
Hypothesis atan2_left_down :
  forall dy dx, dx < 0 -> dy < 0 -> Math_atan2 dy dx < - (Math_PI / 2).

Lemma degrees_left_up (angle : Q) :
  Math_PI / 2 < angle -> 45 <= angle * (180 / Math_PI).
Proof.
  intro H.
  assert (E : angle * (180 / Math_PI) == angle / Math_PI * 180)
    by (field; lra).
  rewrite E.
  assert (1 # 2 < angle / Math_PI).
  { apply Qlt_shift_div_l; [exact PI_positive|].
    setoid_replace ((1 # 2) * Math_PI) with (Math_PI / 2) by field.
    exact H. }
  lra.
Qed.

Lemma degrees_left_down (angle : Q) :
  angle < - (Math_PI / 2) -> angle * (180 / Math_PI) <= - (45).
Proof.
  intro H.
  assert (E : angle * (180 / Math_PI) == angle / Math_PI * 180)
    by (field; lra).
  rewrite E.
  assert (angle / Math_PI < - (1 # 2)).
  { apply Qlt_shift_div_r; [exact PI_positive|].
    setoid_replace (- (1 # 2) * Math_PI) with (- (Math_PI / 2)) by field.
    exact H. }
  lra.
Qed.

(** X28: with two hands in view the steering is all or nothing.  The hand
    with the lower [x] is passed as the right hand, so that [dx] is
    negative and the angle lies beyond a quarter turn: the steering of the
    message is 1 when the knuckle of that hand is not above the knuckle of
    the other hand on the image ([y] not smaller), and -1 when it is;
    hands held level steer fully to the right. *)
Theorem steering_is_all_or_nothing (a b : Hand) (pa pb : Landmark.t) :
  nth_error a 9 = Some pa -> nth_error b 9 = Some pb ->
  Landmark.x pa < Landmark.x pb ->
  exists u,
    renderLoop Math_atan2 Math_PI Math_sqrt (Some [a; b]) = Some u /\
    renderLoop Math_atan2 Math_PI Math_sqrt (Some [b; a]) = Some u /\
    isTracking (control u) = true /\
    (Landmark.y pb <= Landmark.y pa -> steering (control u) == 1) /\
    (Landmark.y pa < Landmark.y pb -> steering (control u) == -1).
Proof.
  intros A B L.
  destruct (hand_order_does_not_matter a b pa pb A B L) as [E1 E2].
  rewrite <- E1, E2. eexists. split; [reflexivity|]. split; [reflexivity|].
  cbn [control steering isTracking]. split; [reflexivity|].
  unfold calculateSteering. rewrite A, B. cbv zeta. split; intro Y.
  - apply steeringFromDegrees_high, degrees_left_up, atan2_left_up; lra.
  - apply steeringFromDegrees_low, degrees_left_down, atan2_left_down; lra.
Qed.

(** X29: the speedometer stays on its dial.  It is drawn only with two
    hands in view, and then its arc starts where the dial starts, at three
    quarters of [Math.PI], and ends before the dial does, at nine quarters;
    the hue of its colour is between 0 and 180, and the number shown is
    between 0 and 100. *)
Theorem speedometer_stays_on_its_dial (results : option (list Hand))
  (g : Speedometer) :
  renderLoopSpeedometer Math_atan2 Math_PI Math_sqrt results = Some g ->
  (exists a b, results = Some [a; b]) /\
  startAngle g = Math_PI * 0.75 /\
  startAngle g <= endAngle g <= Math_PI * 2.25 /\
  0 <= hue g <= 180 /\ (0 <= percent g <= 100)%Z.
Proof.
  unfold renderLoopSpeedometer.
  destruct (renderLoop Math_atan2 Math_PI Math_sqrt results) as [u|] eqn:E;
    [|discriminate].
  destruct (renderLoop_message results u E) as (_ & C & _ & T & _).
  destruct (Nat.eqb (handsDetected u) 2) eqn:H; [|discriminate].
  apply Nat.eqb_eq in H. intro G. injection G as <-.
  unfold drawSpeedometer. cbv zeta.
  cbn [startAngle endAngle hue percent].
  generalize dependent (throttle (control u)). intros t T.
  assert (P : 0 <= Math_PI * t <= Math_PI).
  { split; [apply Qmult_le_0_compat; lra | nra]. }
  conj; try reflexivity; try lra.
  - rewrite H in C. destruct results as [[|a [|b [|c rest]]]|];
      try discriminate C. now exists a, b.
  - apply (Qfloor_resp_le 0). lra.
  - apply (Qfloor_resp_le _ 100). lra.
Qed.

End Control.

(** The theorem at one hand in view. *)
Lemma control_is_neutral_without_two_hands_witness :
  renderLoop coarseAtan2 3 (fun q => q) (Some [handAt 0.3 0.5])
  = Some (mkUpdate (mkControl 0 0 false) 1 "Need 2 Hands") /\
  (handsDetected (mkUpdate (mkControl 0 0 false) 1 "Need 2 Hands") <> 2%nat ->
   steering (control (mkUpdate (mkControl 0 0 false) 1 "Need 2 Hands")) == 0
   /\
   throttle (control (mkUpdate (mkControl 0 0 false) 1 "Need 2 Hands")) == 0).
Proof.
  split; [reflexivity|].
  apply (control_is_neutral_without_two_hands coarseAtan2 3 (fun q => q)
           (Some [handAt 0.3 0.5])
           (mkUpdate (mkControl 0 0 false) 1 "Need 2 Hands") eq_refl).
Defined.

(** The theorem at two hands held level, a knuckle at [x = 0.3] and one at
    [x = 0.7]. *)
Lemma hand_order_does_not_matter_witness :
  nth_error (handAt 0.3 0.5) 9 = Some (Landmark.mk 0.3 0.5) /\
  nth_error (handAt 0.7 0.5) 9 = Some (Landmark.mk 0.7 0.5) /\
  Landmark.x (Landmark.mk 0.3 0.5) < Landmark.x (Landmark.mk 0.7 0.5) /\
  renderLoop coarseAtan2 3 (fun q => q)
    (Some [handAt 0.3 0.5; handAt 0.7 0.5])
  = renderLoop coarseAtan2 3 (fun q => q)
      (Some [handAt 0.7 0.5; handAt 0.3 0.5]).
Proof.
  assert (L : Landmark.x (Landmark.mk 0.3 0.5)
              < Landmark.x (Landmark.mk 0.7 0.5)) by (cbn; lra).
  split; [reflexivity|]. split; [reflexivity|]. split; [exact L|].
  apply (hand_order_does_not_matter coarseAtan2 3 (fun q => q)
           (handAt 0.3 0.5) (handAt 0.7 0.5) _ _ eq_refl eq_refl L).
Defined.

Lemma coarseAtan2_left_up (dy dx : Q) :
  dx < 0 -> 0 <= dy -> 3 / 2 < coarseAtan2 dy dx.
Proof.
  intros X Y. unfold coarseAtan2.
  assert (Qltb dx 0 = true) as -> by now apply Qltb_lt.
  assert (Qltb dy 0 = false) as -> by now apply Qltb_ge.
  reflexivity.
Qed.

Lemma coarseAtan2_left_down (dy dx : Q) :
  dx < 0 -> dy < 0 -> coarseAtan2 dy dx < - (3 / 2).
Proof.
  intros X Y. unfold coarseAtan2.
  assert (Qltb dx 0 = true) as -> by now apply Qltb_lt.
  assert (Qltb dy 0 = true) as -> by now apply Qltb_lt.
  reflexivity.
Qed.

(** The theorem at two hands held level. *)
Lemma steering_is_all_or_nothing_witness :
  0 < 3 /\
  (forall dy dx, dx < 0 -> 0 <= dy -> 3 / 2 < coarseAtan2 dy dx) /\
  (forall dy dx, dx < 0 -> dy < 0 -> coarseAtan2 dy dx < - (3 / 2)) /\
  nth_error (handAt 0.3 0.5) 9 = Some (Landmark.mk 0.3 0.5) /\
  nth_error (handAt 0.7 0.5) 9 = Some (Landmark.mk 0.7 0.5) /\
  Landmark.x (Landmark.mk 0.3 0.5) < Landmark.x (Landmark.mk 0.7 0.5) /\
  exists u,
    renderLoop coarseAtan2 3 (fun q => q)
      (Some [handAt 0.3 0.5; handAt 0.7 0.5]) = Some u /\
    renderLoop coarseAtan2 3 (fun q => q)
      (Some [handAt 0.7 0.5; handAt 0.3 0.5]) = Some u /\
    isTracking (control u) = true /\
    (Landmark.y (Landmark.mk 0.7 0.5) <= Landmark.y (Landmark.mk 0.3 0.5) ->
     steering (control u) == 1) /\
    (Landmark.y (Landmark.mk 0.3 0.5) < Landmark.y (Landmark.mk 0.7 0.5) ->
     steering (control u) == -1).
Proof.
  assert (P : 0 < 3) by lra.
  assert (L : Landmark.x (Landmark.mk 0.3 0.5)
              < Landmark.x (Landmark.mk 0.7 0.5)) by (cbn; lra).
  split; [exact P|]. split; [exact coarseAtan2_left_up|].
  split; [exact coarseAtan2_left_down|].
  split; [reflexivity|]. split; [reflexivity|]. split; [exact L|].
  exact (steering_is_all_or_nothing coarseAtan2 3 (fun q => q) P
           coarseAtan2_left_up coarseAtan2_left_down
           (handAt 0.3 0.5) (handAt 0.7 0.5) _ _ eq_refl eq_refl L).
Defined.

(** The theorem at a page in the menu, with two hands held level. *)
Lemma the_page_shows_what_the_hands_do_witness :
  renderLoop coarseAtan2 3 (fun q => q)
    (Some [handAt 0.3 0.5; handAt 0.7 0.5])
  = Some (mkUpdate
            (mkControl
               (calculateSteering coarseAtan2 3 (handAt 0.7 0.5)
                  (handAt 0.3 0.5))
               (calculateThrottle (fun q => q) (handAt 0.3 0.5)) true)
            2 "Drive Mode") /\
  (startDisabled
     (App.handleControlUpdate
        (mkControl
           (calculateSteering coarseAtan2 3 (handAt 0.7 0.5)
              (handAt 0.3 0.5))
           (calculateThrottle (fun q => q) (handAt 0.3 0.5)) true)
        App.initial) = false <-> 2%nat = 2%nat).
Proof.
  split; [reflexivity|].
  apply (the_page_shows_what_the_hands_do coarseAtan2 3 (fun q => q)
           (Some [handAt 0.3 0.5; handAt 0.7 0.5])
           (mkUpdate
              (mkControl
                 (calculateSteering coarseAtan2 3 (handAt 0.7 0.5)
                    (handAt 0.3 0.5))
                 (calculateThrottle (fun q => q) (handAt 0.3 0.5)) true)
              2 "Drive Mode")
           App.initial eq_refl).
Defined.

(** The theorem at two hands held level. *)
Lemma speedometer_stays_on_its_dial_witness :
  0 < 3 /\
  renderLoopSpeedometer coarseAtan2 3 (fun q => q)
    (Some [handAt 0.3 0.5; handAt 0.7 0.5])
  = Some (drawSpeedometer 3
            (calculateThrottle (fun q => q) (handAt 0.3 0.5))) /\
  (0 <= percent (drawSpeedometer 3
                   (calculateThrottle (fun q => q) (handAt 0.3 0.5)))
   <= 100)%Z.
Proof.
  assert (P : 0 < 3) by lra.
  split; [exact P|]. split; [reflexivity|].
  apply (speedometer_stays_on_its_dial coarseAtan2 3 (fun q => q) P
           (Some [handAt 0.3 0.5; handAt 0.7 0.5]) _ eq_refl).
Defined.
